(** * cms-json: the schema/data engine (cms.ts), embedded and verified

    The engine edits a schema tree ([Model]) and the JSON data that mirrors it
    through short-lived projections ([Node]).  The TypeScript source mutates
    the schema and data objects in place; here every mutating operation takes
    the projection it is called on and returns that projection as it is after
    the call, paired with the value returned or the exception thrown.

    Conventions of the embedding:
    - JSON values are [value]; a JS object is a finite map of its own
      properties ([gmap string value]).  Members inherited from a prototype
      are no data and [js_get] does not produce them: a statement about the
      read of a key that the object may lack says that the key is none of
      [object_prototype_names].
    - numbers are the integers the engine computes with (indices, counters),
      as [Z], plus [VNaN] for a failed [parseInt]; fractions and the rounding
      of integers above 2^53 are outside the model.
    - strings are sequences of ASCII characters; what depends on the
      character set (whitespace, letter case) is stated for [ascii_only]
      names.
    - the module is strict-mode code: a property write on [undefined], [null]
      or a primitive throws a [TypeError]; a named-property write on an array
      is not JSON data and is reported the same way.
    - a projection is a snapshot: after a mutating call the caller reads the
      new state from the projection that call returns.  Objects that the
      source shares between projections (the model of an item and of its
      container, the data of a child and the entry of its parent's data) are
      separate values here, so what a call changes is stated for the
      projection it returns and for its struct node, not for the other
      projections that share the object. *)

From Stdlib Require Import ZArith Ascii String.
From stdpp Require Import gmap strings list fin_maps pretty.

Set Warnings "-register-all".
Local Open Scope string_scope.
Local Open Scope Z_scope.

(** ** JSON values and the JavaScript primitives the engine relies on *)

Inductive value :=
| VUndef
| VNull
| VBool (b : bool)
| VNum (z : Z)
| VNaN
| VStr (s : string)
| VArr (l : list value)
| VObj (m : gmap string value).

(** Exceptions, one constructor per [throw] site of the source, plus the
    runtime's own [TypeError]. *)
Inductive Error :=
| NegativeFieldIndex        (* getFieldAt: `Negative field index` *)
| NoFieldAtIndex            (* getFieldAt: `No field at index ...` *)
| CouldNotDeleteNode        (* deleteNode *)
| NoChildForPath            (* _treePathAndIndex, default branch *)
| NoChildWithSlug           (* _findChild *)
| CannotListItems           (* getDataItems *)
| KeyFieldProtected         (* _checkDeleteFieldAt, key field *)
| ValueFieldProtected       (* _checkDeleteFieldAt, map<string> *)
| UnknownType               (* _convert *)
| NoChildNamed              (* _findNode *)
| JsTypeError.              (* raised by the runtime *)

Inductive result (A : Type) :=
| OK (a : A)
| Throw (e : Error).
Arguments OK {A} a.
Arguments Throw {A} e.

(** Sequencing: an exception ends the computation.  With these instances
    stdpp's [x ← r; k] notation reads like the statements of the source. *)
#[global] Instance result_ret : MRet result := fun _ a => OK a.
#[global] Instance result_bind : MBind result := fun _ _ k r =>
  match r with
  | OK a => k a
  | Throw e => Throw e
  end.
#[global] Instance result_fmap : FMap result := fun _ _ f r =>
  match r with
  | OK a => OK (f a)
  | Throw e => Throw e
  end.

(** The error kinds of the specification, and the kind of each exception. *)
Inductive ErrorKind :=
| IndexError
| NotFoundError
| ProtectedFieldError
| UnsupportedOperationError
| RuntimeTypeError.

Definition error_kind (e : Error) : ErrorKind :=
  match e with
  | NegativeFieldIndex => IndexError
  | NoFieldAtIndex | CouldNotDeleteNode
  | NoChildForPath | NoChildWithSlug | NoChildNamed => NotFoundError
  | KeyFieldProtected | ValueFieldProtected => ProtectedFieldError
  | CannotListItems | UnknownType => UnsupportedOperationError
  | JsTypeError => RuntimeTypeError
  end.

(** [ToBoolean]. *)
Definition truthy (v : value) : bool :=
  match v with
  | VUndef | VNull | VNaN => false
  | VBool b => b
  | VNum z => negb (z =? 0)
  | VStr s => negb (String.eqb s "")
  | VArr _ | VObj _ => true
  end.

(** [a || b] on values. *)
Definition js_or (a b : value) : value := if truthy a then a else b.

(** [Array.prototype.join]. *)
Fixpoint join (sep : string) (l : list string) : string :=
  match l with
  | [] => ""
  | [s] => s
  | s :: rest => s +:+ sep +:+ join sep rest
  end.

(** [ToString]; an array prints its elements separated by commas, with
    [undefined] and [null] elements printed as nothing. *)
Fixpoint js_to_string (v : value) : string :=
  match v with
  | VUndef => "undefined"
  | VNull => "null"
  | VBool true => "true"
  | VBool false => "false"
  | VNum z => pretty z
  | VNaN => "NaN"
  | VStr s => s
  | VArr l =>
      join "," (List.map (fun e => match e with
                                   | VUndef | VNull => ""
                                   | _ => js_to_string e
                                   end) l)
  | VObj _ => "[object Object]"
  end.

(** Decimal digits, for array indices and [parseInt]. *)
Definition digit_of (c : ascii) : option Z :=
  let n := Z.of_N (N_of_ascii c) in
  if (48 <=? n) && (n <=? 57) then Some (n - 48)
  else if (97 <=? n) && (n <=? 102) then Some (n - 87)
  else if (65 <=? n) && (n <=? 70) then Some (n - 55)
  else None.

Definition digit_in (radix : Z) (c : ascii) : option Z :=
  match digit_of c with
  | Some d => if d <? radix then Some d else None
  | None => None
  end.

(** The longest prefix of digits of [s], read in [radix] onto [acc];
    [None] when [s] starts with no digit. *)
Fixpoint read_digits (radix : Z) (s : string) (acc : option Z) : option Z :=
  match s with
  | String c rest =>
      match digit_in radix c with
      | Some d => read_digits radix rest (Some (default 0 acc * radix + d))
      | None => acc
      end
  | EmptyString => acc
  end.

(** [\s] on ASCII: tab, line feed, vertical tab, form feed, carriage return,
    space. *)
Definition is_ws (c : ascii) : bool :=
  let n := N_of_ascii c in
  ((9 <=? n) && (n <=? 13))%N || (n =? 32)%N.

Fixpoint skip_ws (s : string) : string :=
  match s with
  | String c rest => if is_ws c then skip_ws rest else s
  | EmptyString => s
  end.

Definition strip_radix (s : string) : Z * string :=
  match s with
  | String "0" (String "x" rest) | String "0" (String "X" rest) => (16, rest)
  | _ => (10, s)
  end.

(** [parseInt(s)] without a radix. *)
Definition parseInt (s : string) : value :=
  let s := skip_ws s in
  let '(sign, s) :=
    match s with
    | String "-" rest => (-1, rest)
    | String "+" rest => (1, rest)
    | _ => (1, s)
    end in
  let '(radix, s) := strip_radix s in
  match read_digits radix s None with
  | Some n => VNum (sign * n)
  | None => VNaN
  end.

(** An array index written canonically as a property key. *)
Definition index_of_key (k : string) : option nat :=
  match read_digits 10 k None with
  | Some n => if String.eqb (pretty n) k then Some (Z.to_nat n) else None
  | None => None
  end.

(** [ToPropertyKey] for the values the engine indexes with. *)
Definition key_of (v : value) : string := js_to_string v.

(** Property read [v[k]], of the properties the value has of its own. *)
Definition js_get (v : value) (k : string) : result value :=
  match v with
  | VUndef | VNull => Throw JsTypeError
  | VObj m => OK (default VUndef (m !! k))
  | VArr l =>
      match index_of_key k with
      | Some i => OK (default VUndef (l !! i))
      | None => if String.eqb k "length" then OK (VNum (Z.of_nat (length l)))
                else OK VUndef
      end
  | VStr s =>
      match index_of_key k with
      | Some i => OK (match String.get i s with
                      | Some c => VStr (String c "")
                      | None => VUndef
                      end)
      | None => if String.eqb k "length"
                then OK (VNum (Z.of_nat (String.length s)))
                else OK VUndef
      end
  | VBool _ | VNum _ | VNaN => OK VUndef
  end.

(** Property write [v[k] = x], giving the receiver after the write. *)
Definition js_set (v : value) (k : string) (x : value) : result value :=
  match v with
  | VObj m => OK (VObj (<[k := x]> m))
  | _ => Throw JsTypeError
  end.

(** [delete v[k]], giving the receiver after the deletion. *)
Definition js_delete (v : value) (k : string) : result value :=
  match v with
  | VUndef | VNull => Throw JsTypeError
  | VObj m => OK (VObj (delete k m))
  | VArr l =>
      match index_of_key k with
      | Some i => OK (VArr (<[i := VUndef]> l))
      | None => if String.eqb k "length" then Throw JsTypeError else OK v
      end
  | VStr s =>
      match index_of_key k with
      | Some i => if (i <? String.length s)%nat then Throw JsTypeError else OK v
      | None => if String.eqb k "length" then Throw JsTypeError else OK v
      end
  | VBool _ | VNum _ | VNaN => OK v
  end.

(** [String.prototype.split('/')]. *)
Fixpoint split_slash (s : string) : list string :=
  match s with
  | EmptyString => [""]
  | String c rest =>
      if Ascii.eqb c "/" then "" :: split_slash rest
      else match split_slash rest with
           | seg :: segs => String c seg :: segs
           | [] => [String c ""]
           end
  end.

Fixpoint map_chars (f : ascii -> ascii) (s : string) : string :=
  match s with
  | EmptyString => EmptyString
  | String c rest => String (f c) (map_chars f rest)
  end.

Definition lower (c : ascii) : ascii :=
  let n := N_of_ascii c in
  if ((65 <=? n) && (n <=? 90))%N then ascii_of_N (n + 32) else c.

(** [str.replace(/\s/g, '_').replace(/\//g, '-').toLowerCase()], on ASCII
    characters. *)
Definition slugify (str : string) : string :=
  map_chars lower
    (map_chars (fun c => if Ascii.eqb c "/" then "-"%char else c)
       (map_chars (fun c => if is_ws c then "_"%char else c) str)).

(** ** Schema, fields and projections *)

Definition TYPE_TREE := "tree".
Definition TYPE_MAP_OBJECT := "map<object>".
Definition TYPE_MAP_STRING := "map<string>".
Definition TYPE_LIST_OBJECT := "list<object>".
Definition FIELD_TYPE_STRING := "string".
Definition FIELD_TYPE_BOOLEAN := "boolean".
Definition FIELD_TYPE_ARRAY := "array".
Definition FIELD_TYPE_MARKDOWN := "markdown".

(** [interface Field]; a missing [type] is [None], a missing [key] is
    [false] (the source only tests [key] for truthiness). *)
Record Field := mkField {
  fname : string;
  ftype : option string;
  fkey : bool
}.

(** An entry of [Model.fields]: a bare display name or a structured field. *)
Inductive FieldDecl :=
| Bare (s : string)
| Declared (f : Field).

(** [interface Model]; [mtype] is [None] when the schema gives no type and
    [mlist] is the legacy [list] flag. *)
Inductive Model := mkModel {
  name : string;
  children : option (list Model);
  mtype : option string;
  mlist : bool;
  fields : option (list FieldDecl)
}.

(** [interface Node], with the [dataIndex] that [_findNode] and [addNode]
    put on the projections they build ([VUndef] when the property is
    missing); [path] and [treePath] are [None] when undefined. *)
Inductive Node := mkNode {
  model : Model;
  data : value;
  parent : option Node;
  path : option string;
  treePath : option string;
  dataIndex : value;
  fieldIndex : value
}.

Definition set_children (m : Model) (cs : option (list Model)) : Model :=
  mkModel (name m) cs (mtype m) (mlist m) (fields m).
Definition set_name (m : Model) (n : string) : Model :=
  mkModel n (children m) (mtype m) (mlist m) (fields m).
Definition set_fields (m : Model) (fs : option (list FieldDecl)) : Model :=
  mkModel (name m) (children m) (mtype m) (mlist m) fs.
Definition set_model (n : Node) (m : Model) : Node :=
  mkNode m (data n) (parent n) (path n) (treePath n) (dataIndex n) (fieldIndex n).
Definition set_data (n : Node) (d : value) : Node :=
  mkNode (model n) d (parent n) (path n) (treePath n) (dataIndex n) (fieldIndex n).
Definition set_parent (n : Node) (p : option Node) : Node :=
  mkNode (model n) (data n) p (path n) (treePath n) (dataIndex n) (fieldIndex n).
Definition set_paths (n : Node) (p : option string) : Node :=
  mkNode (model n) (data n) (parent n) p p (dataIndex n) (fieldIndex n).

(** A mutating operation: the projection after the call, and what the call
    returned or threw. *)
Definition outcome (A : Type) : Type := Node * result A.

(** [x + '/'] and the like, where [x] may be undefined. *)
Definition str_of (p : option string) : string := default "undefined" p.

(** [node.path ? (node.path + '/') : ''] *)
Definition path_prefix (p : option string) : string :=
  match p with
  | Some s => if String.eqb s "" then "" else s +:+ "/"
  | None => ""
  end.

Definition getNodeType (node : Node) : string :=
  match mtype (model node) with
  | Some t => if String.eqb t "" then
                if mlist (model node) then TYPE_LIST_OBJECT else TYPE_TREE
              else t
  | None => if mlist (model node) then TYPE_LIST_OBJECT else TYPE_TREE
  end.

Definition getField (f : FieldDecl) : Field :=
  match f with
  | Bare s => mkField s None false
  | Declared f => f
  end.

Definition getFieldAt (node : Node) (fieldIndex : Z) : result Field :=
  if fieldIndex <? 0 then Throw NegativeFieldIndex
  else match fields (model node) with
       | Some fs =>
           if fieldIndex <? Z.of_nat (length fs)
           then match fs !! Z.to_nat fieldIndex with
                | Some f => OK (getField f)
                | None => Throw NoFieldAtIndex
                end
           else Throw NoFieldAtIndex
       | None => Throw NoFieldAtIndex
       end.

Definition getFields (node : Node) : list Field :=
  match fields (model node) with
  | Some fs => getField <$> fs
  | None => []
  end.

Definition getFieldNamed (node : Node) (n : string) : option Field :=
  head (List.filter (fun f => String.eqb (fname f) n) (getFields node)).

Definition isMapType (node : Node) : bool :=
  let nodeType := getNodeType node in
  String.eqb nodeType TYPE_MAP_STRING || String.eqb nodeType TYPE_MAP_OBJECT.

Definition isKeyField (f : FieldDecl) : bool :=
  match f with
  | Bare _ => false
  | Declared f => fkey f
  end.

Definition isItem (node : Node) : bool :=
  let nodeType := getNodeType node in
  String.eqb nodeType TYPE_LIST_OBJECT || String.eqb nodeType TYPE_MAP_OBJECT
  || String.eqb nodeType TYPE_MAP_STRING.

(** [node.model.children && node.model.children.length > 0] *)
Definition has_children (node : Node) : bool :=
  match children (model node) with
  | Some (_ :: _) => true
  | _ => false
  end.

(** The first child model whose slug is [slug], as the loops of [_findChild]
    and [_findNode] find it. *)
Definition child_with_slug (cs : list Model) (slug : string) : option Model :=
  List.find (fun c => String.eqb (slugify (name c)) slug) cs.

Definition _findChild (node : Node) (slug : string) : result Node :=
  match children (model node) with
  | Some cs =>
      match child_with_slug cs slug with
      | Some c =>
          let childPath := str_of (path node) +:+ "/" +:+ slug in
          d ← js_get (data node) slug;
          OK (mkNode c d (Some node) (Some childPath) (Some childPath)
                VUndef (VNum (-1)))
      | None => Throw NoChildWithSlug
      end
  | None => Throw NoChildWithSlug
  end.

Definition getChildren (node : Node) : result (list Node) :=
  match children (model node) with
  | Some cs =>
      mapM (fun modelChild =>
              let childPath := path_prefix (path node) +:+ slugify (name modelChild) in
              d ← js_get (data node) (slugify (name modelChild));
              OK (mkNode modelChild d (Some node) (Some childPath)
                    (Some childPath) VUndef (VNum (-1)))) cs
  | None => OK []
  end.

(** A path argument: the engine accepts a string or a sequence of segments. *)
Inductive PathArg :=
| PathStr (s : string)
| PathSeq (l : list string).

(** [interface Path]; [treePath] is a sequence while [_treePathAndIndex]
    accumulates it and a string once [treePathAndIndex] has joined it. *)
Module Path.
Record t (T : Type) := mk {
  fullPath : PathArg;
  treePath : T;
  dataIndex : value
}.
Arguments mk {T}.
Arguments fullPath {T}.
Arguments treePath {T}.
Arguments dataIndex {T}.
End Path.

(** The recursive call works on the shared [result] object ([res] here), so
    what the outer call returns is that object as the inner call left it. *)
Fixpoint _treePathAndIndex (node : Node) (path : list string)
    (res : Path.t (list string)) : result (Path.t (list string)) :=
  match path with
  | p :: rest =>
      if has_children node then
        let res := Path.mk (Path.fullPath res)
                     (Path.treePath res ++ [p])%list (Path.dataIndex res) in
        child ← _findChild node p;
        _treePathAndIndex child rest res
      else
        let nodeType := getNodeType node in
        if String.eqb nodeType TYPE_LIST_OBJECT then
          OK (Path.mk (Path.fullPath res) (Path.treePath res) (parseInt p))
        else if String.eqb nodeType TYPE_MAP_OBJECT
                || String.eqb nodeType TYPE_MAP_STRING then
          OK (Path.mk (Path.fullPath res) (Path.treePath res) (VStr p))
        else Throw NoChildForPath
  | [] => OK res
  end.

(** [Array.isArray(path) ? path : (path.length > 0 ? path.split('/') : '')];
    the empty string stands for the empty sequence in [_treePathAndIndex]. *)
Definition path_segments (path : PathArg) : list string :=
  match path with
  | PathSeq l => l
  | PathStr s => if String.eqb s "" then [] else split_slash s
  end.

Definition treePathAndIndex (tree : Node) (path : PathArg)
    : result (Path.t string) :=
  res ← _treePathAndIndex tree (path_segments path)
          (Path.mk path [] (VNum (-1)));
  OK (Path.mk (Path.fullPath res) (join "/" (Path.treePath res))
        (Path.dataIndex res)).

(** [Object.values] of a finite map: the values in key order (the source
    yields them in insertion order, which a finite map does not record). *)
Definition object_values (m : gmap string value) : list value :=
  (map_to_list m).*2.

(** [getDataItems]; for a list it hands back [node.data] itself. *)
Definition getDataItems (node : Node) : result value :=
  let nodeType := getNodeType node in
  if String.eqb nodeType TYPE_LIST_OBJECT then OK (data node)
  else if String.eqb nodeType TYPE_MAP_OBJECT
          || String.eqb nodeType TYPE_MAP_STRING then
    match data node with
    | VObj m => OK (VArr (object_values m))
    | VArr l => OK (VArr l)
    | VUndef | VNull => Throw JsTypeError
    | VStr s => OK (VArr ((fun c => VStr (String c "")) <$> list_ascii_of_string s))
    | VBool _ | VNum _ | VNaN => OK (VArr [])
    end
  else Throw CannotListItems.

(** The name probed at [idx]: [newName], [newName (2)], [newName (3)], ... *)
Definition fullName (newName : string) (idx : nat) : string :=
  if (idx =? 1)%nat then newName
  else newName +:+ " (" +:+ pretty idx +:+ ")".

Definition child_names (node : Node) : list string :=
  match children (model node) with
  | Some cs => name <$> cs
  | None => []
  end.

(** [_findNewNodeName], with the number of probes bounded by [fuel]; a name
    that matches a sibling sends the search to [idx + 1]. *)
Fixpoint findNewNodeName_probe (fuel : nat) (names : list string)
    (newName : string) (idx : nat) : string :=
  let full := fullName newName idx in
  match fuel with
  | O => full
  | S fuel' =>
      if existsb (String.eqb full) names
      then findNewNodeName_probe fuel' names newName (S idx)
      else full
  end.

(** After as many probes as there are siblings the next candidate cannot be
    taken; [findNewNodeName_unfold] shows that this bounded search obeys the
    recursive equation of the source. *)
Definition _findNewNodeName (node : Node) (newName : string) (idx : nat)
    : string :=
  findNewNodeName_probe (length (child_names node)) (child_names node)
    newName idx.

(** The model and the data [addNode] builds for a type; an unknown type gets
    neither children nor fields, and [undefined] data. *)
Definition new_model (n nodeType : string) : Model * value :=
  if String.eqb nodeType TYPE_TREE then
    (mkModel n (Some []) (Some nodeType) false None, VObj ∅)
  else if String.eqb nodeType TYPE_MAP_OBJECT then
    (mkModel n None (Some nodeType) false
       (Some [Declared (mkField "Key" None true)]), VObj ∅)
  else if String.eqb nodeType TYPE_MAP_STRING then
    (mkModel n None (Some nodeType) false
       (Some [Declared (mkField "Key" None true); Bare "Value"]), VObj ∅)
  else if String.eqb nodeType TYPE_LIST_OBJECT then
    (mkModel n None (Some nodeType) false (Some [Bare "Name"]), VArr [])
  else (mkModel n None (Some nodeType) false None, VUndef).

(** [addNode]: the first component is the parent after the call; the
    projection returned holds that same parent. *)
Definition addNode (node : Node) (requestedName nodeType : string)
    : outcome Node :=
  let '(newModel, newData) :=
    new_model (_findNewNodeName node requestedName 1) nodeType in
  let cs := default [] (children (model node)) in
  let node1 := set_model node (set_children (model node) (Some (cs ++ [newModel])%list)) in
  match js_set (data node1) (slugify (name newModel)) newData with
  | OK d =>
      let node2 := set_data node1 d in
      let path := str_of (path node2) +:+ "/" +:+ slugify (name newModel) in
      (node2, OK (mkNode newModel newData (Some node2) (Some path) (Some path)
                    (VNum (-1)) (fieldIndex node2)))
  | Throw e => (node1, Throw e)
  end.

(** The position of the first child called [n]. *)
Fixpoint index_of_name (cs : list Model) (n : string) : option nat :=
  match cs with
  | [] => None
  | c :: rest =>
      if String.eqb (name c) n then Some O
      else S <$> index_of_name rest n
  end.

(** [deleteNode]: the projection comes back with its parent as the call
    left it. *)
Definition deleteNode (node : Node) : outcome unit :=
  match parent node with
  | None => (node, Throw JsTypeError)
  | Some parentNode =>
      match children (model parentNode) with
      | None => (node, Throw JsTypeError)
      | Some modelChildren =>
          match index_of_name modelChildren (name (model node)) with
          | Some i =>
              let p1 := set_model parentNode
                          (set_children (model parentNode)
                             (Some (delete i modelChildren))) in
              match js_delete (data p1) (slugify (name (model node))) with
              | OK d => (set_parent node (Some (set_data p1 d)), OK ())
              | Throw e => (set_parent node (Some p1), Throw e)
              end
          | None => (node, Throw CouldNotDeleteNode)
          end
      end
  end.

(** [node.dataIndex !== -1] is the negation of this test. *)
Definition is_minus_one (v : value) : bool :=
  match v with
  | VNum z => z =? -1
  | _ => false
  end.

(** [_getStructNode]; [None] is the [undefined] parent of a root. *)
Definition _getStructNode (node : Node) : option Node :=
  if negb (is_minus_one (dataIndex node)) then parent node else Some node.

(** The projection once the data of its struct node has become [d]. *)
Definition set_struct_data (node : Node) (d : value) : Node :=
  if negb (is_minus_one (dataIndex node)) then
    match parent node with
    | Some p => set_parent node (Some (set_data p d))
    | None => node
    end
  else set_data node d.

(** [renameNode].  In the source [node.model] is the very object listed in
    the parent's [children]; the copy of the parent's schema held by the
    projection is left as it was. *)
Definition renameNode (node : Node) (n : string) : outcome unit :=
  let previousName := name (model node) in
  let node1 := set_model node (set_name (model node) n) in
  match parent node1 with
  | Some p =>
      match (v ← js_get (data p) (slugify previousName);
             js_set (data p) (slugify n) v) with
      | OK d1 =>
          let node2 := set_parent node1 (Some (set_data p d1)) in
          let node3 := set_paths node2 (Some (path_prefix (path p) +:+ slugify n)) in
          match js_delete d1 (slugify previousName) with
          | OK d2 => (set_parent node3 (Some (set_data p d2)), OK ())
          | Throw e => (node3, Throw e)
          end
      | Throw e => (node1, Throw e)
      end
  | None => (node1, OK ())
  end.

Definition _checkDeleteFieldAt (node : Node) (fieldIndex : Z) : result Field :=
  field ← getFieldAt node fieldIndex;
  if fkey field then Throw KeyFieldProtected
  else if String.eqb (getNodeType node) TYPE_MAP_STRING
       then Throw ValueFieldProtected
       else OK field.

Definition canDeleteFieldAt (node : Node) (fieldIndex : Z) : bool :=
  match _checkDeleteFieldAt node fieldIndex with
  | OK _ => true
  | Throw _ => false
  end.

(** [items.forEach(item => ...)] where the callback rewrites [item] in
    place: left to right, stopping at the first exception. *)
Fixpoint each_item (f : value -> result value) (items : list value)
    : list value * result unit :=
  match items with
  | [] => ([], OK ())
  | item :: rest =>
      match f item with
      | OK item' => let '(rest', r) := each_item f rest in (item' :: rest', r)
      | Throw e => (item :: rest, Throw e)
      end
  end.

(** The items handed out by [getDataItems] are the objects held by
    [node.data]; this puts the rewritten items back where they live. *)
Definition store_items (node : Node) (items : list value) : value :=
  match data node with
  | VArr _ => VArr items
  | VObj m => VObj (list_to_map (zip (map_to_list m).*1 items))
  | d => d
  end.

(** [getDataItems(structNode).forEach(f)] for the struct node of [node]. *)
Definition forEachItem (node : Node) (f : value -> result value)
    : outcome unit :=
  match _getStructNode node with
  | None => (node, Throw JsTypeError)
  | Some structNode =>
      match getDataItems structNode with
      | OK (VArr items) =>
          let '(items', r) := each_item f items in
          (set_struct_data node (store_items structNode items'), r)
      | OK _ => (node, Throw JsTypeError)
      | Throw e => (node, Throw e)
      end
  end.

Definition deleteFieldAt (node : Node) (fieldIndex : Z) : outcome unit :=
  match _checkDeleteFieldAt node fieldIndex with
  | OK field =>
      match forEachItem node
              (fun item => js_delete item (slugify (fname field))) with
      | (node1, OK _) =>
          (set_model node1
             (set_fields (model node1)
                (delete (Z.to_nat fieldIndex) <$> fields (model node1))),
           OK ())
      | (node1, Throw e) => (node1, Throw e)
      end
  | Throw e => (node, Throw e)
  end.

Definition _convert (v : value) (prevFieldType newFieldType : option string)
    : result value :=
  match newFieldType with
  | Some t =>
      if String.eqb t FIELD_TYPE_STRING || String.eqb t FIELD_TYPE_MARKDOWN
      then OK (VStr (if truthy v then "" +:+ js_to_string v else ""))
      else if String.eqb t FIELD_TYPE_BOOLEAN then OK (VBool (truthy v))
      else if String.eqb t FIELD_TYPE_ARRAY then OK (VArr [v])
      else Throw UnknownType
  | None => Throw UnknownType
  end.

(** The two callbacks of [updateFieldAt]. *)
Definition move_key (old new : string) (item : value) : result value :=
  v ← js_get item old;
  item1 ← js_set item new v;
  js_delete item1 old.

Definition convert_key (k : string) (prevType newType : option string)
    (item : value) : result value :=
  v ← js_get item k;
  c ← _convert v prevType newType;
  js_set item k c.

Definition opt_string_eqb (a b : option string) : bool :=
  match a, b with
  | Some x, Some y => String.eqb x y
  | None, None => true
  | _, _ => false
  end.

(** [updateFieldAt]; [fieldIndex] is [None] when undefined.  An index with
    no declaration behind it leaves [prevField] undefined, and reading its
    name throws.  The declarations are written to the model of the
    projection; the model of a container that shares it is not followed. *)
Definition updateFieldAt (node : Node) (fieldIndex : option Z)
    (field : FieldDecl) : outcome unit :=
  match fields (model node) with
  | None => (node, Throw JsTypeError)
  | Some fs =>
      let put (n : Node) (i : nat) : Node :=
        set_model n
          (set_fields (model n)
             (Some (if (i <? length fs)%nat then <[i := field]> fs
                    else (fs ++ [field])%list))) in
      match fieldIndex with
      | None => (put node (length fs), OK ())
      | Some i =>
          if i =? -1 then (put node (length fs), OK ())
          else
            let newField := getField field in
            match (if i <? 0 then None else fs !! Z.to_nat i),
                  _getStructNode node with
            | Some prev, Some structNode =>
                let prevField := getField prev in
                let nodeType := getNodeType structNode in
                let '(node1, r1) :=
                  if negb (String.eqb (fname newField) (fname prevField))
                     && (String.eqb nodeType TYPE_LIST_OBJECT
                         || String.eqb nodeType TYPE_MAP_OBJECT)
                     && negb (fkey newField)
                  then forEachItem node
                         (move_key (slugify (fname prevField))
                            (slugify (fname newField)))
                  else (node, OK ()) in
                match r1 with
                | OK _ =>
                    let '(node2, r2) :=
                      if negb (opt_string_eqb (ftype newField) (ftype prevField))
                      then forEachItem node1
                             (convert_key (slugify (fname newField))
                                (ftype prevField) (ftype newField))
                      else (node1, OK ()) in
                    match r2 with
                    | OK _ => (put node2 (Z.to_nat i), OK ())
                    | Throw e => (node2, Throw e)
                    end
                | Throw e => (node1, Throw e)
                end
            | _, _ => (node, Throw JsTypeError)
            end
      end
  end.

(** [_findNode].  In the tree branch the fallback for missing data calls
    [getNodeType(childModel)] on a schema model, which has no [model]
    property: reading [childModel.model.type] throws. *)
Fixpoint _findNode (node : Node) (segments : list string) : result Node :=
  let nodeType := getNodeType node in
  match segments with
  | [] => OK node
  | next :: rest =>
      if String.eqb nodeType TYPE_TREE then
        match children (model node) with
        | None => Throw JsTypeError
        | Some cs =>
            match child_with_slug cs next with
            | Some childModel =>
                let treePath := path_prefix (path node) +:+ next in
                d ← js_get (data node) next;
                d' ← (if truthy d then OK d else Throw JsTypeError);
                _findNode (mkNode childModel d' (Some node) (Some treePath)
                             (Some treePath) (VNum (-1)) VUndef) rest
            | None => Throw NoChildNamed
            end
        end
      else if String.eqb nodeType TYPE_LIST_OBJECT then
        let dataIndex := parseInt next in
        d ← js_get (data node) (key_of dataIndex);
        OK (mkNode (model node) (js_or d (VObj ∅)) (Some node)
              (Some (path_prefix (path node) +:+ next))
              (path node) dataIndex VUndef)
      else
        d ← js_get (data node) next;
        OK (mkNode (model node)
              (js_or d (if String.eqb nodeType TYPE_MAP_OBJECT
                        then VObj ∅ else VStr ""))
              (Some node)
              (Some (path_prefix (path node) +:+ next))
              (path node) (VStr next) VUndef)
  end.

Definition findNode (node : Node) (path : PathArg) : result Node :=
  match path with
  | PathStr s => if String.eqb s "" then OK node else _findNode node (split_slash s)
  | PathSeq l => _findNode node l
  end.

(** ** The rest of the engine: field lookup by name, items, the selector *)

(** The two [throw] sites of the operations below, next to the exceptions
    of [Error] that they let through. *)
Inductive EngineError :=
| CannotFindFieldIndex      (* getFieldIndex *)
| CannotAddItem             (* addItem *)
| Raised (e : Error).

Inductive answer (A : Type) :=
| Returns (a : A)
| Throws (e : EngineError).
Arguments Returns {A} a.
Arguments Throws {A} e.

Definition engine_error_kind (e : EngineError) : ErrorKind :=
  match e with
  | CannotFindFieldIndex => NotFoundError
  | CannotAddItem => UnsupportedOperationError
  | Raised e => error_kind e
  end.

(** The position of the first field called [n]. *)
Fixpoint index_of_field (fs : list Field) (n : string) : option nat :=
  match fs with
  | [] => None
  | f :: rest =>
      if String.eqb n (fname f) then Some O
      else S <$> index_of_field rest n
  end.

Definition getFieldIndex (node : Node) (field : FieldDecl) : answer nat :=
  let field := getField field in
  match index_of_field (getFields node) (fname field) with
  | Some i => Returns i
  | None => Throws CannotFindFieldIndex
  end.

(** [defaultFieldName]; with no [fields], or none declared, the source
    reads a property of [undefined]. *)
Definition defaultFieldName (m : Model) : result string :=
  match fields m with
  | Some (Declared f :: _) => OK (slugify (fname f))
  | Some (Bare s :: _) => OK (slugify s)
  | Some [] | None => Throw JsTypeError
  end.

Definition fieldName (field : FieldDecl) : string :=
  match field with
  | Bare s => slugify s
  | Declared f => slugify (fname f)
  end.

Definition fieldDisplayName (field : FieldDecl) : string :=
  match field with
  | Bare s => s
  | Declared f => fname f
  end.

(** [_findNewMapKey], with the number of probes bounded by [fuel]; a key is
    taken when [typeof node.data[fullName] !== 'undefined']. *)
Fixpoint findNewMapKey_probe (fuel : nat) (d : value) (newName : string)
    (idx : nat) : result string :=
  let full := fullName newName idx in
  match fuel with
  | O => OK full
  | S fuel' =>
      v ← js_get d full;
      match v with
      | VUndef => OK full
      | _ => findNewMapKey_probe fuel' d newName (S idx)
      end
  end.

(** An object can take as many probes as it has keys, an array or a string
    one (only the bare name can be a property of those); the next candidate
    is free ([findNewMapKey_unfold] for objects). *)
Definition _findNewMapKey (node : Node) (newName : string) (idx : nat)
    : result string :=
  findNewMapKey_probe
    (S (match data node with VObj m => size m | _ => 1%nat end))
    (data node) newName idx.

(** What the loop [for (i = 0; i < items.length; i++) items[i]] visits.
    An object that has a [length] property of its own would be read as an
    array-like by the source; the model stops there with the [TypeError]
    that the one caller, [addItem], ends in at [node.data.push]. *)
Definition array_like (items : value) : result (list value) :=
  match items with
  | VArr l => OK l
  | VStr s => OK ((fun c => VStr (String c "")) <$> list_ascii_of_string s)
  | VUndef | VNull => Throw JsTypeError
  | VBool _ | VNum _ | VNaN => OK []
  | VObj m => match m !! "length" with
              | None => OK []
              | Some _ => Throw JsTypeError
              end
  end.

(** One pass of the loop of [_findNewListItemName]: is [full] the value
    some item has under [fieldName] ([===], so only a string can match)? *)
Fixpoint name_taken (fieldName full : string) (items : list value)
    : result bool :=
  match items with
  | [] => OK false
  | item :: rest =>
      v ← js_get item fieldName;
      match v with
      | VStr s => if String.eqb s full then OK true
                  else name_taken fieldName full rest
      | _ => name_taken fieldName full rest
      end
  end.

Fixpoint findNewListItemName_probe (fuel : nat) (fieldName : string)
    (items : list value) (newName : string) (idx : nat) : result string :=
  let full := fullName newName idx in
  match fuel with
  | O => OK full
  | S fuel' =>
      taken ← name_taken fieldName full items;
      if taken : bool
      then findNewListItemName_probe fuel' fieldName items newName (S idx)
      else OK full
  end.

(** Every pass that finds the name taken uses up one more item, so one pass
    more than there are items reaches a free name
    ([findNewListItemName_unfold]). *)
Definition _findNewListItemName (node : Node) (newName : string) (idx : nat)
    : result string :=
  fieldName ← defaultFieldName (model node);
  items ← getDataItems node;
  l ← array_like items;
  findNewListItemName_probe (S (length l)) fieldName l newName idx.

(** What [addItem] returns: [{ dataIndex, item }]. *)
Module Item.
Record t := mk {
  dataIndex : value;
  item : value
}.
End Item.

(** The two map branches of [addItem], which differ in the item put in. *)
Definition addItem_map (node : Node) (requestedName : string) (item : value)
    : Node * answer Item.t :=
  match _findNewMapKey node requestedName 1 with
  | OK dataIndex =>
      match js_set (data node) dataIndex item with
      | OK d => (set_data node d, Returns (Item.mk (VStr dataIndex) item))
      | Throw e => (node, Throws (Raised e))
      end
  | Throw e => (node, Throws (Raised e))
  end.

(** [addItem]: the container after the call, and the new item with its
    index or key. *)
Definition addItem (node : Node) (requestedName : string)
    : Node * answer Item.t :=
  let nodeType := getNodeType node in
  if String.eqb nodeType TYPE_MAP_OBJECT then
    addItem_map node requestedName (VObj ∅)
  else if String.eqb nodeType TYPE_MAP_STRING then
    addItem_map node requestedName (VStr "New value")
  else if String.eqb nodeType TYPE_LIST_OBJECT then
    match (k ← defaultFieldName (model node);
           n ← _findNewListItemName node requestedName 1;
           OK (k, n)) with
    | OK (k, n) =>
        let item := VObj {[k := VStr n]} in
        match data node with
        | VArr l =>
            (set_data node (VArr (l ++ [item])%list),
             Returns (Item.mk (VNum (Z.of_nat (length l))) item))
        | _ => (node, Throws (Raised JsTypeError))
        end
    | Throw e => (node, Throws (Raised e))
    end
  else (node, Throws CannotAddItem).

(** [routerPath.substring(n)]. *)
Fixpoint string_drop (n : nat) (s : string) : string :=
  match n, s with
  | S n', String _ rest => string_drop n' rest
  | _, _ => s
  end.

(** The selection and the node that [mapStateToProps] (content.tsx)
    computes from the tree and the route; the other props are handed on
    as they are. *)
Definition mapStateToProps (tree : Node) (routerPath : string)
    : result (Path.t string * option Node) :=
  selection ←
    (if String.prefix "/node/" routerPath
     then treePathAndIndex tree (PathStr (string_drop 6 routerPath))
     else OK (Path.mk (PathStr "") "" (VNum (-1))));
  node ←
    match Path.fullPath selection with
    | PathStr "" | PathSeq [] => OK None
    | fullPath => Some <$> findNode tree fullPath
    end;
  OK (selection, node).

(** * The properties verified, and the states the examples run on *)

(** The data of a container once [g] has been applied to every item. *)
Definition map_items (g : value -> value) (d : value) : value :=
  match d with
  | VArr l => VArr (g <$> l)
  | VObj m => VObj (g <$> m)
  | d => d
  end.

(** [P] holds of every item held by the container data [d]. *)
Definition all_items (P : value -> Prop) (d : value) : Prop :=
  match d with
  | VArr l => Forall P l
  | VObj m => map_Forall (fun _ => P) m
  | _ => True
  end.

(** Data of the shape its container type asks for: a sequence for a list,
    an object for a map. *)
Definition container_data (node : Node) : Prop :=
  (getNodeType node = TYPE_LIST_OBJECT /\ exists l, data node = VArr l)
  \/ ((getNodeType node = TYPE_MAP_OBJECT \/ getNodeType node = TYPE_MAP_STRING)
      /\ exists m, data node = VObj m).

Definition is_object (v : value) : Prop := exists m, v = VObj m.

(** [R] relates every item of the container data [d] to the item at the
    same position (list) or under the same key (map) of [d']. *)
Definition items_rel (R : value -> value -> Prop) (d d' : value) : Prop :=
  match d, d' with
  | VArr l, VArr l' => Forall2 R l l'
  | VObj m, VObj m' => forall k, option_Forall2 R (m !! k) (m' !! k)
  | _, _ => False
  end.


Definition c7_field_before : FieldDecl :=
  Declared (mkField "Done" (Some FIELD_TYPE_STRING) false).
Definition c7_field_after : FieldDecl :=
  Declared (mkField "Done" (Some FIELD_TYPE_BOOLEAN) false).
Definition c7_container : Node :=
  mkNode
    (mkModel "Tasks" None (Some TYPE_LIST_OBJECT) false
       (Some [Bare "Name"; c7_field_before]))
    (VArr [VObj {["name" := VStr "a"; "done" := VStr "true"]};
           VObj {["name" := VStr "b"; "done" := VStr ""]}])
    None (Some "tasks") (Some "tasks") (VNum (-1)) VUndef.

Definition c6_map_string : Node :=
  mkNode
    (mkModel "Labels" None (Some TYPE_MAP_STRING) false
       (Some [Declared (mkField "Key" None true); Bare "Value"]))
    (VObj {["ok" := VStr "OK"]})
    None (Some "labels") (Some "labels") (VNum (-1)) VUndef.

(** The claim C9 as stated: whenever [deleteFieldAt] throws,
    [canDeleteFieldAt] returns [false]. *)
Definition canDelete_covers_delete (node : Node) (fieldIndex : Z) : Prop :=
  forall e, snd (deleteFieldAt node fieldIndex) = Throw e ->
            canDeleteFieldAt node fieldIndex = false.

(** A tree node that carries a field of its own. *)
Definition c9_tree : Node :=
  mkNode
    (mkModel "Site" (Some []) (Some TYPE_TREE) false (Some [Bare "Title"]))
    (VObj {["title" := VStr "Home"]})
    None (Some "") (Some "") (VNum (-1)) VUndef.

(** [walks_to tree segs n]: [_treePathAndIndex] started at [tree] consumes
    the segments [segs] by stepping into children and arrives at [n]. *)
Inductive walks_to : Node -> list string -> Node -> Prop :=
| walks_here (n : Node) : walks_to n [] n
| walks_down (n child n' : Node) (p : string) (ps : list string) :
    has_children n = true ->
    _findChild n p = OK child ->
    walks_to child ps n' ->
    walks_to n (p :: ps) n'.

(** The selector a leaf container takes from the segment [p]. *)
Definition selector (n : Node) (p : string) : value :=
  if String.eqb (getNodeType n) TYPE_LIST_OBJECT then parseInt p else VStr p.

(** The node type [getNodeType] reads off a projection of the model [m]. *)
Definition model_type (m : Model) : string :=
  getNodeType (mkNode m VUndef None None None VUndef VUndef).

Definition c5_bar : Model :=
  mkModel "Bar" None (Some TYPE_LIST_OBJECT) false (Some [Bare "Name"]).
Definition c5_foo : Model := mkModel "Foo" (Some [c5_bar]) None false None.
Definition c5_tree : Node :=
  mkNode (mkModel "root" (Some [c5_foo]) None false None)
    (VObj {["foo" := VObj {["bar" := VArr [VObj {["name" := VStr "x"]}]]}]})
    None (Some "") (Some "") (VNum (-1)) VUndef.

(** The schema C5 speaks of: the root has a child slugged [foo], [foo] has
    a child slugged [bar], and [bar] is a leaf container. *)
Definition tree_foo_bar (tree : Node) (foo bar : Model) : Prop :=
  exists cs0 cs1,
    children (model tree) = Some cs0
    /\ child_with_slug cs0 "foo" = Some foo
    /\ children foo = Some cs1
    /\ child_with_slug cs1 "bar" = Some bar
    /\ (children bar = None \/ children bar = Some []).

(** The same schema as [c5_tree], with no data yet. *)
Definition c5_tree_no_data : Node :=
  mkNode (mkModel "root" (Some [c5_foo]) None false None) (VObj ∅)
    None (Some "") (Some "") (VNum (-1)) VUndef.

(** The segments [findNode] hands to [_findNode]. *)
Definition findNode_segments (path : PathArg) : list string :=
  match path with
  | PathStr s => split_slash s
  | PathSeq l => l
  end.

Definition c8_container : Node :=
  mkNode
    (mkModel "People" None (Some TYPE_MAP_OBJECT) false
       (Some [Declared (mkField "Key" None true)]))
    (VObj {["k1" := VObj {["age" := VNum 3]}]})
    None (Some "people") (Some "people") (VNum (-1)) VUndef.

(** [k] is the first index from [idx] on whose name is no sibling's. *)
Definition first_free (names : list string) (newName : string)
    (idx k : nat) : Prop :=
  (idx <= k)%nat
  /\ (fullName newName k ∉ names)
  /\ forall j, (idx <= j < k)%nat -> fullName newName j ∈ names.

Definition c4_parent : Node :=
  mkNode (mkModel "Site" (Some []) (Some TYPE_TREE) false None) (VObj ∅)
    None (Some "") (Some "") (VNum (-1)) VUndef.

(** The claim C1 as stated: [addNode] followed by [deleteNode] on the
    projection it returned gives the parent back with the children
    sequence and the data it had before. *)
Definition add_delete_restores (node : Node)
    (requestedName nodeType : string) : Prop :=
  exists node1 child child' node2,
    addNode node requestedName nodeType = (node1, OK child)
    /\ deleteNode child = (child', OK ())
    /\ parent child' = Some node2
    /\ children (model node2) = children (model node)
    /\ data node2 = data node.

(** A tree with one child, [a b], whose data sits under the slug [a_b]. *)
Definition c1_parent : Node :=
  mkNode
    (mkModel "Site"
       (Some [mkModel "a b" (Some []) (Some TYPE_TREE) false None])
       (Some TYPE_TREE) false None)
    (VObj {["a_b" := VObj {["title" := VStr "kept"]}]})
    None (Some "") (Some "") (VNum (-1)) VUndef.

(** What C3 asks of a rename, for a node with a parent whose data is an
    object: after [renameNode] the node has the new display name, the
    parent's data holds under the new slug what it held under the old one,
    the old slug is no key of it any more, and [path] and [treePath] are
    the parent's path followed by the new slug. *)
Definition rename_moves_data (node : Node) (newName : string) : Prop :=
  exists node' p p' d d',
    parent node = Some p /\ data p = VObj d
    /\ renameNode node newName = (node', OK ())
    /\ name (model node') = newName
    /\ parent node' = Some p' /\ data p' = VObj d'
    /\ d' !! slugify newName
       = Some (default VUndef (d !! slugify (name (model node))))
    /\ d' !! slugify (name (model node)) = None
    /\ path node' = Some (path_prefix (path p) +:+ slugify newName)
    /\ treePath node' = path node'.

Definition c3_parent : Node :=
  mkNode
    (mkModel "Site"
       (Some [mkModel "Foo" (Some []) (Some TYPE_TREE) false None])
       (Some TYPE_TREE) false None)
    (VObj {["foo" := VObj {["title" := VStr "kept"]}]})
    None (Some "") (Some "") (VNum (-1)) VUndef.

Definition c3_node : Node :=
  mkNode (mkModel "Foo" (Some []) (Some TYPE_TREE) false None)
    (VObj {["title" := VStr "kept"]})
    (Some c3_parent) (Some "foo") (Some "foo") (VNum (-1)) VUndef.



Definition c2_container : Node :=
  mkNode
    (mkModel "Posts" None (Some TYPE_LIST_OBJECT) false (Some [Bare "Title"]))
    (VArr [VObj {["title" := VStr "Hello"]}])
    None (Some "posts") (Some "posts") (VNum (-1)) VUndef.

(** ** Notions and states of the further properties *)

(** A value that [typeof] does not report as ['undefined']. *)
Definition is_defined (v : value) : bool :=
  match v with
  | VUndef => false
  | _ => true
  end.

(** The keys of a map's data that [_findNewMapKey] finds taken. *)
Definition taken_keys (m : gmap string value) : list string :=
  omap (fun kv : string * value => if is_defined kv.2 then Some kv.1 else None)
    (map_to_list m).

(** The names that [_findNewListItemName] compares with: the strings the
    items hold under [fieldName]. *)
Definition item_names (fieldName : string) (items : list value) : list string :=
  omap (fun item => match js_get item fieldName with
                    | OK (VStr s) => Some s
                    | _ => None
                    end) items.

(** An item that has properties to read: neither [undefined] nor [null]. *)
Definition readable (v : value) : Prop := v <> VUndef /\ v <> VNull.

(** A schema in which every model that has children is a tree, all the
    way down: the shape in which [_treePathAndIndex], which steps into
    children wherever there are some, and [_findNode], which steps into
    them at tree nodes only, walk the same way. *)
Fixpoint tree_schema (m : Model) : bool :=
  match m with
  | mkModel _ (Some (c :: cs)) _ _ _ =>
      String.eqb (model_type m) TYPE_TREE && forallb tree_schema (c :: cs)
  | _ => true
  end.

Definition nonempty (s : string) : Prop := s <> "".

(** The selection [mapStateToProps] starts from. *)
Definition no_selection : Path.t string :=
  Path.mk (PathStr "") "" (VNum (-1)).

(** What [slugify] does to one character. *)
Definition slug_char (c : ascii) : ascii :=
  lower (if Ascii.eqb (if is_ws c then "_"%char else c) "/" then "-"%char
         else if is_ws c then "_"%char else c).

(** A segment: a string with no slash in it. *)
Definition no_slash (seg : string) : Prop :=
  forall c, c ∈ list_ascii_of_string seg -> Ascii.eqb c "/" = false.

(** A list with two declared fields. *)
Definition posts_node : Node :=
  mkNode
    (mkModel "Posts" None (Some TYPE_LIST_OBJECT) false
       (Some [Bare "Name"; Declared (mkField "Body" (Some "markdown") false)]))
    (VArr []) None (Some "posts") (Some "posts") (VNum (-1)) VUndef.

(** The projection [getChildren] builds for the child [c] of [node]. *)
Definition child_projection (node : Node) (m : gmap string value)
    (c : Model) : Node :=
  let childPath := path_prefix (path node) +:+ slugify (name c) in
  mkNode c (default VUndef (m !! slugify (name c))) (Some node)
    (Some childPath) (Some childPath) VUndef (VNum (-1)).

(** A tree with a list and a map of strings below it; only the list has
    data. *)
Definition site_root : Node :=
  mkNode
    (mkModel "Site"
       (Some [mkModel "Posts" None (Some TYPE_LIST_OBJECT) false
                (Some [Bare "Name"; Bare "Body"]);
              mkModel "Labels" None (Some TYPE_MAP_STRING) false
                (Some [Declared (mkField "Key" None true); Bare "Value"])])
       (Some TYPE_TREE) false None)
    (VObj {["posts" := VArr [VObj {["name" := VStr "a"]}]]})
    None (Some "") (Some "") (VNum (-1)) VUndef.

(** What deleting the field stored under [k] does to one item. *)
Definition field_removed (k : string) (item item' : value) : Prop :=
  exists m, item = VObj m /\ item' = VObj (delete k m).

(** A tree with one map of strings below it. *)
Definition labels_tree : Node :=
  mkNode
    (mkModel "Site"
       (Some [mkModel "Labels" None (Some TYPE_MAP_STRING) false
                (Some [Declared (mkField "Key" None true); Bare "Value"])])
       (Some TYPE_TREE) false None)
    (VObj {["labels" := VObj {["ok" := VStr "OK"]}]})
    None (Some "") (Some "") (VNum (-1)) VUndef.

(** ** Inherited members, and the states of the counterexamples *)

(** The names every object inherits from [Object.prototype].  Under such a
    name the source's [obj[k]] finds the inherited member when the object
    holds no key [k] of its own; that member is no JSON value and [js_get]
    does not produce it.  A statement about a read that may miss therefore
    carries the hypothesis that the key is held by the object or is none of
    these names. *)
Definition object_prototype_names : list string :=
  ["constructor"; "__defineGetter__"; "__defineSetter__"; "hasOwnProperty";
   "__lookupGetter__"; "__lookupSetter__"; "isPrototypeOf";
   "propertyIsEnumerable"; "toString"; "valueOf"; "__proto__";
   "toLocaleString"].

Definition inherited (k : string) : bool :=
  existsb (String.eqb k) object_prototype_names.

(** A key that the object [m] holds, or that it does not inherit either. *)
Definition plain_key (m : gmap string value) (k : string) : Prop :=
  is_Some (m !! k) \/ inherited k = false.

(** A name of ASCII characters only, on which the source's [\s] and
    [toLowerCase] are [is_ws] and [lower]. *)
Definition ascii_only (s : string) : Prop :=
  Forall (fun c => (N_of_ascii c < 128)%N) (list_ascii_of_string s).

(** The first part of C4 as stated: three calls of
    [addNode(parent, "A", TREE)] create A, A (2) and A (3). *)
Definition three_calls_name_A (parent : Node) : Prop :=
  exists p1 c1 p2 c2 p3 c3,
    addNode parent "A" TYPE_TREE = (p1, OK c1)
    /\ addNode p1 "A" TYPE_TREE = (p2, OK c2)
    /\ addNode p2 "A" TYPE_TREE = (p3, OK c3)
    /\ name (model c1) = "A" /\ name (model c2) = "A (2)"
    /\ name (model c3) = "A (3)".

(** A parent that has a child called A already, and one without data. *)
Definition c4_has_A : Node :=
  mkNode
    (mkModel "Site" (Some [mkModel "A" (Some []) (Some TYPE_TREE) false None])
       (Some TYPE_TREE) false None)
    (VObj {["a" := VObj ∅]})
    None (Some "") (Some "") (VNum (-1)) VUndef.

Definition c4_no_data : Node :=
  mkNode (mkModel "Site" (Some []) (Some TYPE_TREE) false None) VUndef
    None (Some "") (Some "") (VNum (-1)) VUndef.

(** The schema as C5 words it: the root has some child slugged [foo] that
    has some child slugged [bar]. *)
Definition levels_contain (tree : Node) (foo bar : Model) : Prop :=
  exists cs0 cs1,
    children (model tree) = Some cs0
    /\ foo ∈ cs0 /\ slugify (name foo) = "foo"
    /\ children foo = Some cs1
    /\ bar ∈ cs1 /\ slugify (name bar) = "bar"
    /\ (children bar = None \/ children bar = Some []).

(** Two siblings with the slug [foo], as [addNode] accepts them ([Foo],
    then [FOO]); the list [bar] is below the second. *)
Definition c5_foo_upper : Model :=
  mkModel "FOO" (Some [c5_bar]) (Some TYPE_TREE) false None.
Definition c5_two_foo : Node :=
  mkNode
    (mkModel "root"
       (Some [mkModel "Foo" (Some []) (Some TYPE_TREE) false None;
              c5_foo_upper])
       (Some TYPE_TREE) false None)
    (VObj {["foo" := VObj {["bar" := VArr [VObj {["name" := VStr "x"]}]]}]})
    None (Some "") (Some "") (VNum (-1)) VUndef.

(** What an absent key of a map resolves to. *)
Definition map_default (node : Node) : value :=
  if String.eqb (getNodeType node) TYPE_MAP_OBJECT then VObj ∅ else VStr "".

(** C8 as stated, at the container [node], for the path [path] and its
    segment [k1]: the projection has [dataIndex] [k1] and the value stored
    under [k1] as data, or the default when the key is absent. *)
Definition resolves_stored (node : Node) (path : PathArg) (k1 : string)
    : Prop :=
  exists proj,
    findNode node path = OK proj
    /\ dataIndex proj = VStr k1
    /\ data proj = match data node with
                   | VObj m => default (map_default node) (m !! k1)
                   | _ => map_default node
                   end.

(** A map<object> that holds [null] under [k1], and one without data. *)
Definition c8_null : Node :=
  mkNode
    (mkModel "People" None (Some TYPE_MAP_OBJECT) false
       (Some [Declared (mkField "Key" None true)]))
    (VObj {["k1" := VNull]})
    None (Some "people") (Some "people") (VNum (-1)) VUndef.

Definition c8_no_data : Node :=
  mkNode
    (mkModel "People" None (Some TYPE_MAP_OBJECT) false
       (Some [Declared (mkField "Key" None true)]))
    VUndef
    None (Some "people") (Some "people") (VNum (-1)) VUndef.

(** * Verification *)

(** ** The primitives on sample inputs *)

Example parseInt_samples :
  parseInt "5" = VNum 5 /\ parseInt " -12px" = VNum (-12)
  /\ parseInt "0x1f" = VNum 31 /\ parseInt "k1" = VNaN /\ parseInt "" = VNaN.
Proof. repeat split. Qed.

Example split_join_samples :
  split_slash "foo/bar/5" = ["foo"; "bar"; "5"]
  /\ split_slash "" = [""] /\ split_slash "/a/" = [""; "a"; ""]
  /\ join "/" ["foo"; "bar"] = "foo/bar" /\ join "/" [] = "".
Proof. repeat split. Qed.

Example slugify_samples :
  slugify "A B" = "a_b" /\ slugify "News/Archive 2" = "news-archive_2"
  /\ slugify "Title" = slugify "title".
Proof. repeat split. Qed.

Example fullName_samples :
  fullName "A" 1 = "A" /\ fullName "A" 2 = "A (2)"
  /\ fullName "A" 12 = "A (12)".
Proof. repeat split. Qed.

Example js_to_string_samples :
  js_to_string (VArr [VNum 1; VNull; VStr "a"; VArr [VNum (-3)]]) = "1,,a,-3"
  /\ js_to_string (VObj ∅) = "[object Object]"
  /\ js_to_string (VBool true) = "true".
Proof. repeat split. Qed.

(** ** The callbacks over the items of a container *)

Section each_item.
Context (f : value -> result value) (g : value -> value).

Lemma each_item_ok (items : list value) :
  Forall (fun item => f item = OK (g item)) items ->
  each_item f items = (g <$> items, OK ()).
Proof.
  induction 1 as [|item rest Hf _ IH]; [done|].
  cbn. by rewrite Hf, IH.
Qed.
End each_item.

Lemma zip_fst_fmap_snd {A B C} (g : B -> C) (l : list (A * B)) :
  zip l.*1 (g <$> l.*2) = prod_map id g <$> l.
Proof. induction l as [|[a b] l IH]; [done|]. cbn. by rewrite IH. Qed.

Lemma store_items_object (node : Node) (m : gmap string value)
    (g : value -> value) :
  data node = VObj m ->
  store_items node (g <$> object_values m) = VObj (g <$> m).
Proof.
  intros Hd. unfold store_items, object_values. rewrite Hd. f_equal.
  rewrite zip_fst_fmap_snd.
  by rewrite list_to_map_fmap, list_to_map_to_list.
Qed.

Lemma forEachItem_ok (node structNode : Node) (f : value -> result value)
    (g : value -> value) :
  _getStructNode node = Some structNode ->
  container_data structNode ->
  all_items (fun item => f item = OK (g item)) (data structNode) ->
  forEachItem node f
  = (set_struct_data node (map_items g (data structNode)), OK ()).
Proof.
  intros Hs Hshape Hall. unfold forEachItem. rewrite Hs.
  destruct Hshape as [[Ht [l Hd]]|[Ht [m Hd]]].
  - unfold getDataItems. rewrite Ht, Hd. cbn.
    rewrite Hd in Hall. cbn in Hall.
    rewrite (each_item_ok f g l Hall).
    unfold store_items. by rewrite Hd.
  - unfold getDataItems.
    assert (String.eqb (getNodeType structNode) TYPE_LIST_OBJECT = false
            /\ (String.eqb (getNodeType structNode) TYPE_MAP_OBJECT
                || String.eqb (getNodeType structNode) TYPE_MAP_STRING) = true)
      as [-> ->] by (destruct Ht as [-> | ->]; done).
    rewrite Hd. rewrite Hd in Hall. cbn in Hall.
    rewrite (each_item_ok f g (object_values m)).
    + by rewrite (store_items_object _ m g Hd).
    + unfold object_values. apply Forall_fmap, Forall_forall.
      intros [k v] Hin%elem_of_map_to_list. exact (Hall k v Hin).
Qed.

Lemma map_items_rel (R : value -> value -> Prop) (g : value -> value)
    (node : Node) :
  container_data node ->
  all_items (fun item => R item (g item)) (data node) ->
  items_rel R (data node) (map_items g (data node)).
Proof.
  intros [[_ [l ->]]|[_ [m ->]]] Hall; cbn in *.
  - apply Forall2_fmap_r, Forall_Forall2_diag, Hall.
  - intros k. rewrite lookup_fmap.
    destruct (m !! k) as [v|] eqn:Hk; constructor. exact (Hall k v Hk).
Qed.

Lemma all_items_impl (P Q : value -> Prop) (d : value) :
  (forall item, P item -> Q item) -> all_items P d -> all_items Q d.
Proof.
  intros HPQ. destruct d; cbn; try done.
  - intros Hl. eapply Forall_impl; eauto.
  - intros Hm k v Hk. exact (HPQ _ (Hm k v Hk)).
Qed.

(** Where the struct node is found after its data and the schema of the
    projection have been rewritten. *)
Lemma struct_node_after (node structNode : Node) (d : value) (mo : Model) :
  _getStructNode node = Some structNode ->
  exists structNode',
    _getStructNode (set_model (set_struct_data node d) mo) = Some structNode'
    /\ data structNode' = d
    /\ getNodeType structNode' =
       getNodeType (if is_minus_one (dataIndex node)
                    then set_model structNode mo else structNode).
Proof.
  unfold _getStructNode, set_struct_data.
  destruct (is_minus_one (dataIndex node)) eqn:Hi; cbn; intros Hs.
  - injection Hs as <-. rewrite Hi. cbn. eauto.
  - rewrite Hs. cbn. rewrite Hi. cbn. eauto.
Qed.

(** ** The type converter (C7) *)

Lemma convert_key_boolean (k : string) (prevType : option string)
    (m : gmap string value) :
  convert_key k prevType (Some FIELD_TYPE_BOOLEAN) (VObj m)
  = OK (VObj (<[k := VBool (truthy (default VUndef (m !! k)))]> m)).
Proof. reflexivity. Qed.

Lemma eqb_neq_false (a b : string) : a <> b -> String.eqb a b = false.
Proof. intros H. by apply String.eqb_neq. Qed.

Lemma model_set_struct_data (node : Node) (d : value) :
  model (set_struct_data node d) = model node.
Proof. unfold set_struct_data. by destruct (negb _), (parent node). Qed.


Example c7_retype_runs :
  updateFieldAt c7_container (Some 1) c7_field_after
  = (mkNode
       (mkModel "Tasks" None (Some TYPE_LIST_OBJECT) false
          (Some [Bare "Name"; c7_field_after]))
       (VArr [VObj {["name" := VStr "a"; "done" := VBool true]};
              VObj {["name" := VStr "b"; "done" := VBool false]}])
       None (Some "tasks") (Some "tasks") (VNum (-1)) VUndef,
     OK ()).
Proof. vm_compute. reflexivity. Qed.


(** ** Protected fields (C6, C9) *)

(** C6: when the field at a valid index is a key field, or the container is
    a map<string>, [deleteFieldAt] throws a protected-field error and leaves
    the projection (schema and data) as it was, and [canDeleteFieldAt]
    returns [false]. *)
Theorem deleteFieldAt_protected (node : Node) (fieldIndex : Z)
    (fs : list FieldDecl) (f : FieldDecl) :
  fields (model node) = Some fs ->
  0 <= fieldIndex ->
  fs !! Z.to_nat fieldIndex = Some f ->
  isKeyField f = true \/ getNodeType node = TYPE_MAP_STRING ->
  (exists e, deleteFieldAt node fieldIndex = (node, Throw e)
             /\ error_kind e = ProtectedFieldError)
  /\ canDeleteFieldAt node fieldIndex = false.
Proof.
  intros Hfs Hi Hf Hprot.
  assert (Hget : getFieldAt node fieldIndex = OK (getField f)).
  { unfold getFieldAt. rewrite Hfs, Hf.
    assert ((fieldIndex <? 0) = false) as -> by lia.
    apply lookup_lt_Some in Hf.
    assert ((fieldIndex <? Z.of_nat (length fs)) = true) as -> by lia.
    done. }
  assert (Hcheck : exists e, _checkDeleteFieldAt node fieldIndex = Throw e
                             /\ error_kind e = ProtectedFieldError).
  { unfold _checkDeleteFieldAt. rewrite Hget. cbn.
    destruct (fkey (getField f)) eqn:Hk; [by exists KeyFieldProtected|].
    destruct Hprot as [Hkey | ->]; [|by exists ValueFieldProtected].
    destruct f; cbn in *; congruence. }
  destruct Hcheck as (e & He & Hkind).
  unfold deleteFieldAt, canDeleteFieldAt. rewrite He. eauto.
Qed.

Lemma deleteFieldAt_protected_witness :
  (exists e, deleteFieldAt c6_map_string 1 = (c6_map_string, Throw e)
             /\ error_kind e = ProtectedFieldError)
  /\ canDeleteFieldAt c6_map_string 1 = false.
Proof.
  apply (deleteFieldAt_protected c6_map_string 1
           [Declared (mkField "Key" None true); Bare "Value"] (Bare "Value")).
  - reflexivity.
  - lia.
  - reflexivity.
  - right. reflexivity.
Defined.

(** C9 fails on a tree node: the check passes, so [canDeleteFieldAt] says
    [true], and [deleteFieldAt] then throws while listing the items. *)
Lemma canDelete_covers_delete_fails :
  deleteFieldAt c9_tree 0 = (c9_tree, Throw CannotListItems)
  /\ canDeleteFieldAt c9_tree 0 = true
  /\ ~ canDelete_covers_delete c9_tree 0.
Proof.
  split; [reflexivity|]. split; [reflexivity|].
  intros H. specialize (H CannotListItems eq_refl). discriminate H.
Qed.

(** The same happens on a list container as [getChildren] projects it:
    that projection has no [dataIndex], so its struct node is its parent,
    a tree. *)
Example getChildren_projection_delete_fails :
  let root :=
    mkNode
      (mkModel "Site"
         (Some [mkModel "Posts" None (Some TYPE_LIST_OBJECT) false
                  (Some [Bare "Name"; Bare "Body"])])
         (Some TYPE_TREE) false None)
      (VObj {["posts" := VArr [VObj {["name" := VStr "a"]}]]})
      None (Some "") (Some "") (VNum (-1)) VUndef in
  exists posts,
    getChildren root = OK [posts]
    /\ canDeleteFieldAt posts 1 = true
    /\ deleteFieldAt posts 1 = (posts, Throw CannotListItems).
Proof. eexists. split; [vm_compute; reflexivity|]. split; reflexivity. Qed.

(** C9, amended: whenever the check made by [deleteFieldAt] before it
    touches anything throws - a negative index, an index with no declared
    field, a key field, a map<string> container - [canDeleteFieldAt]
    returns [false], and [deleteFieldAt] throws that same error with the
    projection unchanged. *)
Theorem canDeleteFieldAt_check (node : Node) (fieldIndex : Z) :
  (forall e, _checkDeleteFieldAt node fieldIndex = Throw e ->
     canDeleteFieldAt node fieldIndex = false
     /\ deleteFieldAt node fieldIndex = (node, Throw e))
  /\ (fieldIndex < 0 ->
      _checkDeleteFieldAt node fieldIndex = Throw NegativeFieldIndex)
  /\ (0 <= fieldIndex ->
      Z.of_nat (length (default [] (fields (model node)))) <= fieldIndex ->
      _checkDeleteFieldAt node fieldIndex = Throw NoFieldAtIndex)
  /\ (forall f, 0 <= fieldIndex ->
        default [] (fields (model node)) !! Z.to_nat fieldIndex = Some f ->
        isKeyField f = true ->
        _checkDeleteFieldAt node fieldIndex = Throw KeyFieldProtected)
  /\ (forall f, 0 <= fieldIndex ->
        default [] (fields (model node)) !! Z.to_nat fieldIndex = Some f ->
        isKeyField f = false ->
        getNodeType node = TYPE_MAP_STRING ->
        _checkDeleteFieldAt node fieldIndex = Throw ValueFieldProtected).
Proof.
  split; [|split; [|split; [|split]]].
  - intros e He. unfold canDeleteFieldAt, deleteFieldAt. by rewrite He.
  - intros Hi. unfold _checkDeleteFieldAt, getFieldAt.
    by assert ((fieldIndex <? 0) = true) as -> by lia.
  - intros Hi Hlen. unfold _checkDeleteFieldAt, getFieldAt.
    assert ((fieldIndex <? 0) = false) as -> by lia.
    destruct (fields (model node)) as [fs|]; [|done]. cbn in Hlen.
    by assert ((fieldIndex <? Z.of_nat (length fs)) = false) as -> by lia.
  - intros f Hi Hf Hkey. unfold _checkDeleteFieldAt, getFieldAt.
    assert ((fieldIndex <? 0) = false) as -> by lia.
    destruct (fields (model node)) as [fs|]; [|done]. cbn in Hf.
    rewrite Hf. pose proof (lookup_lt_Some _ _ _ Hf).
    assert ((fieldIndex <? Z.of_nat (length fs)) = true) as -> by lia.
    cbn. destruct f; cbn in *; [done|]. by rewrite Hkey.
  - intros f Hi Hf Hkey Ht. unfold _checkDeleteFieldAt, getFieldAt.
    assert ((fieldIndex <? 0) = false) as -> by lia.
    destruct (fields (model node)) as [fs|]; [|done]. cbn in Hf.
    rewrite Hf. pose proof (lookup_lt_Some _ _ _ Hf).
    assert ((fieldIndex <? Z.of_nat (length fs)) = true) as -> by lia.
    cbn. rewrite Ht.
    destruct f; cbn in *; [done|]. by rewrite Hkey.
Qed.

Lemma canDeleteFieldAt_check_witness :
  canDeleteFieldAt c9_tree (-1) = false
  /\ deleteFieldAt c9_tree (-1) = (c9_tree, Throw NegativeFieldIndex).
Proof.
  destruct (canDeleteFieldAt_check c9_tree (-1)) as (H & Hneg & _).
  apply H, Hneg. lia.
Defined.

(** ** Walking a path down the schema (C5, C10) *)

Lemma treePathAndIndex_walk (tree n : Node) (pre rest : list string)
    (res : Path.t (list string)) :
  walks_to tree pre n ->
  _treePathAndIndex tree (pre ++ rest) res
  = _treePathAndIndex n rest
      (Path.mk (Path.fullPath res) (Path.treePath res ++ pre)%list
         (Path.dataIndex res)).
Proof.
  intros Hw. revert res.
  induction Hw as [n|n child n' p ps Hc Hf _ IH]; intros res.
  - rewrite app_nil_r. by destruct res.
  - cbn. rewrite Hc, Hf. cbn. rewrite IH. cbn.
    by rewrite <- app_assoc.
Qed.

Lemma treePathAndIndex_at_container (tree n : Node) (path : PathArg)
    (pre rest : list string) (p : string) :
  walks_to tree pre n ->
  has_children n = false ->
  isItem n = true ->
  path_segments path = (pre ++ p :: rest)%list ->
  treePathAndIndex tree path
  = OK (Path.mk path (join "/" pre) (selector n p)).
Proof.
  intros Hw Hc Hi Hp. unfold treePathAndIndex.
  rewrite Hp, (treePathAndIndex_walk tree n pre _ _ Hw). cbn.
  rewrite Hc. unfold isItem in Hi. unfold selector.
  destruct (String.eqb (getNodeType n) TYPE_LIST_OBJECT); [done|].
  cbn in Hi. by rewrite Hi.
Qed.

(** C10: once [treePathAndIndex] has walked down to a leaf container (a
    list or map node with no schema children), the next segment alone
    becomes [dataIndex] - parsed as an integer for a list, verbatim for a
    map - and whatever segments follow it are ignored: the call returns,
    and its result does not depend on them. *)
Theorem treePathAndIndex_ignores_rest (tree n : Node) (path : PathArg)
    (pre : list string) (p q : string) (rest : list string) :
  walks_to tree pre n ->
  has_children n = false ->
  isItem n = true ->
  path_segments path = (pre ++ p :: q :: rest)%list ->
  treePathAndIndex tree path
  = OK (Path.mk path (join "/" pre) (selector n p))
  /\ Path.dataIndex <$> treePathAndIndex tree path
     = Path.dataIndex <$> treePathAndIndex tree (PathSeq (pre ++ [p])).
Proof.
  intros Hw Hc Hi Hp.
  rewrite (treePathAndIndex_at_container tree n path pre (q :: rest) p)
    by done.
  by rewrite (treePathAndIndex_at_container tree n (PathSeq (pre ++ [p]))
                pre [] p).
Qed.

Lemma getNodeType_model (n : Node) : getNodeType n = model_type (model n).
Proof. reflexivity. Qed.

Lemma child_with_slug_Some (cs : list Model) (slug : string) (c : Model) :
  child_with_slug cs slug = Some c -> exists c0 cs', cs = c0 :: cs'.
Proof. destruct cs; [done|eauto]. Qed.

Lemma findChild_object (n : Node) (cs : list Model) (slug : string)
    (c : Model) (m : gmap string value) :
  children (model n) = Some cs ->
  child_with_slug cs slug = Some c ->
  data n = VObj m ->
  has_children n = true
  /\ exists child, _findChild n slug = OK child
       /\ model child = c /\ data child = default VUndef (m !! slug).
Proof.
  intros Hcs Hc Hd. unfold has_children, _findChild. rewrite Hcs, Hc, Hd.
  destruct (child_with_slug_Some _ _ _ Hc) as (c0 & cs' & ->).
  split; [done|]. cbn. eauto.
Qed.

Lemma treePathAndIndex_ignores_rest_witness :
  treePathAndIndex c5_tree (PathStr "foo/bar/5/x/y")
  = OK (Path.mk (PathStr "foo/bar/5/x/y") "foo/bar" (VNum 5))
  /\ Path.dataIndex <$> treePathAndIndex c5_tree (PathStr "foo/bar/5/x/y")
     = Path.dataIndex <$> treePathAndIndex c5_tree (PathSeq ["foo"; "bar"; "5"]).
Proof.
  apply (treePathAndIndex_ignores_rest c5_tree
           (mkNode c5_bar (VArr [VObj {["name" := VStr "x"]}])
              (Some (mkNode c5_foo
                       (VObj {["bar" := VArr [VObj {["name" := VStr "x"]}]]})
                       (Some c5_tree) (Some "/foo") (Some "/foo")
                       VUndef (VNum (-1))))
              (Some "/foo/bar") (Some "/foo/bar") VUndef (VNum (-1)))
           (PathStr "foo/bar/5/x/y") ["foo"; "bar"] "5" "x" ["y"]).
  - eapply walks_down; [reflexivity | vm_compute; reflexivity |].
    eapply walks_down; [reflexivity | vm_compute; reflexivity |].
    apply walks_here.
  - reflexivity.
  - reflexivity.
  - reflexivity.
Defined.

(** C5 fails in two ways.  On a tree whose data has no entry for [foo] the
    projection of [foo] is built with [undefined] data, and building the
    projection of [bar] reads a property of it.  And the walk steps into
    the first child with the slug of the segment: where two siblings are
    slugged [foo] and [bar] is below the second, it ends at the first, a
    tree without children, with the not-found error. *)
Lemma treePathAndIndex_spec_fails :
  (tree_foo_bar c5_tree_no_data c5_foo c5_bar
   /\ model_type c5_bar = TYPE_LIST_OBJECT
   /\ treePathAndIndex c5_tree_no_data (PathStr "foo/bar/5")
      = Throw JsTypeError
   /\ treePathAndIndex c5_tree_no_data (PathStr "foo/bar/5")
      <> OK (Path.mk (PathStr "foo/bar/5") "foo/bar" (VNum 5)))
  /\ (levels_contain c5_two_foo c5_foo_upper c5_bar
      /\ model_type c5_bar = TYPE_LIST_OBJECT
      /\ (exists m1, js_get (data c5_two_foo) "foo" = OK (VObj m1))
      /\ treePathAndIndex c5_two_foo (PathStr "foo/bar/5")
         = Throw NoChildForPath
      /\ treePathAndIndex c5_two_foo (PathStr "foo/bar/5")
         <> OK (Path.mk (PathStr "foo/bar/5") "foo/bar" (VNum 5))).
Proof.
  split.
  - split; [|split; [reflexivity|split; [reflexivity|discriminate]]].
    exists [c5_foo], [c5_bar]. repeat split; try reflexivity. by left.
  - split; [|split; [reflexivity|split; [by eexists|]]].
    + exists [mkModel "Foo" (Some []) (Some TYPE_TREE) false None; c5_foo_upper],
        [c5_bar].
      split; [reflexivity|]. split; [set_solver|]. split; [reflexivity|].
      split; [reflexivity|]. split; [set_solver|]. split; [reflexivity|].
      by left.
    + split; [reflexivity|discriminate].
Qed.

(** C5, amended: on a tree where the first child of the root that is
    slugged [foo] has, as its first child slugged [bar], a leaf container,
    and the data of the root holds an object under [foo] (the data the walk
    reads while it steps into [foo] and [bar]), [treePathAndIndex] resolves the
    path foo/bar/5 to the tree path ["foo/bar"] and, for a list<object>
    [bar], the integer [5] as [dataIndex]; in general the selector is
    [parseInt] of the last segment for a list and the segment itself for a
    map.  And when the walk has reached a node of type tree and the next
    segment is the slug of none of its children, [treePathAndIndex] throws a
    not-found error. *)
Theorem treePathAndIndex_spec (tree : Node) :
  (forall (foo bar : Model) (m0 m1 : gmap string value),
      tree_foo_bar tree foo bar ->
      data tree = VObj m0 ->
      m0 !! "foo" = Some (VObj m1) ->
      (model_type bar = TYPE_LIST_OBJECT ->
         treePathAndIndex tree (PathStr "foo/bar/5")
         = OK (Path.mk (PathStr "foo/bar/5") "foo/bar" (VNum 5))
         /\ forall s, treePathAndIndex tree (PathSeq ["foo"; "bar"; s])
                      = OK (Path.mk (PathSeq ["foo"; "bar"; s]) "foo/bar"
                              (parseInt s)))
      /\ (model_type bar = TYPE_MAP_OBJECT \/ model_type bar = TYPE_MAP_STRING ->
          forall s, treePathAndIndex tree (PathSeq ["foo"; "bar"; s])
                    = OK (Path.mk (PathSeq ["foo"; "bar"; s]) "foo/bar"
                            (VStr s))))
  /\ (forall (n : Node) (path : PathArg) (pre rest : list string) (p : string),
        walks_to tree pre n ->
        getNodeType n = TYPE_TREE ->
        child_with_slug (default [] (children (model n))) p = None ->
        path_segments path = (pre ++ p :: rest)%list ->
        exists e, treePathAndIndex tree path = Throw e
                  /\ error_kind e = NotFoundError).
Proof.
  split.
  - intros foo bar m0 m1 (cs0 & cs1 & Hcs0 & Hfoo & Hcs1 & Hbar & Hleaf) Hd0 Hm0.
    destruct (findChild_object tree cs0 "foo" foo m0 Hcs0 Hfoo Hd0)
      as (Hc0 & nfoo & Hf0 & Hmfoo & Hdfoo).
    rewrite Hm0 in Hdfoo. cbn in Hdfoo.
    destruct (findChild_object nfoo cs1 "bar" bar m1) as
      (Hc1 & nbar & Hf1 & Hmbar & _); [by rewrite Hmfoo|done|done|].
    assert (Hw : walks_to tree ["foo"; "bar"] nbar).
    { eapply walks_down; [done|exact Hf0|].
      eapply walks_down; [done|exact Hf1|]. apply walks_here. }
    assert (Hnc : has_children nbar = false).
    { unfold has_children. rewrite Hmbar. by destruct Hleaf as [-> | ->]. }
    split.
    + intros Ht.
      assert (Hi : isItem nbar = true).
      { unfold isItem. by rewrite getNodeType_model, Hmbar, Ht. }
      assert (Hsel : forall s, selector nbar s = parseInt s).
      { intros s. unfold selector. by rewrite getNodeType_model, Hmbar, Ht. }
      split.
      * rewrite (treePathAndIndex_at_container tree nbar _ ["foo"; "bar"] [] "5")
          by done.
        by rewrite Hsel.
      * intros s.
        rewrite (treePathAndIndex_at_container tree nbar _ ["foo"; "bar"] [] s)
          by done.
        by rewrite Hsel.
    + intros Ht s.
      assert (Hi : isItem nbar = true).
      { unfold isItem. rewrite getNodeType_model, Hmbar.
        by destruct Ht as [-> | ->]. }
      rewrite (treePathAndIndex_at_container tree nbar _ ["foo"; "bar"] [] s)
        by done.
      unfold selector. rewrite getNodeType_model, Hmbar.
      by destruct Ht as [-> | ->].
  - intros n path pre rest p Hw Ht Hnone Hp. unfold treePathAndIndex.
    rewrite Hp, (treePathAndIndex_walk tree n pre _ _ Hw). cbn.
    destruct (has_children n) eqn:Hc.
    + exists NoChildWithSlug. split; [|done].
      unfold _findChild.
      destruct (children (model n)) as [cs|] eqn:Hcs; [|done].
      change (child_with_slug cs p = None) in Hnone. by rewrite Hnone.
    + exists NoChildForPath. split; [|done]. by rewrite Ht.
Qed.

Lemma treePathAndIndex_spec_witness :
  treePathAndIndex c5_tree (PathStr "foo/bar/5")
  = OK (Path.mk (PathStr "foo/bar/5") "foo/bar" (VNum 5))
  /\ exists e, treePathAndIndex c5_tree (PathStr "foo/baz/5") = Throw e
               /\ error_kind e = NotFoundError.
Proof.
  destruct (treePathAndIndex_spec c5_tree) as [Hfound Hmissing]. split.
  - eapply (Hfound c5_foo c5_bar); try reflexivity.
    exists [c5_foo], [c5_bar]. repeat split; try reflexivity. by left.
  - apply (Hmissing
             (mkNode c5_foo
                (VObj {["bar" := VArr [VObj {["name" := VStr "x"]}]]})
                (Some c5_tree) (Some "/foo") (Some "/foo") VUndef (VNum (-1)))
             (PathStr "foo/baz/5") ["foo"] ["5"] "baz").
    + eapply walks_down; [reflexivity | vm_compute; reflexivity |].
      apply walks_here.
    + reflexivity.
    + reflexivity.
    + reflexivity.
Defined.

(** ** Resolving an item of a map (C8) *)

(** C8 fails in three ways: a falsy value stored under the key ([null]
    here) is replaced by the default, the empty path is the container
    itself, whose [dataIndex] is not the segment, and on a container
    without data the read throws. *)
Lemma resolves_stored_fails :
  ((exists proj, findNode c8_null (PathSeq ["k1"]) = OK proj
                 /\ data proj = VObj ∅)
   /\ ~ resolves_stored c8_null (PathSeq ["k1"]) "k1")
  /\ (findNode c8_container (PathStr "") = OK c8_container
      /\ findNode_segments (PathStr "") = [""]
      /\ ~ resolves_stored c8_container (PathStr "") "")
  /\ (findNode c8_no_data (PathSeq ["k1"]) = Throw JsTypeError
      /\ ~ resolves_stored c8_no_data (PathSeq ["k1"]) "k1").
Proof.
  split; [|split].
  - split; [by eexists|].
    intros (proj & Hfind & _ & Hdata). vm_compute in Hfind.
    injection Hfind as <-. vm_compute in Hdata. discriminate Hdata.
  - split; [reflexivity|]. split; [reflexivity|].
    intros (proj & Hfind & Hidx & _). cbn in Hfind.
    injection Hfind as <-. discriminate Hidx.
  - split; [reflexivity|].
    intros (proj & Hfind & _). discriminate Hfind.
Qed.

(** C8, amended: at a map container whose data is an object, resolving a
    path whose first segment is [k1] (any path but the empty string, which
    denotes the container itself), where [k1] is a key of the data or is no
    name inherited from [Object.prototype], returns a projection of the same
    model with [dataIndex] the string [k1]; its data is the value stored
    under [k1] when that value is truthy, and otherwise - the key absent or
    the value falsy - an empty object for a map<object>, the empty string
    for a map<string>. *)
Theorem findNode_map_item (node : Node) (m : gmap string value)
    (path : PathArg) (k1 : string) (rest : list string) :
  isMapType node = true ->
  data node = VObj m ->
  path <> PathStr "" ->
  findNode_segments path = k1 :: rest ->
  plain_key m k1 ->
  exists proj,
    findNode node path = OK proj
    /\ dataIndex proj = VStr k1
    /\ model proj = model node
    /\ parent proj = Some node
    /\ data proj = match m !! k1 with
                   | Some v => if truthy v then v else map_default node
                   | None => map_default node
                   end
    /\ (getNodeType node = TYPE_MAP_OBJECT -> m !! k1 = None ->
        data proj = VObj ∅)
    /\ (getNodeType node = TYPE_MAP_STRING -> m !! k1 = None ->
        data proj = VStr "").
Proof.
  intros Hmap Hd Hne Hsegs _.
  assert (Hfind : findNode node path = _findNode node (k1 :: rest)).
  { destruct path as [s|l]; cbn in *; [|by rewrite Hsegs].
    destruct (String.eqb s "") eqn:Hs; [|by rewrite Hsegs].
    apply String.eqb_eq in Hs. congruence. }
  rewrite Hfind. unfold isMapType in Hmap. cbn.
  assert (String.eqb (getNodeType node) TYPE_TREE = false
          /\ String.eqb (getNodeType node) TYPE_LIST_OBJECT = false)
    as [-> ->].
  { apply orb_true_iff in Hmap as [Ht | Ht];
      apply String.eqb_eq in Ht; by rewrite Ht. }
  rewrite Hd. cbn. eexists. split; [reflexivity|]. cbn.
  repeat (split; [reflexivity|]).
  unfold js_or, map_default.
  destruct (m !! k1) as [v|] eqn:Hk; cbn.
  - split; [by destruct (truthy v)|]. split; intros _ Hnone; discriminate Hnone.
  - split; [done|]. split; intros Ht _; by rewrite Ht.
Qed.

Lemma findNode_map_item_witness :
  (exists proj,
     findNode c8_container (PathStr "k1") = OK proj
     /\ dataIndex proj = VStr "k1"
     /\ model proj = model c8_container
     /\ parent proj = Some c8_container
     /\ data proj = VObj {["age" := VNum 3]})
  /\ (exists proj,
        findNode c8_container (PathStr "k2") = OK proj
        /\ dataIndex proj = VStr "k2"
        /\ model proj = model c8_container
        /\ parent proj = Some c8_container
        /\ data proj = VObj ∅)
  /\ (exists proj,
        findNode c8_null (PathSeq ["k1"; "age"]) = OK proj
        /\ dataIndex proj = VStr "k1"
        /\ data proj = VObj ∅).
Proof.
  split; [|split].
  - destruct (findNode_map_item c8_container
                {["k1" := VObj {["age" := VNum 3]}]} (PathStr "k1") "k1" []
                eq_refl eq_refl ltac:(discriminate) eq_refl
                ltac:(by right))
      as (proj & H1 & H2 & H3 & H4 & H5 & _).
    by exists proj.
  - destruct (findNode_map_item c8_container
                {["k1" := VObj {["age" := VNum 3]}]} (PathStr "k2") "k2" []
                eq_refl eq_refl ltac:(discriminate) eq_refl
                ltac:(by right))
      as (proj & H1 & H2 & H3 & H4 & _ & H5 & _).
    exists proj. repeat (split; [done|]). by apply H5.
  - destruct (findNode_map_item c8_null {["k1" := VNull]}
                (PathSeq ["k1"; "age"]) "k1" ["age"]
                eq_refl eq_refl ltac:(discriminate) eq_refl
                ltac:(by right))
      as (proj & H1 & H2 & _ & _ & H5 & _).
    by exists proj.
Defined.

(** ** Collision-free names (C4) *)

Lemma string_app_length (s t : string) :
  String.length (s +:+ t) = (String.length s + String.length t)%nat.
Proof. induction s as [|c s IH]; simpl; [done|]. by f_equal. Qed.

Lemma string_app_inv_tail (s1 s2 t : string) :
  s1 +:+ t = s2 +:+ t -> s1 = s2.
Proof.
  revert s2. induction s1 as [|c s1 IH]; intros [|c2 s2] H; cbn in H.
  - done.
  - apply (f_equal String.length) in H.
    change (String.length t = S (String.length (s2 +:+ t))) in H.
    rewrite string_app_length in H. lia.
  - apply (f_equal String.length) in H.
    change (S (String.length (s1 +:+ t)) = String.length t) in H.
    rewrite string_app_length in H. lia.
  - injection H as -> H. f_equal. by apply IH.
Qed.

Lemma fullName_inj (newName : string) (j k : nat) :
  fullName newName j = fullName newName k -> j = k.
Proof.
  unfold fullName.
  destruct (Nat.eqb_spec j 1) as [->|Hj], (Nat.eqb_spec k 1) as [->|Hk];
    intros H; [done| | |].
  - apply (f_equal String.length) in H.
    rewrite !string_app_length in H. cbn [String.length] in H. lia.
  - apply (f_equal String.length) in H.
    rewrite !string_app_length in H. cbn [String.length] in H. lia.
  - apply (inj (String.app newName)), (inj (String.app " (")) in H.
    by apply string_app_inv_tail, (inj pretty) in H.
Qed.

Lemma existsb_eqb_elem_of (s : string) (names : list string) :
  (existsb (String.eqb s) names = true) <-> s ∈ names.
Proof.
  rewrite existsb_exists. split.
  - intros (x & Hin & ->%String.eqb_eq). by apply list_elem_of_In.
  - intros Hin. exists s. split; [by apply list_elem_of_In|].
    apply String.eqb_refl.
Qed.

Lemma filter_out_length (x : string) (l : list string) :
  x ∈ l ->
  (length (List.filter (fun s => negb (String.eqb x s)) l) < length l)%nat.
Proof.
  induction l as [|a l IH]; intros Hin; [by apply elem_of_nil in Hin|].
  cbn. destruct (String.eqb_spec x a) as [->|Hne]; cbn.
  - pose proof (List.filter_length_le (fun s => negb (String.eqb a s)) l). lia.
  - apply elem_of_cons in Hin as [->|Hin]; [done|].
    specialize (IH Hin). lia.
Qed.

Lemma first_free_unique names newName idx k1 k2 :
  first_free names newName idx k1 -> first_free names newName idx k2 ->
  k1 = k2.
Proof.
  intros (H1 & Hf1 & Hall1) (H2 & Hf2 & Hall2).
  destruct (Nat.lt_trichotomy k1 k2) as [Hlt|[->|Hlt]]; [|done|].
  - destruct Hf1. apply Hall2. lia.
  - destruct Hf2. apply Hall1. lia.
Qed.

Lemma probe_first_free (fuel : nat) (names aux : list string)
    (newName : string) (idx : nat) :
  (forall j, (idx <= j)%nat -> fullName newName j ∈ names ->
             fullName newName j ∈ aux) ->
  (length aux <= fuel)%nat ->
  exists k, findNewNodeName_probe fuel names newName idx = fullName newName k
            /\ first_free names newName idx k.
Proof.
  revert aux idx. induction fuel as [|fuel IH]; intros aux idx Haux Hlen.
  - exists idx. split; [done|]. split; [done|]. split; [|lia].
    intros Hin. apply (Haux idx) in Hin; [|done].
    destruct aux; [by apply elem_of_nil in Hin | cbn in Hlen; lia].
  - cbn. destruct (existsb _ names) eqn:Hex.
    + apply existsb_eqb_elem_of in Hex.
      set (full := fullName newName idx) in *.
      destruct (IH (List.filter (fun s => negb (String.eqb full s)) aux) (S idx))
        as (k & Hk & Hle & Hfree & Hbelow).
      * intros j Hj Hin. apply list_elem_of_In, filter_In.
        split; [apply list_elem_of_In, Haux; [lia|done]|].
        apply negb_true_iff, String.eqb_neq. intros Heq.
        apply fullName_inj in Heq. lia.
      * assert (Hin : full ∈ aux) by (apply Haux; [done|exact Hex]).
        pose proof (filter_out_length full aux Hin). lia.
      * exists k. split; [done|]. split; [lia|]. split; [done|].
        intros j Hj. destruct (decide (j = idx)) as [->|Hne]; [done|].
        apply Hbelow. lia.
    + exists idx. split; [done|]. split; [done|]. split; [|lia].
      intros Hin%existsb_eqb_elem_of. congruence.
Qed.

Lemma findNewNodeName_first_free (node : Node) (newName : string) (idx : nat) :
  exists k, _findNewNodeName node newName idx = fullName newName k
            /\ first_free (child_names node) newName idx k.
Proof.
  unfold _findNewNodeName.
  by apply (probe_first_free _ _ (child_names node)).
Qed.

(** The bounded search satisfies the recursive equation of the source. *)
Lemma findNewNodeName_unfold (node : Node) (newName : string) (idx : nat) :
  _findNewNodeName node newName idx
  = if existsb (String.eqb (fullName newName idx)) (child_names node)
    then _findNewNodeName node newName (S idx)
    else fullName newName idx.
Proof.
  destruct (findNewNodeName_first_free node newName idx)
    as (k & -> & Hk).
  destruct (existsb _ _) eqn:Hex.
  - destruct (findNewNodeName_first_free node newName (S idx))
      as (k' & -> & Hle' & Hfree' & Hbelow').
    f_equal. apply (first_free_unique _ _ _ _ _ Hk).
    apply existsb_eqb_elem_of in Hex.
    split; [lia|]. split; [done|]. intros j Hj.
    destruct (decide (j = idx)) as [->|Hne]; [done|]. apply Hbelow'. lia.
  - f_equal. apply (first_free_unique _ _ _ _ _ Hk).
    split; [done|]. split; [|lia].
    intros Hin%existsb_eqb_elem_of. congruence.
Qed.

Lemma new_model_name (n nodeType : string) :
  name (new_model n nodeType).1 = n.
Proof.
  unfold new_model.
  repeat (destruct (String.eqb nodeType _); [done|]). done.
Qed.

(** What [addNode] does to a parent whose data is an object. *)
Lemma addNode_object (node : Node) (requestedName nodeType : string)
    (d : gmap string value) :
  data node = VObj d ->
  let n := _findNewNodeName node requestedName 1 in
  let newModel := (new_model n nodeType).1 in
  let newData := (new_model n nodeType).2 in
  let node' :=
    set_data
      (set_model node
         (set_children (model node)
            (Some (default [] (children (model node)) ++ [newModel])%list)))
      (VObj (<[slugify n := newData]> d)) in
  exists child,
    addNode node requestedName nodeType = (node', OK child)
    /\ model child = newModel /\ name newModel = n
    /\ data child = newData /\ parent child = Some node'
    /\ dataIndex child = VNum (-1).
Proof.
  intros Hd n newModel newData node'. unfold addNode. fold n.
  pose proof (new_model_name n nodeType) as Hn.
  subst newModel newData node'.
  destruct (new_model n nodeType) as [mo nd]. cbn in *.
  rewrite Hd, Hn. cbn. eexists. split; [reflexivity|]. done.
Qed.

Lemma addNode_step (parent : Node) (d : gmap string value)
    (requestedName nodeType : string) :
  data parent = VObj d ->
  exists parent' child k d',
    addNode parent requestedName nodeType = (parent', OK child)
    /\ name (model child) = fullName requestedName k
    /\ first_free (child_names parent) requestedName 1 k
    /\ child_names parent'
       = (child_names parent ++ [fullName requestedName k])%list
    /\ data parent' = VObj d'.
Proof.
  intros Hd.
  destruct (addNode_object parent requestedName nodeType d Hd)
    as (child & Hadd & Hmodel & Hname & _).
  destruct (findNewNodeName_first_free parent requestedName 1)
    as (k & Hk & Hfree).
  eexists _, child, k, _. split; [exact Hadd|].
  split; [by rewrite Hmodel, Hname|]. split; [done|]. split; [|reflexivity].
  unfold child_names at 1. cbn. rewrite fmap_app. cbn.
  rewrite new_model_name, Hk. unfold child_names.
  by destruct (children (model parent)).
Qed.

(** C4 fails on a parent that has a child called A already: the three
    calls create A (2), A (3) and A (4); and on a parent without data the
    first call throws, after the schema has taken the new child. *)
Lemma three_calls_name_A_fails :
  ((exists p1 c1 p2 c2 p3 c3,
      addNode c4_has_A "A" TYPE_TREE = (p1, OK c1)
      /\ addNode p1 "A" TYPE_TREE = (p2, OK c2)
      /\ addNode p2 "A" TYPE_TREE = (p3, OK c3)
      /\ name (model c1) = "A (2)" /\ name (model c2) = "A (3)"
      /\ name (model c3) = "A (4)")
   /\ ~ three_calls_name_A c4_has_A)
  /\ ((exists p1, addNode c4_no_data "A" TYPE_TREE = (p1, Throw JsTypeError))
      /\ ~ three_calls_name_A c4_no_data).
Proof.
  split; split.
  - do 6 eexists. split; [vm_compute; reflexivity|].
    split; [vm_compute; reflexivity|]. split; [vm_compute; reflexivity|].
    done.
  - intros (p1 & c1 & p2 & c2 & p3 & c3 & H1 & _ & _ & Hn & _).
    vm_compute in H1. injection H1 as <- <-. discriminate Hn.
  - eexists. vm_compute. reflexivity.
  - intros (p1 & c1 & p2 & c2 & p3 & c3 & H1 & _).
    vm_compute in H1. discriminate H1.
Qed.

(** C4, amended: on a parent whose data is an object, [addNode] names the
    new node with the first of [requestedName], [requestedName (2)],
    [requestedName (3)], ... that is the display name of no existing
    sibling (names are compared as they are, not slugified) and appends it
    to the children.  So on a parent with no child called A, A (2) or A (3),
    three calls of [addNode(parent, "A", TREE)] create A, then A (2), then
    A (3); and on any such parent A and A (2) are among the children after two
    calls and A (3) after the third. *)
Theorem addNode_names (parent : Node) (d : gmap string value) :
  data parent = VObj d ->
  (forall requestedName nodeType,
     exists parent' child k,
       addNode parent requestedName nodeType = (parent', OK child)
       /\ name (model child) = fullName requestedName k
       /\ first_free (child_names parent) requestedName 1 k
       /\ child_names parent'
          = (child_names parent ++ [fullName requestedName k])%list)
  /\ (exists p1 c1 p2 c2 p3 c3,
        addNode parent "A" TYPE_TREE = (p1, OK c1)
        /\ addNode p1 "A" TYPE_TREE = (p2, OK c2)
        /\ addNode p2 "A" TYPE_TREE = (p3, OK c3)
        /\ "A" ∈ child_names p2 /\ "A (2)" ∈ child_names p2
        /\ "A (3)" ∈ child_names p3
        /\ ("A" ∉ child_names parent -> "A (2)" ∉ child_names parent ->
            name (model c1) = "A" /\ name (model c2) = "A (2)"
            /\ child_names p2 = (child_names parent ++ ["A"; "A (2)"])%list
            /\ ("A (3)" ∉ child_names parent ->
                name (model c3) = "A (3)"
                /\ child_names p3
                   = (child_names parent ++ ["A"; "A (2)"; "A (3)"])%list))).
Proof.
  intros Hd. split.
  - intros requestedName nodeType.
    destruct (addNode_step parent d requestedName nodeType Hd)
      as (p' & c & k & d' & H1 & H2 & H3 & H4 & _). by exists p', c, k.
  - destruct (addNode_step parent d "A" TYPE_TREE Hd)
      as (p1 & c1 & k1 & d1 & Ha1 & Hn1 & Hf1 & Hc1 & Hd1).
    destruct (addNode_step p1 d1 "A" TYPE_TREE Hd1)
      as (p2 & c2 & k2 & d2 & Ha2 & Hn2 & Hf2 & Hc2 & Hd2).
    destruct (addNode_step p2 d2 "A" TYPE_TREE Hd2)
      as (p3 & c3 & k3 & d3 & Ha3 & Hn3 & Hf3 & Hc3 & Hd3).
    exists p1, c1, p2, c2, p3, c3.
    do 3 (split; [done|]).
    assert (HA1 : fullName "A" 1 ∈ child_names p1).
    { rewrite Hc1. destruct Hf1 as (Hle & _ & Hbelow).
      destruct (decide (k1 = 1%nat)) as [->|Hne]; [set_solver|].
      apply elem_of_app. left. apply Hbelow. lia. }
    assert (Hk2 : (2 <= k2)%nat).
    { destruct Hf2 as (Hle & Hfree & _).
      destruct (decide (k2 = 1%nat)) as [->|Hne]; [done|lia]. }
    assert (HA2 : fullName "A" 2 ∈ child_names p2).
    { rewrite Hc2. destruct Hf2 as (_ & _ & Hbelow).
      destruct (decide (k2 = 2%nat)) as [->|Hne]; [set_solver|].
      apply elem_of_app. left. apply Hbelow. lia. }
    assert (HA12 : fullName "A" 1 ∈ child_names p2).
    { rewrite Hc2. set_solver. }
    assert (Hk3 : (3 <= k3)%nat).
    { destruct Hf3 as (Hle & Hfree & _).
      destruct (decide (k3 = 1%nat)) as [->|Hne1]; [done|].
      destruct (decide (k3 = 2%nat)) as [->|Hne2]; [done|lia]. }
    assert (HA3 : fullName "A" 3 ∈ child_names p3).
    { rewrite Hc3. destruct Hf3 as (_ & _ & Hbelow).
      destruct (decide (k3 = 3%nat)) as [->|Hne]; [set_solver|].
      apply elem_of_app. left. apply Hbelow. lia. }
    do 3 (split; [done|]).
    intros HnA HnA2.
    assert (k1 = 1%nat) as ->.
    { apply (first_free_unique _ _ _ _ _ Hf1).
      split; [done|]. split; [done|]. lia. }
    assert (k2 = 2%nat) as ->.
    { apply (first_free_unique _ _ _ _ _ Hf2).
      split; [lia|]. split.
      - rewrite Hc1. intros [Hin|Hin%list_elem_of_singleton]%elem_of_app;
          [done|discriminate Hin].
      - intros j Hj. assert (j = 1%nat) as -> by lia. done. }
    split; [done|]. split; [done|]. split.
    { rewrite Hc2, Hc1, <- app_assoc. reflexivity. }
    intros HnA3.
    assert (k3 = 3%nat) as ->.
    { apply (first_free_unique _ _ _ _ _ Hf3).
      split; [lia|]. split.
      - rewrite Hc2, Hc1.
        intros [[Hin|Hin%list_elem_of_singleton]%elem_of_app
               |Hin%list_elem_of_singleton]%elem_of_app;
          [done|discriminate Hin|discriminate Hin].
      - intros j Hj.
        assert (j = 1%nat \/ j = 2%nat) as [-> | ->] by lia; done. }
    split; [done|].
    rewrite Hc3, Hc2, Hc1, <- !app_assoc. reflexivity.
Qed.

Example c4_three_calls :
  let '(p1, r1) := addNode c4_parent "A" TYPE_TREE in
  let '(p2, r2) := addNode p1 "A" TYPE_TREE in
  let '(p3, r3) := addNode p2 "A" TYPE_TREE in
  child_names p3 = ["A"; "A (2)"; "A (3)"]
  /\ (name ∘ model) <$> r3 = OK "A (3)".
Proof. vm_compute. done. Qed.

Lemma addNode_names_witness :
  exists p1 c1 p2 c2 p3 c3,
    addNode c4_parent "A" TYPE_TREE = (p1, OK c1)
    /\ addNode p1 "A" TYPE_TREE = (p2, OK c2)
    /\ addNode p2 "A" TYPE_TREE = (p3, OK c3)
    /\ name (model c1) = "A" /\ name (model c2) = "A (2)"
    /\ name (model c3) = "A (3)".
Proof.
  destruct (addNode_names c4_parent ∅ eq_refl)
    as (_ & p1 & c1 & p2 & c2 & p3 & c3 & H1 & H2 & H3 & _ & _ & _ & H).
  destruct H as (Hn1 & Hn2 & _ & H); [apply not_elem_of_nil..|].
  destruct H as (Hn3 & _); [apply not_elem_of_nil|].
  exists p1, c1, p2, c2, p3, c3. done.
Defined.

(** ** Adding then deleting a node (C1) *)

(** C1 fails when the new name is no sibling's display name but slugifies
    like one: [A B] is accepted next to [a b], its data replaces the data
    under [a_b], and [deleteNode] then removes that key. *)
Lemma add_delete_restores_fails :
  (exists node1 child child' node2,
     addNode c1_parent "A B" TYPE_TREE = (node1, OK child)
     /\ name (model child) = "A B"
     /\ deleteNode child = (child', OK ())
     /\ parent child' = Some node2
     /\ children (model node2) = children (model c1_parent)
     /\ data node2 = VObj ∅)
  /\ ~ add_delete_restores c1_parent "A B" TYPE_TREE.
Proof.
  split.
  - do 4 eexists. split; [vm_compute; reflexivity|].
    split; [reflexivity|]. split; [vm_compute; reflexivity|].
    split; [reflexivity|]. split; reflexivity.
  - intros (node1 & child & child' & node2 & Hadd & Hdel & Hpar & _ & Hdata).
    vm_compute in Hadd. injection Hadd as <- <-.
    vm_compute in Hdel. injection Hdel as <-.
    cbn in Hpar. injection Hpar as <-.
    vm_compute in Hdata. discriminate Hdata.
Qed.

(** With no children sequence to begin with, the parent ends with an empty
    one. *)
Example add_delete_creates_children :
  let node := mkNode (mkModel "Site" None (Some TYPE_TREE) false None)
                (VObj ∅) None (Some "") (Some "") (VNum (-1)) VUndef in
  exists node1 child child' node2,
    addNode node "A" TYPE_TREE = (node1, OK child)
    /\ deleteNode child = (child', OK ())
    /\ parent child' = Some node2
    /\ children (model node2) = Some []
    /\ data node2 = data node.
Proof.
  do 4 eexists. split; [vm_compute; reflexivity|].
  split; [vm_compute; reflexivity|]. split; [reflexivity|].
  split; reflexivity.
Qed.

Lemma index_of_name_fresh (cs : list Model) (c : Model) :
  name c ∉ name <$> cs ->
  index_of_name (cs ++ [c]) (name c) = Some (length cs).
Proof.
  induction cs as [|c0 cs IH]; intros Hfresh; cbn.
  - by rewrite String.eqb_refl.
  - rewrite fmap_cons in Hfresh. apply not_elem_of_cons in Hfresh as [Hne Hfresh].
    rewrite eqb_neq_false by congruence. by rewrite IH.
Qed.

(** C1, amended: on a parent whose data is an object, that already has a
    children sequence, and whose data has no key equal to the slug of the
    name [addNode] chooses, [addNode] followed by [deleteNode] on the
    projection returned leaves the children sequence and the data object
    equal to what they were. *)
Theorem add_delete_roundtrip (node : Node) (requestedName nodeType : string)
    (d : gmap string value) (cs : list Model) :
  data node = VObj d ->
  children (model node) = Some cs ->
  d !! slugify (_findNewNodeName node requestedName 1) = None ->
  add_delete_restores node requestedName nodeType.
Proof.
  intros Hd Hcs Hslug.
  destruct (addNode_object node requestedName nodeType d Hd)
    as (child & Hadd & Hmodel & Hname & Hdata & Hpar & _).
  destruct (findNewNodeName_first_free node requestedName 1)
    as (k & Hk & _ & Hfree & _).
  set (n := _findNewNodeName node requestedName 1) in *.
  set (newModel := (new_model n nodeType).1) in *.
  set (newData := (new_model n nodeType).2) in *.
  rewrite Hcs in Hadd, Hpar. cbn in Hadd, Hpar.
  assert (Hidx : index_of_name (cs ++ [newModel]) n = Some (length cs)).
  { rewrite <- Hname. apply index_of_name_fresh.
    rewrite Hname, Hk. unfold child_names in Hfree. by rewrite Hcs in Hfree. }
  unfold add_delete_restores. eexists _, child, _, _.
  split; [exact Hadd|]. split.
  { unfold deleteNode. rewrite Hpar. cbn. rewrite Hmodel, Hname, Hidx. cbn.
    reflexivity. }
  split; [reflexivity|]. cbn.
  rewrite delete_middle, app_nil_r, Hcs.
  rewrite delete_insert_id by done. by rewrite Hd.
Qed.

Lemma add_delete_roundtrip_witness :
  add_delete_restores c1_parent "News" TYPE_LIST_OBJECT.
Proof.
  apply (add_delete_roundtrip c1_parent "News" TYPE_LIST_OBJECT
           {["a_b" := VObj {["title" := VStr "kept"]}]}
           [mkModel "a b" (Some []) (Some TYPE_TREE) false None]).
  - reflexivity.
  - reflexivity.
  - vm_compute. reflexivity.
Defined.

(** ** Renaming a node (C3) *)

(** C3: [renameNode] run on the child [Foo] of a tree whose data holds the
    child's data under [foo], with the new name [FOO].  The name is set and
    the path recomputed, but the copy [parent.data[new] = parent.data[old]]
    writes the key [foo] onto itself and the [delete] that follows removes
    it: the parent's data is left empty and the child's data is lost. *)
Theorem renameNode_same_slug_loses_data :
  slugify "FOO" = slugify (name (model c3_node))
  /\ js_get (data c3_parent) (slugify (name (model c3_node)))
     = OK (VObj {["title" := VStr "kept"]})
  /\ exists node' p',
       renameNode c3_node "FOO" = (node', OK ())
       /\ name (model node') = "FOO"
       /\ path node' = Some "foo"
       /\ parent node' = Some p'
       /\ data p' = VObj ∅
       /\ js_get (data p') (slugify "FOO") = OK VUndef.
Proof.
  split; [reflexivity|]. split; [reflexivity|].
  do 2 eexists. split; [vm_compute; reflexivity|]. done.
Qed.

(** Where the two slugs differ the rename does what is asked of it: for a
    node with a parent whose data is an object, [renameNode] sets the
    display name, moves what the parent's data holds under the old slug to
    the new one, leaves no key under the old slug, and recomputes [path] and
    [treePath] from the parent's path and the new slug. *)
Lemma renameNode_moves_data (node p : Node) (newName : string)
    (d : gmap string value) :
  parent node = Some p ->
  data p = VObj d ->
  slugify newName <> slugify (name (model node)) ->
  rename_moves_data node newName.
Proof.
  intros Hp Hd Hslug. unfold rename_moves_data.
  eexists _, p, _, d, _. split; [exact Hp|]. split; [exact Hd|]. split.
  { unfold renameNode. cbn. rewrite Hp, Hd. cbn. reflexivity. }
  cbn. split; [reflexivity|]. split; [reflexivity|]. split; [reflexivity|].
  split; [by rewrite lookup_delete_ne, lookup_insert_eq|].
  split; [by rewrite lookup_delete_eq|]. done.
Qed.

Lemma renameNode_moves_data_witness : rename_moves_data c3_node "New".
Proof.
  apply (renameNode_moves_data c3_node c3_parent "New"
           {["foo" := VObj {["title" := VStr "kept"]}]}).
  - reflexivity.
  - reflexivity.
  - vm_compute. discriminate.
Defined.

(** ** Renaming a field (C2) *)

(** C2: [updateFieldAt] run on a list whose one item holds [Hello] under
    [title], replacing the field [Title] at index 0 by [title]: the names
    differ, so the items are migrated, but the two slugs are the same, the
    copy [item[new] = item[old]] writes the key onto itself and the [delete]
    that follows removes it: the item is left empty. *)
Theorem updateFieldAt_same_slug_loses_values :
  getFieldAt c2_container 0 = OK (mkField "Title" None false)
  /\ data c2_container = VArr [VObj {["title" := VStr "Hello"]}]
  /\ slugify "title" = slugify "Title"
  /\ exists node',
       updateFieldAt c2_container (Some 0) (Bare "title") = (node', OK ())
       /\ getFieldAt node' 0 = OK (mkField "title" None false)
       /\ _getStructNode node' = Some node'
       /\ data node' = VArr [VObj ∅].
Proof.
  split; [reflexivity|]. split; [reflexivity|]. split; [reflexivity|].
  eexists. split; [vm_compute; reflexivity|]. done.
Qed.

Lemma move_key_object (old new : string) (m : gmap string value) :
  move_key old new (VObj m)
  = OK (VObj (delete old (<[new := default VUndef (m !! old)]> m))).
Proof. reflexivity. Qed.



(** * Further properties of the engine *)

(** ** Slugs and paths *)

Lemma map_chars_compose (f g : ascii -> ascii) (s : string) :
  map_chars f (map_chars g s) = map_chars (fun c => f (g c)) s.
Proof. induction s as [|c s IH]; cbn; [done|]. by rewrite IH. Qed.

Lemma slugify_chars (s : string) : slugify s = map_chars slug_char s.
Proof. unfold slugify. by rewrite !map_chars_compose. Qed.

Lemma slug_char_clean (c : ascii) :
  slug_char (slug_char c) = slug_char c
  /\ Ascii.eqb (slug_char c) "/" = false
  /\ is_ws (slug_char c) = false
  /\ lower (slug_char c) = slug_char c.
Proof. destruct c as [[] [] [] [] [] [] [] []]; vm_compute; done. Qed.

Lemma split_slash_no_slash (s : string) :
  (forall c, c ∈ list_ascii_of_string s -> Ascii.eqb c "/" = false) ->
  split_slash s = [s].
Proof.
  induction s as [|c s IH]; intros Hs; [done|].
  cbn. rewrite (Hs c) by (cbn; set_solver).
  rewrite IH; [done|]. intros c' Hc'. apply Hs. cbn. set_solver.
Qed.

Lemma slugify_chars_clean (s : string) (c : ascii) :
  c ∈ list_ascii_of_string (slugify s) ->
  is_ws c = false /\ Ascii.eqb c "/" = false /\ lower c = c.
Proof.
  rewrite slugify_chars. induction s as [|a s IH]; cbn; intros Hc.
  - by apply elem_of_nil in Hc.
  - apply elem_of_cons in Hc as [->|Hc]; [|by apply IH].
    by destruct (slug_char_clean a) as (_ & ? & ? & ?).
Qed.

Lemma slugify_ascii_only (s : string) : ascii_only s -> ascii_only (slugify s).
Proof.
  rewrite slugify_chars. unfold ascii_only.
  induction s as [|a s IH]; cbn; intros Hs; [done|].
  apply Forall_cons in Hs as [Ha Hs]. apply Forall_cons. split; [|by apply IH].
  clear -Ha. destruct a as [[] [] [] [] [] [] [] []]; vm_compute; try done;
    vm_compute in Ha; done.
Qed.

(** X1: on a name of ASCII characters [slugify] is idempotent and keeps the
    length of the name, and the slug, ASCII again, has no whitespace, no
    slash and no upper-case letter left; so it is exactly one segment of a
    path. *)
Theorem slugify_clean (s : string) :
  ascii_only s ->
  ascii_only (slugify s)
  /\ slugify (slugify s) = slugify s
  /\ String.length (slugify s) = String.length s
  /\ (forall c, c ∈ list_ascii_of_string (slugify s) ->
        is_ws c = false /\ Ascii.eqb c "/" = false /\ lower c = c)
  /\ split_slash (slugify s) = [slugify s].
Proof.
  intros Hs. split; [by apply slugify_ascii_only|]. clear Hs.
  split; [|split; [|split; [apply slugify_chars_clean|]]].
  - rewrite !slugify_chars, map_chars_compose.
    induction s as [|a s IH]; cbn; [done|].
    by rewrite IH, (proj1 (slug_char_clean a)).
  - rewrite slugify_chars. induction s as [|a s IH]; cbn; [done|]. by rewrite IH.
  - apply split_slash_no_slash. intros c Hc.
    by destruct (slugify_chars_clean s c Hc) as (_ & ? & _).
Qed.

Lemma slugify_clean_witness :
  slugify "My Posts/2024" = "my_posts-2024"
  /\ slugify (slugify "My Posts/2024") = slugify "My Posts/2024"
  /\ String.length (slugify "My Posts/2024") = String.length "My Posts/2024"
  /\ split_slash (slugify "My Posts/2024") = [slugify "My Posts/2024"].
Proof.
  split; [reflexivity|].
  destruct (slugify_clean "My Posts/2024") as (_ & H1 & H2 & _ & H3).
  { repeat constructor. }
  done.
Defined.

Lemma split_slash_cons (s : string) : exists seg segs, split_slash s = seg :: segs.
Proof.
  induction s as [|c s (seg & segs & IH)]; cbn; [by eauto|].
  destruct (Ascii.eqb c "/"); [by eauto|]. rewrite IH. eauto.
Qed.

Lemma join_cons_char (c : ascii) (seg : string) (segs : list string) :
  join "/" (String c seg :: segs) = String c (join "/" (seg :: segs)).
Proof. by destruct segs. Qed.

Lemma join_of_split_slash (s : string) : join "/" (split_slash s) = s.
Proof.
  induction s as [|c s IH]; [done|]. cbn.
  destruct (Ascii.eqb_spec c "/") as [->|Hc].
  - destruct (split_slash_cons s) as (seg & segs & Hs).
    rewrite Hs in *. cbn in *. by rewrite IH.
  - destruct (split_slash_cons s) as (seg & segs & Hs).
    rewrite Hs in *. by rewrite join_cons_char, IH.
Qed.

(** X2: splitting a path at its slashes and joining the segments with
    slashes gives the path back; the split of any string, the empty one
    included, has at least one segment. *)
Theorem join_split_slash (s : string) :
  join "/" (split_slash s) = s /\ split_slash s <> [].
Proof.
  split; [apply join_of_split_slash|].
  destruct (split_slash_cons s) as (seg & segs & Hs).
  rewrite Hs. discriminate.
Qed.

Lemma split_slash_app_seg (seg rest : string) :
  no_slash seg ->
  split_slash (seg +:+ String "/" rest) = seg :: split_slash rest.
Proof.
  induction seg as [|c seg IH]; intros Hseg; [done|].
  change (String c seg +:+ String "/" rest)
    with (String c (seg +:+ String "/" rest)).
  cbn [split_slash]. rewrite (Hseg c) by (cbn; set_solver).
  rewrite IH; [done|]. intros c' Hc'. apply Hseg. cbn. set_solver.
Qed.

(** X3: joining segments that contain no slash and splitting the result
    gives the segments back, for any sequence but the empty one (whose join
    is the empty string, which splits into one empty segment). *)
Theorem split_join_slash (l : list string) :
  l <> [] -> Forall no_slash l ->
  split_slash (join "/" l) = l.
Proof.
  intros Hne Hl. induction Hl as [|seg l Hseg Hl IH]; [done|].
  destruct l as [|seg' l]; [by apply split_slash_no_slash|].
  change (join "/" (seg :: seg' :: l))
    with (seg +:+ String "/" (join "/" (seg' :: l))).
  rewrite split_slash_app_seg by done. by rewrite IH.
Qed.

Lemma split_join_slash_witness :
  split_slash (join "/" ["foo"; ""; "5"]) = ["foo"; ""; "5"].
Proof.
  apply split_join_slash; [done|].
  repeat constructor; intros c Hc; vm_compute in Hc;
    repeat (apply elem_of_cons in Hc as [->|Hc]; [reflexivity|]);
    by apply elem_of_nil in Hc.
Defined.

(** ** Looking fields up *)

Lemma getFieldAt_getFields (node : Node) (fieldIndex : Z) :
  0 <= fieldIndex ->
  getFieldAt node fieldIndex
  = match getFields node !! Z.to_nat fieldIndex with
    | Some f => OK f
    | None => Throw NoFieldAtIndex
    end.
Proof.
  intros Hi. unfold getFieldAt, getFields.
  assert ((fieldIndex <? 0) = false) as -> by lia.
  destruct (fields (model node)) as [fs|]; [|done].
  rewrite list_lookup_fmap.
  destruct (fs !! Z.to_nat fieldIndex) as [f|] eqn:Hf; cbn.
  - apply lookup_lt_Some in Hf.
    by assert ((fieldIndex <? Z.of_nat (length fs)) = true) as -> by lia.
  - by destruct (fieldIndex <? Z.of_nat (length fs)).
Qed.

Lemma index_of_field_Some (fs : list Field) (n : string) (i : nat) :
  index_of_field fs n = Some i <->
  (exists f, fs !! i = Some f /\ fname f = n)
  /\ forall j f, (j < i)%nat -> fs !! j = Some f -> fname f <> n.
Proof.
  revert i. induction fs as [|f0 fs IH]; intros i; cbn.
  - split; [done|]. by intros [(f & Hf & _) _].
  - destruct (String.eqb_spec n (fname f0)) as [->|Hne].
    + split.
      * intros [= <-]. split; [by exists f0|]. intros j f Hj. lia.
      * intros [(f & Hf & Hn) Hfirst]. destruct i as [|i]; [done|].
        by destruct (Hfirst 0%nat f0 ltac:(lia) eq_refl).
    + destruct i as [|i].
      * split.
        -- intros (k & _ & Hk)%fmap_Some. discriminate Hk.
        -- intros [(f & Hf & Hn) _]. cbn in Hf. injection Hf as <-. congruence.
      * rewrite fmap_Some. split.
        -- intros (k & Hk & [= ->]). apply IH in Hk as [(f & Hf & Hn) Hfirst].
           split; [by exists f|]. intros [|j] g Hj Hg; cbn in Hg.
           ++ by injection Hg as <-.
           ++ apply (Hfirst j g); [lia|done].
        -- intros [(f & Hf & Hn) Hfirst]. exists i. split; [|done].
           apply IH. split; [by exists f|].
           intros j g Hj Hg. apply (Hfirst (S j) g); [lia|done].
Qed.

Lemma index_of_field_None (fs : list Field) (n : string) :
  index_of_field fs n = None <-> forall f, f ∈ fs -> fname f <> n.
Proof.
  induction fs as [|f0 fs IH]; cbn.
  - split; [|done]. intros _ f Hf. by apply elem_of_nil in Hf.
  - destruct (String.eqb_spec n (fname f0)) as [->|Hne].
    + split; [done|]. intros H. destruct (H f0); [left|done].
    + rewrite fmap_None, IH. split.
      * intros H f [->|Hf]%elem_of_cons; [congruence|]. by apply H.
      * intros H f Hf. apply H. by right.
Qed.

(** X4: [getFieldIndex] returns the position of the first declared field
    whose normalised name is that of the field asked for, and [getFieldAt]
    at that position returns a field of that name; it throws (not found)
    exactly when no declared field has that name - in particular on a node
    with no fields. *)
Theorem getFieldIndex_spec (node : Node) (field : FieldDecl) :
  (forall i, getFieldIndex node field = Returns i ->
     (exists f, getFieldAt node (Z.of_nat i) = OK f
                /\ fname f = fname (getField field))
     /\ forall j f, (j < i)%nat -> getFieldAt node (Z.of_nat j) = OK f ->
                    fname f <> fname (getField field))
  /\ ((exists e, getFieldIndex node field = Throws e) <->
      forall f, f ∈ getFields node -> fname f <> fname (getField field))
  /\ (forall e, getFieldIndex node field = Throws e ->
        e = CannotFindFieldIndex /\ engine_error_kind e = NotFoundError).
Proof.
  unfold getFieldIndex. split; [|split].
  - intros i Hi.
    destruct (index_of_field _ _) as [k|] eqn:Hk; [|done].
    injection Hi as ->. apply index_of_field_Some in Hk as [(f & Hf & Hn) Hfirst].
    split.
    + exists f. rewrite getFieldAt_getFields by lia.
      by rewrite Nat2Z.id, Hf.
    + intros j g Hj Hg. rewrite getFieldAt_getFields in Hg by lia.
      rewrite Nat2Z.id in Hg.
      destruct (getFields node !! j) as [g'|] eqn:Hg'; [|done].
      injection Hg as <-. by apply (Hfirst j).
  - rewrite <- index_of_field_None.
    destruct (index_of_field _ _); split; try done; [by intros [e He]|eauto].
  - intros e He. destruct (index_of_field _ _); [done|]. by injection He as <-.
Qed.

(** X5: reading a field with [getFieldAt] and asking [getFieldIndex] for it
    gives an index that is never beyond the one read, and the same index
    when no two declared fields share a name. *)
Theorem getFieldIndex_getFieldAt (node : Node) (fieldIndex : Z) (f : Field) :
  getFieldAt node fieldIndex = OK f ->
  exists j, getFieldIndex node (Declared f) = Returns j
            /\ (Z.of_nat j <= fieldIndex)
            /\ (NoDup (fname <$> getFields node) -> Z.of_nat j = fieldIndex).
Proof.
  intros Hget.
  assert (Hi : 0 <= fieldIndex).
  { unfold getFieldAt in Hget. destruct (fieldIndex <? 0) eqn:Hneg; [done|lia]. }
  rewrite getFieldAt_getFields in Hget by done.
  destruct (getFields node !! Z.to_nat fieldIndex) as [g|] eqn:Hg; [|done].
  injection Hget as ->. unfold getFieldIndex. cbn.
  destruct (index_of_field (getFields node) (fname f)) as [j|] eqn:Hj.
  - exists j. split; [done|].
    apply index_of_field_Some in Hj as [(g & Hgj & Hn) Hfirst].
    assert (Hle : (j <= Z.to_nat fieldIndex)%nat).
    { destruct (decide (j <= Z.to_nat fieldIndex)%nat) as [|Hgt]; [done|].
      by destruct (Hfirst (Z.to_nat fieldIndex) f ltac:(lia) Hg). }
    split; [lia|]. intros Hnd.
    assert (j = Z.to_nat fieldIndex); [|lia].
    eapply NoDup_lookup; [exact Hnd| |].
    + by rewrite list_lookup_fmap, Hgj.
    + rewrite list_lookup_fmap, Hg. cbn. congruence.
  - pose proof (proj1 (index_of_field_None _ _) Hj) as Hnone.
    destruct (Hnone f); [|done]. by eapply list_elem_of_lookup_2.
Qed.

Lemma getFieldIndex_getFieldAt_witness :
  exists j, getFieldIndex posts_node
              (Declared (mkField "Body" (Some "markdown") false)) = Returns j
            /\ (Z.of_nat j <= 1)
            /\ (NoDup (fname <$> getFields posts_node) -> Z.of_nat j = 1).
Proof. apply (getFieldIndex_getFieldAt posts_node 1). reflexivity. Defined.

(** X6: [getFieldNamed] and [getFieldIndex] agree: the field found by name
    is the one declared at the index found, and [getFieldNamed] finds no
    field exactly when [getFieldIndex] throws. *)
Theorem getFieldNamed_getFieldIndex (node : Node) (field : FieldDecl) :
  match getFieldIndex node field with
  | Returns i =>
      getFieldNamed node (fname (getField field)) = getFields node !! i
      /\ is_Some (getFields node !! i)
  | Throws _ => getFieldNamed node (fname (getField field)) = None
  end.
Proof.
  unfold getFieldIndex, getFieldNamed. cbn.
  generalize (fname (getField field)) as n. intros n.
  induction (getFields node) as [|f0 fs IH]; cbn; [done|].
  rewrite (String.eqb_sym n (fname f0)).
  destruct (String.eqb (fname f0) n); cbn; [by eauto|].
  destruct (index_of_field fs n); cbn in *; done.
Qed.

Lemma getFieldIndex_spec_witness :
  (exists f, getFieldAt posts_node 1 = OK f /\ fname f = "Body")
  /\ forall j f, (j < 1)%nat -> getFieldAt posts_node (Z.of_nat j) = OK f ->
                 fname f <> "Body".
Proof.
  destruct (getFieldIndex_spec posts_node (Bare "Body")) as (H & _).
  apply (H 1%nat). reflexivity.
Defined.

(** ** Which nodes hold items *)

Lemma js_get_throws (v : value) (k : string) (e : Error) :
  js_get v k = Throw e -> e = JsTypeError.
Proof.
  destruct v; cbn; try done; try (by intros [= <-]);
    repeat case_match; try done; by intros [= <-].
Qed.

Lemma findNewMapKey_probe_throws (fuel : nat) (d : value) (newName : string)
    (idx : nat) (e : Error) :
  findNewMapKey_probe fuel d newName idx = Throw e -> e = JsTypeError.
Proof.
  revert idx. induction fuel as [|fuel IH]; intros idx; cbn; [done|].
  destruct (js_get d (fullName newName idx)) as [v|e'] eqn:Hget; cbn.
  - destruct v; try done; apply IH.
  - intros [= <-]. by apply js_get_throws in Hget.
Qed.

Lemma name_taken_throws (fieldName full : string) (items : list value)
    (e : Error) :
  name_taken fieldName full items = Throw e -> e = JsTypeError.
Proof.
  induction items as [|item items IH]; cbn; [done|].
  destruct (js_get item fieldName) as [v|e'] eqn:Hget; cbn.
  - destruct v; try done. by destruct (String.eqb s full).
  - intros [= <-]. by apply js_get_throws in Hget.
Qed.

Lemma findNewListItemName_probe_throws (fuel : nat) (fieldName : string)
    (items : list value) (newName : string) (idx : nat) (e : Error) :
  findNewListItemName_probe fuel fieldName items newName idx = Throw e ->
  e = JsTypeError.
Proof.
  revert idx. induction fuel as [|fuel IH]; intros idx; cbn; [done|].
  destruct (name_taken fieldName (fullName newName idx) items)
    as [[]|e'] eqn:Htaken; cbn; [apply IH|done|].
  intros [= <-]. by apply name_taken_throws in Htaken.
Qed.

Lemma defaultFieldName_throws (m : Model) (e : Error) :
  defaultFieldName m = Throw e -> e = JsTypeError.
Proof.
  unfold defaultFieldName.
  destruct (fields m) as [[|[]]|]; try done; by intros [= <-].
Qed.

Lemma array_like_throws (items : value) (e : Error) :
  array_like items = Throw e -> e = JsTypeError.
Proof.
  destruct items; cbn; try done; try (by intros [= <-]).
  destruct (m !! "length"); [by intros [= <-]|done].
Qed.

(** X7: [isItem] tells exactly when a node supports items: [getDataItems]
    throws its unsupported-operation error exactly on the nodes for which
    [isItem] is false, and so does [addItem], which then leaves the node as
    it was; on an item type [addItem] fails with the runtime's type error
    or not at all; and every map type is an item type. *)
Theorem isItem_supported (node : Node) (requestedName : string) :
  (isMapType node = true -> isItem node = true)
  /\ (getDataItems node = Throw CannotListItems <-> isItem node = false)
  /\ (addItem node requestedName = (node, Throws CannotAddItem)
      <-> isItem node = false)
  /\ (forall e, (addItem node requestedName).2 = Throws e ->
        isItem node = true ->
        e = Raised JsTypeError
        /\ addItem node requestedName = (node, Throws (Raised JsTypeError))).
Proof.
  assert (Hmap : forall item e,
            (addItem_map node requestedName item).2 = Throws e ->
            e = Raised JsTypeError
            /\ addItem_map node requestedName item
               = (node, Throws (Raised JsTypeError))).
  { intros item e. unfold addItem_map, _findNewMapKey.
    destruct (findNewMapKey_probe _ _ _ _) as [k|e0] eqn:Hk; cbn.
    - destruct (data node); cbn; try done; by intros [= <-].
    - apply findNewMapKey_probe_throws in Hk as ->. by intros [= <-]. }
  assert (Hadd : isItem node = true ->
            forall e, (addItem node requestedName).2 = Throws e ->
                      e = Raised JsTypeError
                      /\ addItem node requestedName
                         = (node, Throws (Raised JsTypeError))).
  { unfold isItem, addItem.
    destruct (String.eqb (getNodeType node) TYPE_MAP_OBJECT);
      [intros _ e; apply Hmap|].
    destruct (String.eqb (getNodeType node) TYPE_MAP_STRING);
      [intros _ e; apply Hmap|].
    destruct (String.eqb_spec (getNodeType node) TYPE_LIST_OBJECT) as [Ht|];
      [|done].
    intros _ e.
    destruct (defaultFieldName (model node)) as [k|e0] eqn:Hk;
      [|apply defaultFieldName_throws in Hk as ->; by intros [= <-]].
    destruct (_findNewListItemName node requestedName 1) as [n|e1] eqn:Hn.
    - cbn. destruct (data node); cbn; try done; by intros [= <-].
    - cbn.
      assert (e1 = JsTypeError) as ->; [|by intros [= <-]].
      unfold _findNewListItemName, getDataItems in Hn. rewrite Hk, Ht in Hn.
      cbn -[findNewListItemName_probe] in Hn.
      destruct (array_like (data node)) as [l|e2] eqn:Hl;
        cbn -[findNewListItemName_probe] in Hn.
      + by apply findNewListItemName_probe_throws in Hn.
      + apply array_like_throws in Hl as ->. by injection Hn as <-. }
  split; [|split; [|split]].
  - unfold isMapType, isItem. intros [->| ->]%orb_true_iff; cbn;
      by rewrite ?orb_true_r.
  - unfold isItem, getDataItems.
    destruct (String.eqb (getNodeType node) TYPE_LIST_OBJECT); [done|].
    destruct (String.eqb (getNodeType node) TYPE_MAP_OBJECT);
      [cbn; by destruct (data node)|].
    destruct (String.eqb (getNodeType node) TYPE_MAP_STRING); [|done].
    cbn. by destruct (data node).
  - split.
    + intros Heq. destruct (isItem node) eqn:Hi; [|done].
      destruct (Hadd eq_refl CannotAddItem) as [He _]; [by rewrite Heq|done].
    + unfold isItem, addItem.
      destruct (String.eqb (getNodeType node) TYPE_LIST_OBJECT); [done|].
      destruct (String.eqb (getNodeType node) TYPE_MAP_OBJECT); [done|].
      by destruct (String.eqb (getNodeType node) TYPE_MAP_STRING).
  - intros e He Hi. by apply Hadd.
Qed.

(** ** Children *)

Lemma mapM_result_ok {A B} (f : A -> result B) (g : A -> B) (l : list A) :
  (forall x, x ∈ l -> f x = OK (g x)) -> mapM f l = OK (g <$> l).
Proof.
  induction l as [|x l IH]; intros Hf; [done|].
  cbn. rewrite (Hf x) by (by left). cbn.
  rewrite IH by (intros y Hy; apply Hf; by right). done.
Qed.

Lemma getChildren_object (node : Node) (m : gmap string value)
    (cs : list Model) :
  data node = VObj m -> children (model node) = Some cs ->
  getChildren node = OK (child_projection node m <$> cs).
Proof.
  unfold getChildren. intros Hd ->. apply mapM_result_ok.
  intros c _. by rewrite Hd.
Qed.

(** X8: [getChildren] returns no projection, and does not look at the
    data, for a node with no children or an empty children sequence; for a
    node whose data is an object it returns one projection per declared
    child, in the declared order, holding the data stored under the child's
    slug, and [undefined] if there is none - the slugs that are no keys of
    the data being no names inherited from [Object.prototype]; with
    children and [undefined] or [null] data it throws a [TypeError]. *)
Theorem getChildren_spec (node : Node) :
  (has_children node = false -> getChildren node = OK [])
  /\ (forall m cs, data node = VObj m -> children (model node) = Some cs ->
        Forall (fun c => plain_key m (slugify (name c))) cs ->
        getChildren node = OK (child_projection node m <$> cs))
  /\ (has_children node = true -> data node = VUndef \/ data node = VNull ->
      getChildren node = Throw JsTypeError).
Proof.
  split; [|split].
  - unfold has_children, getChildren.
    by destruct (children (model node)) as [[|c cs]|].
  - intros m cs Hd Hcs _. by apply getChildren_object.
  - unfold has_children, getChildren.
    destruct (children (model node)) as [[|c cs]|]; [done| |done].
    intros _ [-> | ->]; done.
Qed.

Lemma getChildren_spec_witness :
  getChildren site_root
  = OK (child_projection site_root
          {["posts" := VArr [VObj {["name" := VStr "a"]}]]}
          <$> [mkModel "Posts" None (Some TYPE_LIST_OBJECT) false
                 (Some [Bare "Name"; Bare "Body"]);
               mkModel "Labels" None (Some TYPE_MAP_STRING) false
                 (Some [Declared (mkField "Key" None true); Bare "Value"])]).
Proof.
  destruct (getChildren_spec site_root) as (_ & H & _).
  apply H; [reflexivity|reflexivity|].
  repeat constructor; by right.
Defined.

Lemma child_with_slug_first (cs : list Model) (i : nat) (c : Model) :
  cs !! i = Some c ->
  (forall j c', (j < i)%nat -> cs !! j = Some c' ->
                slugify (name c') <> slugify (name c)) ->
  child_with_slug cs (slugify (name c)) = Some c.
Proof.
  revert i. induction cs as [|c0 cs IH]; intros [|i] Hc Hfirst; try done.
  - cbn in Hc. injection Hc as ->. unfold child_with_slug. cbn.
    by rewrite String.eqb_refl.
  - unfold child_with_slug. cbn.
    rewrite eqb_neq_false by (apply (Hfirst 0%nat c0); [lia|done]).
    apply (IH i); [done|]. intros j c' Hj Hc'.
    apply (Hfirst (S j) c'); [lia|done].
Qed.

(** X9: for a tree node whose data is an object, the child that
    [getChildren] projects and the node that [findNode] resolves from the
    child's slug are the same child - same model, data, parent, path and
    tree path - provided the child is the first with its slug and has
    (truthy) data; but only the projection of [findNode] has a
    [dataIndex], so the struct node of the one from [getChildren] is the
    parent and the struct node of the one from [findNode] is the child
    itself. *)
Theorem getChildren_findNode (node : Node) (m : gmap string value)
    (cs : list Model) (i : nat) (c : Model) (v : value) :
  getNodeType node = TYPE_TREE ->
  data node = VObj m ->
  children (model node) = Some cs ->
  cs !! i = Some c ->
  (forall j c', (j < i)%nat -> cs !! j = Some c' ->
                slugify (name c') <> slugify (name c)) ->
  m !! slugify (name c) = Some v -> truthy v = true ->
  exists projections projection found,
    getChildren node = OK projections
    /\ projections !! i = Some projection
    /\ findNode node (PathSeq [slugify (name c)]) = OK found
    /\ model found = model projection /\ model found = c
    /\ data found = data projection /\ data found = v
    /\ parent found = parent projection
    /\ path found = path projection
    /\ treePath found = treePath projection
    /\ _getStructNode projection = Some node
    /\ _getStructNode found = Some found.
Proof.
  intros Ht Hd Hcs Hi Hfirst Hv Htruthy.
  pose proof (getChildren_object node) as Hch.
  exists (child_projection node m <$> cs), (child_projection node m c).
  eexists. split; [by apply Hch|]. split; [by rewrite list_lookup_fmap, Hi|].
  split.
  { cbn. rewrite Ht, Hcs. cbn.
    rewrite (child_with_slug_first cs i c Hi Hfirst), Hd. cbn.
    rewrite Hv. cbn. rewrite Htruthy. cbn. reflexivity. }
  cbn. rewrite Hv. done.
Qed.

Lemma getChildren_findNode_witness :
  exists projections projection found,
    getChildren site_root = OK projections
    /\ projections !! 0%nat = Some projection
    /\ findNode site_root (PathSeq ["posts"]) = OK found
    /\ model found = model projection
    /\ data found = data projection
    /\ _getStructNode projection = Some site_root
    /\ _getStructNode found = Some found.
Proof.
  destruct (getChildren_findNode site_root
              {["posts" := VArr [VObj {["name" := VStr "a"]}]]}
              [mkModel "Posts" None (Some TYPE_LIST_OBJECT) false
                 (Some [Bare "Name"; Bare "Body"]);
               mkModel "Labels" None (Some TYPE_MAP_STRING) false
                 (Some [Declared (mkField "Key" None true); Bare "Value"])]
              0%nat
              (mkModel "Posts" None (Some TYPE_LIST_OBJECT) false
                 (Some [Bare "Name"; Bare "Body"]))
              (VArr [VObj {["name" := VStr "a"]}]))
    as (ps & p & f & H1 & H2 & H3 & H4 & _ & H5 & _ & _ & _ & _ & H6 & H7);
    try reflexivity.
  - intros j c' Hj. lia.
  - exists ps, p, f. done.
Defined.

(** ** Deleting, adding and renaming nodes *)

Lemma index_of_name_Some (cs : list Model) (n : string) (i : nat) :
  index_of_name cs n = Some i ->
  (exists c, cs !! i = Some c /\ name c = n)
  /\ forall j c, (j < i)%nat -> cs !! j = Some c -> name c <> n.
Proof.
  revert i. induction cs as [|c0 cs IH]; intros i; cbn; [done|].
  destruct (String.eqb_spec (name c0) n) as [Heq|Hne].
  - intros [= <-]. split; [by exists c0|]. intros j c Hj. lia.
  - intros (k & Hk & ->)%fmap_Some. apply IH in Hk as [(c & Hc & Hn) Hfirst].
    split; [by exists c|]. intros [|j] c' Hj Hc'; cbn in Hc'.
    + by injection Hc' as <-.
    + apply (Hfirst j c'); [lia|done].
Qed.

Lemma index_of_name_None (cs : list Model) (n : string) :
  index_of_name cs n = None <-> n ∉ name <$> cs.
Proof.
  induction cs as [|c0 cs IH]; cbn; [split; [intros _; apply not_elem_of_nil|done]|].
  rewrite not_elem_of_cons.
  destruct (String.eqb_spec (name c0) n) as [Heq|Hne].
  - split; [done|]. by intros [Hne _].
  - rewrite fmap_None, IH. split; [by split|by intros [_ H]].
Qed.

(** X10: [deleteNode] on a projection whose name is the name of none of
    its parent's children throws (not found) and leaves the parent as it
    was; on a projection without parent it throws a [TypeError]. *)
Theorem deleteNode_missing (node : Node) :
  (forall p cs, parent node = Some p -> children (model p) = Some cs ->
     name (model node) ∉ name <$> cs ->
     deleteNode node = (node, Throw CouldNotDeleteNode)
     /\ error_kind CouldNotDeleteNode = NotFoundError)
  /\ (parent node = None -> deleteNode node = (node, Throw JsTypeError)).
Proof.
  split.
  - intros p cs Hp Hcs Hn%index_of_name_None. unfold deleteNode.
    by rewrite Hp, Hcs, Hn.
  - intros Hp. unfold deleteNode. by rewrite Hp.
Qed.

Lemma deleteNode_missing_witness :
  deleteNode c3_node = (c3_node, Throw JsTypeError)
  \/ deleteNode (set_model c3_node (set_name (model c3_node) "Bar"))
     = (set_model c3_node (set_name (model c3_node) "Bar"),
        Throw CouldNotDeleteNode).
Proof.
  right.
  destruct (deleteNode_missing
              (set_model c3_node (set_name (model c3_node) "Bar"))) as [H _].
  apply (H c3_parent [mkModel "Foo" (Some []) (Some TYPE_TREE) false None]);
    [reflexivity..|].
  intros [Hin|Hin%elem_of_nil]%elem_of_cons; [discriminate Hin|done].
Defined.

(** X11: when the parent's data is an object and some child has the name
    of the projection, [deleteNode] removes the first child of that name
    and nothing else from the children sequence, and removes the key of
    the name's slug and nothing else from the parent's data. *)
Theorem deleteNode_removes (node p : Node) (cs : list Model)
    (d : gmap string value) :
  parent node = Some p ->
  children (model p) = Some cs ->
  data p = VObj d ->
  name (model node) ∈ name <$> cs ->
  exists i c p',
    deleteNode node = (set_parent node (Some p'), OK ())
    /\ cs !! i = Some c /\ name c = name (model node)
    /\ (forall j c', (j < i)%nat -> cs !! j = Some c' ->
                     name c' <> name (model node))
    /\ children (model p') = Some (delete i cs)
    /\ data p' = VObj (delete (slugify (name (model node))) d)
    /\ (forall k, k <> slugify (name (model node)) ->
          delete (slugify (name (model node))) d !! k = d !! k)
    /\ name (model p') = name (model p) /\ fields (model p') = fields (model p).
Proof.
  intros Hp Hcs Hd Hin.
  destruct (index_of_name cs (name (model node))) as [i|] eqn:Hi;
    [|by apply index_of_name_None in Hi].
  destruct (index_of_name_Some _ _ _ Hi) as [(c & Hc & Hn) Hfirst].
  exists i, c. eexists. split.
  { unfold deleteNode. rewrite Hp, Hcs, Hi. cbn. rewrite Hd. cbn. reflexivity. }
  cbn. repeat (split; [done|]). split; [|done].
  intros k Hk. by rewrite lookup_delete_ne.
Qed.

Lemma deleteNode_removes_witness :
  exists i c p',
    deleteNode c3_node = (set_parent c3_node (Some p'), OK ())
    /\ [mkModel "Foo" (Some []) (Some TYPE_TREE) false None] !! i = Some c
    /\ children (model p') = Some (delete i [mkModel "Foo" (Some []) (Some TYPE_TREE) false None])
    /\ data p' = VObj (delete "foo" {["foo" := VObj {["title" := VStr "kept"]}]}).
Proof.
  destruct (deleteNode_removes c3_node c3_parent
              [mkModel "Foo" (Some []) (Some TYPE_TREE) false None]
              {["foo" := VObj {["title" := VStr "kept"]}]})
    as (i & c & p' & H1 & H2 & _ & _ & H3 & H4 & _); try reflexivity.
  - by left.
  - exists i, c, p'. done.
Defined.




(** X13: [addNode] appends the new model to the parent's children before
    it writes the data, so on a parent whose data is [undefined] or [null]
    it throws a [TypeError] and leaves the parent with the new child in its
    schema and no data for it. *)
Theorem addNode_without_data (node : Node) (requestedName nodeType : string) :
  data node = VUndef \/ data node = VNull ->
  exists node',
    addNode node requestedName nodeType = (node', Throw JsTypeError)
    /\ child_names node'
       = (child_names node ++ [_findNewNodeName node requestedName 1])%list
    /\ data node' = data node.
Proof.
  intros Hd. unfold addNode.
  pose proof (new_model_name (_findNewNodeName node requestedName 1) nodeType) as Hn.
  destruct (new_model _ nodeType) as [mo nd]. cbn in Hn.
  eexists. split.
  { cbn. destruct Hd as [-> | ->]; reflexivity. }
  split; [|done]. unfold child_names. cbn. rewrite fmap_app. cbn.
  rewrite Hn. by destruct (children (model node)).
Qed.

Lemma addNode_without_data_witness :
  exists node',
    addNode (set_data c4_parent VUndef) "A" TYPE_TREE
    = (node', Throw JsTypeError)
    /\ child_names node' = ["A"]
    /\ data node' = VUndef.
Proof.
  apply (addNode_without_data (set_data c4_parent VUndef) "A" TYPE_TREE).
  by left.
Defined.



(** ** Declaring, replacing and deleting fields *)

Lemma struct_node_set_fields (node structNode : Node)
    (fs : option (list FieldDecl)) :
  _getStructNode node = Some structNode ->
  exists structNode',
    _getStructNode (set_model node (set_fields (model node) fs))
    = Some structNode'
    /\ data structNode' = data structNode
    /\ getNodeType structNode' = getNodeType structNode.
Proof.
  unfold _getStructNode. cbn.
  destruct (negb (is_minus_one (dataIndex node))); intros Hs; [eauto|].
  injection Hs as <-. eauto.
Qed.

Lemma updateFieldAt_appends (node : Node) (fieldIndex : option Z)
    (field : FieldDecl) (fs : list FieldDecl) :
  fieldIndex = None \/ fieldIndex = Some (-1) ->
  fields (model node) = Some fs ->
  updateFieldAt node fieldIndex field
  = (set_model node (set_fields (model node) (Some (fs ++ [field])%list)),
     OK ()).
Proof.
  intros Hidx Hfs. unfold updateFieldAt. rewrite Hfs.
  destruct Hidx as [-> | ->]; cbn -[Nat.ltb]; by rewrite Nat.ltb_irrefl.
Qed.

(** X15: [updateFieldAt] with an undefined index or with [-1] appends the
    declaration to the fields of the projection and rewrites no item - the
    data of the projection and of its struct node are what they were - and
    [getFieldAt] then reads the new field at the old length and the old
    fields where they were; on a node with no [fields] it throws a
    [TypeError] and changes nothing. *)
Theorem updateFieldAt_append (node : Node) (fieldIndex : option Z)
    (field : FieldDecl) :
  fieldIndex = None \/ fieldIndex = Some (-1) ->
  (forall fs, fields (model node) = Some fs ->
     exists node',
       updateFieldAt node fieldIndex field = (node', OK ())
       /\ fields (model node') = Some (fs ++ [field])%list
       /\ data node' = data node
       /\ (forall structNode, _getStructNode node = Some structNode ->
             exists structNode',
               _getStructNode node' = Some structNode'
               /\ data structNode' = data structNode)
       /\ getFieldAt node' (Z.of_nat (length fs)) = OK (getField field)
       /\ forall i, 0 <= i < Z.of_nat (length fs) ->
                    getFieldAt node' i = getFieldAt node i)
  /\ (fields (model node) = None ->
      updateFieldAt node fieldIndex field = (node, Throw JsTypeError)).
Proof.
  intros Hidx. split.
  - intros fs Hfs.
    exists (set_model node (set_fields (model node) (Some (fs ++ [field])%list))).
    split; [by apply updateFieldAt_appends|].
    split; [done|]. split; [done|]. split; [|split].
    + intros structNode Hs.
      destruct (struct_node_set_fields node structNode
                  (Some (fs ++ [field])%list) Hs) as (sn' & Hsn' & Hd' & _).
      by exists sn'.
    + rewrite getFieldAt_getFields by lia. unfold getFields. cbn.
      rewrite Nat2Z.id, list_lookup_fmap, lookup_app_r by lia.
      by rewrite Nat.sub_diag.
    + intros i Hi. rewrite !getFieldAt_getFields by lia.
      unfold getFields. cbn. rewrite Hfs, !list_lookup_fmap.
      by rewrite lookup_app_l by lia.
  - intros Hfs. unfold updateFieldAt. by rewrite Hfs.
Qed.

Lemma updateFieldAt_append_witness :
  exists node',
    updateFieldAt posts_node (Some (-1)) (Bare "Tags") = (node', OK ())
    /\ fields (model node')
       = Some [Bare "Name"; Declared (mkField "Body" (Some "markdown") false);
               Bare "Tags"]
    /\ data node' = data posts_node
    /\ getFieldAt node' 2 = OK (getField (Bare "Tags"))
    /\ forall i, 0 <= i < 2 -> getFieldAt node' i = getFieldAt posts_node i.
Proof.
  destruct (updateFieldAt_append posts_node (Some (-1)) (Bare "Tags")) as [H _];
    [by right|].
  destruct (H [Bare "Name"; Declared (mkField "Body" (Some "markdown") false)]
              eq_refl) as (node' & H1 & H2 & H3 & _ & H4 & H5).
  by exists node'.
Defined.

(** X16: [updateFieldAt] with an index other than [-1] that has no
    declaration behind it - negative, or at or beyond the number of fields -
    throws a [TypeError] and changes nothing; it does not report the index
    the way [getFieldAt] does. *)
Theorem updateFieldAt_bad_index (node : Node) (fieldIndex : Z)
    (field : FieldDecl) :
  fieldIndex <> -1 ->
  fieldIndex < 0
  \/ Z.of_nat (length (default [] (fields (model node)))) <= fieldIndex ->
  updateFieldAt node (Some fieldIndex) field = (node, Throw JsTypeError)
  /\ exists e, getFieldAt node fieldIndex = Throw e /\ e <> JsTypeError.
Proof.
  intros Hm1 Hbad. split.
  - unfold updateFieldAt. destruct (fields (model node)) as [fs|]; [|done].
    assert ((fieldIndex =? -1) = false) as -> by lia. cbn in Hbad.
    destruct (fieldIndex <? 0) eqn:Hneg; [done|].
    rewrite lookup_ge_None_2 by lia. done.
  - unfold getFieldAt. destruct (fieldIndex <? 0) eqn:Hneg;
      [by exists NegativeFieldIndex|].
    exists NoFieldAtIndex. split; [|done].
    destruct (fields (model node)) as [fs|]; [|done]. cbn in Hbad.
    by assert ((fieldIndex <? Z.of_nat (length fs)) = false) as -> by lia.
Qed.

Lemma updateFieldAt_bad_index_witness :
  updateFieldAt posts_node (Some 2) (Bare "Tags") = (posts_node, Throw JsTypeError)
  /\ exists e, getFieldAt posts_node 2 = Throw e /\ e <> JsTypeError.
Proof. apply updateFieldAt_bad_index; [lia|]. right. cbn. lia. Defined.

Lemma updateFieldAt_replaces (node structNode : Node)
    (fs : list FieldDecl) (fieldIndex : Z) (prev field : FieldDecl) :
  fields (model node) = Some fs ->
  0 <= fieldIndex ->
  fs !! Z.to_nat fieldIndex = Some prev ->
  _getStructNode node = Some structNode ->
  ftype (getField field) = ftype (getField prev) ->
  fname (getField field) = fname (getField prev)
  \/ fkey (getField field) = true
  \/ (getNodeType structNode <> TYPE_LIST_OBJECT
      /\ getNodeType structNode <> TYPE_MAP_OBJECT) ->
  updateFieldAt node (Some fieldIndex) field
  = (set_model node
       (set_fields (model node) (Some (<[Z.to_nat fieldIndex := field]> fs))),
     OK ()).
Proof.
  intros Hfs Hi Hprev Hs Hty Hcase. unfold updateFieldAt. rewrite Hfs.
  assert ((fieldIndex =? -1) = false) as -> by lia.
  assert ((fieldIndex <? 0) = false) as -> by lia.
  rewrite Hprev, Hs.
  assert ((Z.to_nat fieldIndex <? length fs)%nat = true) as ->.
  { apply Nat.ltb_lt. by eapply lookup_lt_Some. }
  assert (negb (String.eqb (fname (getField field)) (fname (getField prev)))
          && (String.eqb (getNodeType structNode) TYPE_LIST_OBJECT
              || String.eqb (getNodeType structNode) TYPE_MAP_OBJECT)
          && negb (fkey (getField field)) = false) as ->.
  { destruct Hcase as [->|[->|[H1 H2]]].
    - by rewrite String.eqb_refl.
    - cbn. by rewrite andb_false_r.
    - rewrite (eqb_neq_false _ _ H1), (eqb_neq_false _ _ H2). cbn.
      by rewrite andb_false_r. }
  assert (opt_string_eqb (ftype (getField field)) (ftype (getField prev)) = true)
    as ->.
  { rewrite Hty. destruct (ftype (getField prev)); cbn; [|done].
    apply String.eqb_refl. }
  reflexivity.
Qed.

(** X17: replacing the declaration at a valid index by one of the same type
    rewrites no item - the data of the projection and of its struct node
    are what they were - and puts the new declaration in place in the
    fields of the projection, whenever the name is unchanged, or the new
    field is a key field, or the struct node is neither a list<object> nor
    a map<object> (a map<string>, a tree); in these cases the data is not
    even listed. *)
Theorem updateFieldAt_no_migration (node structNode : Node)
    (fs : list FieldDecl) (fieldIndex : Z) (prev field : FieldDecl) :
  fields (model node) = Some fs ->
  0 <= fieldIndex ->
  fs !! Z.to_nat fieldIndex = Some prev ->
  _getStructNode node = Some structNode ->
  ftype (getField field) = ftype (getField prev) ->
  fname (getField field) = fname (getField prev)
  \/ fkey (getField field) = true
  \/ (getNodeType structNode <> TYPE_LIST_OBJECT
      /\ getNodeType structNode <> TYPE_MAP_OBJECT) ->
  exists node' structNode',
    updateFieldAt node (Some fieldIndex) field = (node', OK ())
    /\ fields (model node') = Some (<[Z.to_nat fieldIndex := field]> fs)
    /\ getFieldAt node' fieldIndex = OK (getField field)
    /\ data node' = data node
    /\ _getStructNode node' = Some structNode'
    /\ data structNode' = data structNode.
Proof.
  intros Hfs Hi Hprev Hs Hty Hcase.
  destruct (struct_node_set_fields node structNode
              (Some (<[Z.to_nat fieldIndex := field]> fs)) Hs)
    as (sn' & Hsn' & Hd' & _).
  eexists _, sn'.
  split; [by eapply updateFieldAt_replaces|].
  split; [done|]. split; [|done].
  rewrite getFieldAt_getFields by done. unfold getFields. cbn.
  rewrite list_lookup_fmap, list_lookup_insert_eq; [done|].
  by eapply lookup_lt_Some.
Qed.

Lemma updateFieldAt_no_migration_witness :
  exists node' structNode',
    updateFieldAt c6_map_string (Some 1) (Bare "Text") = (node', OK ())
    /\ fields (model node')
       = Some [Declared (mkField "Key" None true); Bare "Text"]
    /\ getFieldAt node' 1 = OK (getField (Bare "Text"))
    /\ data node' = data c6_map_string
    /\ _getStructNode node' = Some structNode'
    /\ data structNode' = data c6_map_string.
Proof.
  apply (updateFieldAt_no_migration c6_map_string c6_map_string
           [Declared (mkField "Key" None true); Bare "Value"] 1
           (Bare "Value") (Bare "Text")); try reflexivity; [lia|].
  right. right. split; discriminate.
Defined.

Lemma deleteFieldAt_items (node structNode : Node) (fs : list FieldDecl)
    (fieldIndex : Z) (f : FieldDecl) :
  fields (model node) = Some fs ->
  0 <= fieldIndex ->
  fs !! Z.to_nat fieldIndex = Some f ->
  isKeyField f = false ->
  getNodeType node <> TYPE_MAP_STRING ->
  _getStructNode node = Some structNode ->
  container_data structNode ->
  all_items is_object (data structNode) ->
  _checkDeleteFieldAt node fieldIndex = OK (getField f)
  /\ exists node' structNode',
       deleteFieldAt node fieldIndex = (node', OK ())
       /\ _getStructNode node' = Some structNode'
       /\ data structNode'
          = map_items (fun item =>
                         match item with
                         | VObj m => VObj (delete (slugify (fname (getField f))) m)
                         | _ => item
                         end) (data structNode)
       /\ fields (model node') = Some (delete (Z.to_nat fieldIndex) fs).
Proof.
  intros Hfs Hi Hf Hkey Hty Hs Hshape Hobj.
  set (k := slugify (fname (getField f))).
  set (g := fun item => match item with
                        | VObj m => VObj (delete k m)
                        | _ => item
                        end).
  assert (Hcheck : _checkDeleteFieldAt node fieldIndex = OK (getField f)).
  { unfold _checkDeleteFieldAt. rewrite getFieldAt_getFields by done.
    unfold getFields. rewrite Hfs, list_lookup_fmap, Hf. cbn.
    rewrite (eqb_neq_false _ _ Hty).
    destruct f; cbn in *; [done|]. by rewrite Hkey. }
  split; [exact Hcheck|].
  assert (Hall : all_items (fun item => js_delete item k = OK (g item))
                   (data structNode)).
  { eapply all_items_impl; [|exact Hobj]. by intros item [m ->]. }
  pose proof (forEachItem_ok node structNode _ g Hs Hshape Hall) as Hfe.
  destruct (struct_node_after node structNode (map_items g (data structNode))
              (set_fields (model node) (Some (delete (Z.to_nat fieldIndex) fs))) Hs)
    as (sn' & Hsn' & Hd' & _).
  eexists _, sn'. split.
  { unfold deleteFieldAt. rewrite Hcheck. fold k. rewrite Hfe.
    rewrite model_set_struct_data, Hfs. cbn. reflexivity. }
  split; [exact Hsn'|]. split; [exact Hd'|done].
Qed.

(** X18: on a node that is no map<string>, deleting a declared field that
    is no key field, when the struct node holds well-shaped data whose
    items are objects, succeeds (and [canDeleteFieldAt] says so): the key
    of the field's slug is removed from every item, every other key of
    every item is kept, and the declaration is removed from the fields,
    the others keeping their order. *)
Theorem deleteFieldAt_removes (node structNode : Node) (fs : list FieldDecl)
    (fieldIndex : Z) (f : FieldDecl) :
  fields (model node) = Some fs ->
  0 <= fieldIndex ->
  fs !! Z.to_nat fieldIndex = Some f ->
  isKeyField f = false ->
  getNodeType node <> TYPE_MAP_STRING ->
  _getStructNode node = Some structNode ->
  container_data structNode ->
  all_items is_object (data structNode) ->
  exists node' structNode',
    deleteFieldAt node fieldIndex = (node', OK ())
    /\ canDeleteFieldAt node fieldIndex = true
    /\ _getStructNode node' = Some structNode'
    /\ items_rel (field_removed (slugify (fname (getField f))))
         (data structNode) (data structNode')
    /\ data structNode'
       = map_items (fun item => match item with
                                | VObj m => VObj (delete (slugify (fname (getField f))) m)
                                | _ => item
                                end) (data structNode)
    /\ fields (model node') = Some (delete (Z.to_nat fieldIndex) fs).
Proof.
  intros Hfs Hi Hf Hkey Hty Hs Hshape Hobj.
  destruct (deleteFieldAt_items node structNode fs fieldIndex f
              Hfs Hi Hf Hkey Hty Hs Hshape Hobj)
    as (Hcheck & node' & sn' & Hdel & Hsn' & Hd' & Hfields).
  exists node', sn'. split; [exact Hdel|].
  split; [unfold canDeleteFieldAt; by rewrite Hcheck|].
  split; [exact Hsn'|]. split; [|split; [exact Hd'|exact Hfields]].
  rewrite Hd'. apply map_items_rel; [done|].
  eapply all_items_impl; [|exact Hobj]. intros item [m ->]. by exists m.
Qed.

Lemma deleteFieldAt_removes_witness :
  exists node' structNode',
    deleteFieldAt c7_container 1 = (node', OK ())
    /\ canDeleteFieldAt c7_container 1 = true
    /\ _getStructNode node' = Some structNode'
    /\ items_rel (field_removed "done") (data c7_container) (data structNode')
    /\ fields (model node') = Some [Bare "Name"].
Proof.
  destruct (deleteFieldAt_removes c7_container c7_container
              [Bare "Name"; c7_field_before] 1 c7_field_before)
    as (n' & sn' & H1 & H2 & H3 & H4 & _ & H5); try reflexivity.
  - lia.
  - discriminate.
  - left. split; [reflexivity|]. eexists. reflexivity.
  - repeat constructor; eexists; reflexivity.
  - exists n', sn'. done.
Defined.

Lemma map_items_id (g : value -> value) (d : value) :
  all_items (fun item => g item = item) d -> map_items g d = d.
Proof.
  destruct d; cbn; try done; intros Hall; f_equal.
  - induction Hall as [|x l Hx _ IH]; cbn; [done|]. by rewrite Hx, IH.
  - apply map_eq. intros k. rewrite lookup_fmap.
    destruct (m !! k) as [v|] eqn:Hk; cbn; [|done]. f_equal. exact (Hall k v Hk).
Qed.

(** X19: declaring a new field with [updateFieldAt(node, -1, field)] and
    deleting it again with [deleteFieldAt] at the index it got gives the
    declared fields back; every item loses the key of the field's slug, so
    the data is back as well when no item had such a key.  (The field is no
    key field, the node no map<string>, and the struct node holds
    well-shaped data whose items are objects.) *)
Theorem add_delete_field (node structNode : Node) (fs : list FieldDecl)
    (field : FieldDecl) :
  fields (model node) = Some fs ->
  isKeyField field = false ->
  getNodeType node <> TYPE_MAP_STRING ->
  _getStructNode node = Some structNode ->
  container_data structNode ->
  all_items is_object (data structNode) ->
  exists node1 node2 structNode2,
    updateFieldAt node (Some (-1)) field = (node1, OK ())
    /\ deleteFieldAt node1 (Z.of_nat (length fs)) = (node2, OK ())
    /\ fields (model node2) = fields (model node)
    /\ _getStructNode node2 = Some structNode2
    /\ items_rel (field_removed (slugify (fname (getField field))))
         (data structNode) (data structNode2)
    /\ (all_items (fun item => forall m, item = VObj m ->
                     m !! slugify (fname (getField field)) = None)
          (data structNode) ->
        data structNode2 = data structNode).
Proof.
  intros Hfs Hkey Hty Hs Hshape Hobj.
  pose proof (updateFieldAt_appends node (Some (-1)) field fs
                ltac:(by right) Hfs) as Hup.
  set (node1 := set_model node (set_fields (model node) (Some (fs ++ [field])%list))) in *.
  destruct (struct_node_set_fields node structNode (Some (fs ++ [field])%list) Hs)
    as (sn1 & Hs1 & Hd1 & Ht1).
  destruct (deleteFieldAt_items node1 sn1 (fs ++ [field])
              (Z.of_nat (length fs)) field)
    as (_ & node2 & sn2 & Hdel & Hs2 & Hd2 & Hfields); try done.
  { lia. }
  { rewrite Nat2Z.id, lookup_app_r by lia. by rewrite Nat.sub_diag. }
  { destruct Hshape as [[Ht Hd]|[Ht Hd]]; [left|right];
      by rewrite Ht1, Hd1. }
  { by rewrite Hd1. }
  exists node1, node2, sn2. split; [exact Hup|]. split; [exact Hdel|].
  split.
  { rewrite Hfields, Hfs, Nat2Z.id. f_equal.
    by rewrite delete_middle, app_nil_r. }
  split; [exact Hs2|]. rewrite Hd1 in Hd2. split.
  { rewrite Hd2. apply map_items_rel; [done|].
    eapply all_items_impl; [|exact Hobj]. intros item [m ->]. by exists m. }
  intros Hnone. rewrite Hd2. apply map_items_id.
  assert (Hboth : all_items (fun item => is_object item /\
            forall m, item = VObj m ->
                      m !! slugify (fname (getField field)) = None)
            (data structNode)).
  { destruct (data structNode); cbn in *; try done.
    - by apply Forall_and.
    - intros k v Hk. split; [exact (Hobj k v Hk)|exact (Hnone k v Hk)]. }
  eapply all_items_impl; [|exact Hboth]. intros item [[m ->] Hm].
  f_equal. apply delete_id. by apply Hm.
Qed.

Lemma add_delete_field_witness :
  exists node1 node2 structNode2,
    updateFieldAt c7_container (Some (-1)) (Bare "Tags") = (node1, OK ())
    /\ deleteFieldAt node1 2 = (node2, OK ())
    /\ fields (model node2) = fields (model c7_container)
    /\ _getStructNode node2 = Some structNode2
    /\ data structNode2 = data c7_container.
Proof.
  destruct (add_delete_field c7_container c7_container
              [Bare "Name"; c7_field_before] (Bare "Tags"))
    as (n1 & n2 & sn2 & H1 & H2 & H3 & H4 & _ & H5); try reflexivity.
  - discriminate.
  - left. split; [reflexivity|]. eexists. reflexivity.
  - repeat constructor; eexists; reflexivity.
  - exists n1, n2, sn2. repeat (split; [done|]). apply H5.
    repeat constructor; intros m [= <-]; reflexivity.
Defined.

(** ** The converter, once more *)



(** ** Paths that denote a container, and paths put back together *)

Lemma string_app_assoc (a b c : string) : (a +:+ b) +:+ c = a +:+ b +:+ c.
Proof.
  induction a as [|x a IH]; [done|].
  change (String x ((a +:+ b) +:+ c) = String x (a +:+ b +:+ c)).
  by rewrite IH.
Qed.

Lemma join_snoc (pre : list string) (p : string) :
  pre <> [] -> join "/" (pre ++ [p]) = join "/" pre +:+ "/" +:+ p.
Proof.
  induction pre as [|s pre IH]; [done|]. intros _.
  destruct pre as [|s' pre]; [done|].
  change (join "/" ((s :: s' :: pre) ++ [p]))
    with (s +:+ "/" +:+ join "/" ((s' :: pre) ++ [p])).
  rewrite IH by done.
  change (join "/" (s :: s' :: pre)) with (s +:+ "/" +:+ join "/" (s' :: pre)).
  by rewrite !string_app_assoc.
Qed.

Lemma join_path_segments (s : string) :
  join "/" (path_segments (PathStr s)) = s.
Proof.
  cbn. destruct (String.eqb_spec s "") as [->|Hs]; [done|].
  apply join_of_split_slash.
Qed.

(** X21: when all the segments of a path are consumed by stepping into
    children - the empty path included - [treePathAndIndex] reports the
    container itself: [dataIndex] is [-1] and [treePath] is the whole path
    (for a path given as a string, that very string). *)
Theorem treePathAndIndex_container (tree n : Node) (path : PathArg) :
  walks_to tree (path_segments path) n ->
  treePathAndIndex tree path
  = OK (Path.mk path (join "/" (path_segments path)) (VNum (-1)))
  /\ forall s, path = PathStr s ->
       Path.treePath <$> treePathAndIndex tree path = OK s.
Proof.
  intros Hw.
  assert (H : treePathAndIndex tree path
              = OK (Path.mk path (join "/" (path_segments path)) (VNum (-1)))).
  { unfold treePathAndIndex.
    rewrite <- (app_nil_r (path_segments path)).
    rewrite (treePathAndIndex_walk tree n _ [] _ Hw). cbn.
    by rewrite app_nil_r. }
  split; [exact H|]. intros s ->. rewrite H. cbn -[path_segments].
  by rewrite join_path_segments.
Qed.

Lemma treePathAndIndex_container_witness :
  treePathAndIndex c5_tree (PathStr "foo")
  = OK (Path.mk (PathStr "foo") "foo" (VNum (-1)))
  /\ forall s, PathStr "foo" = PathStr s ->
       Path.treePath <$> treePathAndIndex c5_tree (PathStr "foo") = OK s.
Proof.
  apply (treePathAndIndex_container c5_tree
           (mkNode c5_foo
              (VObj {["bar" := VArr [VObj {["name" := VStr "x"]}]]})
              (Some c5_tree) (Some "/foo") (Some "/foo") VUndef (VNum (-1)))).
  eapply walks_down; [reflexivity | vm_compute; reflexivity |].
  apply walks_here.
Defined.

(** X22: for a path string that walks down at least one level to a map
    container and has exactly one more segment, the result of
    [treePathAndIndex] puts the path back together: [dataIndex] is that
    last segment and [treePath], a slash and [dataIndex] are the path. *)
Theorem treePathAndIndex_rebuilds (tree n : Node) (s : string)
    (pre : list string) (p : string) :
  walks_to tree pre n ->
  pre <> [] ->
  has_children n = false ->
  isMapType n = true ->
  path_segments (PathStr s) = (pre ++ [p])%list ->
  exists sel,
    treePathAndIndex tree (PathStr s) = OK sel
    /\ Path.fullPath sel = PathStr s
    /\ Path.dataIndex sel = VStr p
    /\ Path.treePath sel +:+ "/" +:+ p = s.
Proof.
  intros Hw Hpre Hc Hmap Hsegs.
  assert (Hi : isItem n = true).
  { unfold isMapType in Hmap. unfold isItem.
    apply orb_true_iff in Hmap as [-> | ->]; by rewrite ?orb_true_r. }
  eexists. split.
  { by apply (treePathAndIndex_at_container tree n _ pre [] p). }
  cbn. split; [done|]. split.
  - unfold selector. unfold isMapType in Hmap.
    destruct (String.eqb_spec (getNodeType n) TYPE_LIST_OBJECT) as [Hl|]; [|done].
    rewrite Hl in Hmap. discriminate Hmap.
  - rewrite <- (join_path_segments s), Hsegs. by rewrite join_snoc.
Qed.

Lemma treePathAndIndex_rebuilds_witness :
  exists sel,
    treePathAndIndex labels_tree (PathStr "labels/ok") = OK sel
    /\ Path.fullPath sel = PathStr "labels/ok"
    /\ Path.dataIndex sel = VStr "ok"
    /\ Path.treePath sel +:+ "/" +:+ "ok" = "labels/ok".
Proof.
  apply (treePathAndIndex_rebuilds labels_tree
           (mkNode
              (mkModel "Labels" None (Some TYPE_MAP_STRING) false
                 (Some [Declared (mkField "Key" None true); Bare "Value"]))
              (VObj {["ok" := VStr "OK"]})
              (Some labels_tree) (Some "/labels") (Some "/labels")
              VUndef (VNum (-1)))
           "labels/ok" ["labels"] "ok").
  - eapply walks_down; [reflexivity | vm_compute; reflexivity |].
    apply walks_here.
  - done.
  - reflexivity.
  - reflexivity.
  - reflexivity.
Defined.

(** ** Resolving items of a list, and children without data *)

Lemma digit_in_pretty_N_char (d : N) :
  (d < 10)%N -> digit_in 10 (pretty_N_char d) = Some (Z.of_N d).
Proof.
  intros Hd.
  assert (d = 0 \/ d = 1 \/ d = 2 \/ d = 3 \/ d = 4 \/ d = 5 \/ d = 6
          \/ d = 7 \/ d = 8 \/ d = 9)%N as H by lia.
  repeat (destruct H as [->|H]; [reflexivity|]). by subst.
Qed.

Lemma read_digits_pretty_N_go (x : N) :
  (0 < x)%N ->
  exists k, 0 <= k /\ forall s acc,
    read_digits 10 (pretty_N_go x s) acc
    = read_digits 10 s (Some (default 0 acc * 10 ^ k + Z.of_N x)).
Proof.
  induction (N.lt_wf_0 x) as [x _ IH]. intros Hx.
  assert (Hd : digit_in 10 (pretty_N_char (x `mod` 10))
               = Some (Z.of_N (x `mod` 10)))
    by (apply digit_in_pretty_N_char, N.mod_lt; lia).
  destruct (decide (x `div` 10 = 0)%N) as [Hz|Hnz].
  - exists 1. split; [lia|]. intros s acc.
    rewrite pretty_N_go_step, Hz, pretty_N_go_0 by done. cbn [read_digits].
    rewrite Hd.
    assert (Hsmall : (x < 10)%N) by (apply N.div_small_iff; [lia|done]).
    rewrite (N.mod_small x 10 Hsmall).
    replace (10 ^ 1) with 10 by lia. reflexivity.
  - destruct (IH (x `div` 10)%N) as (k & Hk & Hread).
    { apply N.div_lt; lia. }
    { by apply N.neq_0_lt_0. }
    exists (k + 1). split; [lia|]. intros s acc.
    rewrite pretty_N_go_step, Hread by done. cbn [read_digits].
    rewrite Hd. cbn [default from_option id].
    assert (Harith : (default 0 acc * 10 ^ k + Z.of_N (x `div` 10)) * 10
                     + Z.of_N (x `mod` 10)
                     = default 0 acc * 10 ^ (k + 1) + Z.of_N x).
    { rewrite Z.pow_add_r, Z.pow_1_r by lia.
      rewrite N2Z.inj_div, N2Z.inj_mod. change (Z.of_N 10) with 10.
      pose proof (Z.div_mod (Z.of_N x) 10 ltac:(lia)). lia. }
    by rewrite Harith.
Qed.

(** An array index printed as a property key reads back as that index. *)
Lemma index_of_key_pretty (i : nat) :
  index_of_key (pretty (Z.of_nat i)) = Some i.
Proof.
  destruct (Z.of_nat i) as [|p|p] eqn:Hi; [| |lia].
  - assert (i = 0%nat) as -> by lia. reflexivity.
  - unfold index_of_key.
    change (pretty (Z.pos p)) with (pretty (N.pos p)).
    unfold pretty at 1, pretty_N.
    destruct (decide (N.pos p = 0%N)) as [|_]; [done|].
    destruct (read_digits_pretty_N_go (N.pos p)) as (k & _ & ->); [lia|].
    cbn [read_digits default id].
    replace (0 * 10 ^ k + Z.of_N (N.pos p)) with (Z.pos p) by lia.
    change (pretty (Z.pos p)) with (pretty (N.pos p)).
    unfold pretty, pretty_N.
    destruct (decide (N.pos p = 0%N)) as [|_]; [done|].
    rewrite String.eqb_refl. f_equal. lia.
Qed.

Lemma parseInt_cases (s : string) :
  parseInt s = VNaN \/ exists z, parseInt s = VNum z.
Proof.
  unfold parseInt. destruct (skip_ws s) as [|c s']; [by left|].
  repeat match goal with
         | |- context [let '(_, _) := ?x in _] => destruct x
         | |- context [match ?x with _ => _ end] => destruct x
         end; eauto.
Qed.

(** X23: at a list container whose data is a sequence, [findNode] parses
    the next segment with [parseInt], records the result as [dataIndex] and
    returns without error whatever the segment is: the item at that index
    when there is one (and it is truthy, as every object is), and an empty
    object when the index is beyond the sequence, negative, or not a number
    at all; the segments after it are ignored. *)
Theorem findNode_list_item (node : Node) (l : list value) (pth : PathArg)
    (next : string) (rest : list string) :
  getNodeType node = TYPE_LIST_OBJECT ->
  data node = VArr l ->
  pth <> PathStr "" ->
  findNode_segments pth = next :: rest ->
  exists proj,
    findNode node pth = OK proj
    /\ dataIndex proj = parseInt next
    /\ model proj = model node
    /\ parent proj = Some node
    /\ treePath proj = path node
    /\ data proj
       = match parseInt next with
         | VNum z =>
             if z <? 0 then VObj ∅
             else match l !! Z.to_nat z with
                  | Some v => if truthy v then v else VObj ∅
                  | None => VObj ∅
                  end
         | _ => VObj ∅
         end.
Proof.
  intros Ht Hd Hne Hsegs.
  assert (Hfind : findNode node pth = _findNode node (next :: rest)).
  { destruct pth as [s|segs]; cbn in *; [|by rewrite Hsegs].
    destruct (String.eqb_spec s "") as [->|_]; [done|]. by rewrite Hsegs. }
  rewrite Hfind. cbn. rewrite Ht. cbn. rewrite Hd.
  destruct (parseInt_cases next) as [-> | [z ->]].
  { eexists. split; [reflexivity|]. done. }
  destruct (z <? 0) eqn:Hz.
  - destruct z as [|p|p]; [discriminate Hz|discriminate Hz|].
    eexists. split; [reflexivity|]. done.
  - assert (js_get (VArr l) (key_of (VNum z))
            = OK (default VUndef (l !! Z.to_nat z))) as ->.
    { unfold js_get, key_of, js_to_string.
      rewrite <- (Z2Nat.id z) at 1 by lia. by rewrite index_of_key_pretty. }
    eexists. split; [reflexivity|]. cbn. repeat (split; [done|]).
    unfold js_or. by destruct (l !! Z.to_nat z).
Qed.

Lemma findNode_list_item_witness :
  exists proj,
    findNode c7_container (PathStr "1/name") = OK proj
    /\ dataIndex proj = parseInt "1"
    /\ model proj = model c7_container
    /\ parent proj = Some c7_container
    /\ treePath proj = path c7_container
    /\ data proj
       = match parseInt "1" with
         | VNum z =>
             if z <? 0 then VObj ∅
             else match [VObj {["name" := VStr "a"; "done" := VStr "true"]};
                         VObj {["name" := VStr "b"; "done" := VStr ""]}]
                        !! Z.to_nat z with
                  | Some v => if truthy v then v else VObj ∅
                  | None => VObj ∅
                  end
         | _ => VObj ∅
         end.
Proof.
  apply (findNode_list_item c7_container _ (PathStr "1/name") "1" ["name"]).
  - reflexivity.
  - reflexivity.
  - discriminate.
  - reflexivity.
Defined.

(** X24: whatever the schema and the data, a projection that [findNode]
    returns after following at least one segment has data to work on:
    never [undefined] or [null], and truthy except for the empty string
    that stands in for a missing value of a map. *)
Theorem findNode_data_defined (node proj : Node) (pth : PathArg) :
  findNode_segments pth <> [] ->
  pth <> PathStr "" ->
  findNode node pth = OK proj ->
  data proj <> VUndef /\ data proj <> VNull
  /\ (truthy (data proj) = true \/ data proj = VStr "").
Proof.
  intros Hsegs Hne Hfind.
  assert (H : _findNode node (findNode_segments pth) = OK proj).
  { destruct pth as [s|segs]; cbn in *; [|done].
    destruct (String.eqb_spec s "") as [->|_]; done. }
  clear Hfind Hne.
  assert (Hgoal : truthy (data proj) = true \/ data proj = VStr "").
  { revert node H Hsegs.
    induction (findNode_segments pth) as [|next rest IH]; intros node H Hsegs;
      [done|].
    cbn in H.
    destruct (String.eqb (getNodeType node) TYPE_TREE).
    - destruct (children (model node)) as [cs|]; [|done].
      destruct (child_with_slug cs next) as [childModel|]; [|done].
      destruct (js_get (data node) next) as [d|]; [|done]. cbn in H.
      destruct (truthy d) eqn:Hd; [|done]. cbn in H.
      destruct rest as [|next' rest'].
      + cbn in H. injection H as <-. by left.
      + by apply (IH _ H).
    - destruct (String.eqb (getNodeType node) TYPE_LIST_OBJECT).
      + destruct (js_get _ _) as [d|]; [|done]. cbn in H.
        injection H as <-. cbn. left. unfold js_or.
        by destruct (truthy d) eqn:Hd.
      + destruct (js_get _ _) as [d|]; [|done]. cbn in H.
        injection H as <-. cbn. unfold js_or.
        destruct (truthy d) eqn:Hd; [by left|].
        destruct (String.eqb _ TYPE_MAP_OBJECT); [by left|by right]. }
  destruct Hgoal as [Ht|Hs].
  - repeat split; [| |by left]; intros Heq; by rewrite Heq in Ht.
  - rewrite Hs. repeat split; [done|done|by right].
Qed.

Lemma findNode_data_defined_witness :
  exists proj,
    findNode c8_container (PathStr "absent") = OK proj
    /\ data proj <> VUndef /\ data proj <> VNull
    /\ (truthy (data proj) = true \/ data proj = VStr "").
Proof.
  eexists. split; [reflexivity|].
  apply (findNode_data_defined c8_container _ (PathStr "absent")).
  - discriminate.
  - discriminate.
  - reflexivity.
Defined.

(** X25: at a tree node [findNode] never makes up a child: a segment that
    is no child's slug is a not-found error whatever the data holds, and a
    child for which the data, an object, holds a falsy value or - the slug
    being no name inherited from [Object.prototype] - nothing at all ends
    in the runtime's type error: the empty default of the source is never
    returned, however many segments follow. *)
Theorem findNode_tree_errors (node : Node) (cs : list Model) (next : string)
    (rest : list string) :
  getNodeType node = TYPE_TREE ->
  children (model node) = Some cs ->
  (child_with_slug cs next = None ->
   exists e, findNode node (PathSeq (next :: rest)) = Throw e
             /\ error_kind e = NotFoundError)
  /\ (forall c m d, child_with_slug cs next = Some c ->
        data node = VObj m -> m !! next = Some d -> truthy d = false ->
        findNode node (PathSeq (next :: rest)) = Throw JsTypeError)
  /\ (forall c m, child_with_slug cs next = Some c ->
        data node = VObj m -> m !! next = None -> inherited next = false ->
        findNode node (PathSeq (next :: rest)) = Throw JsTypeError).
Proof.
  intros Ht Hcs.
  assert (Hfalsy : forall c d, child_with_slug cs next = Some c ->
            js_get (data node) next = OK d -> truthy d = false ->
            findNode node (PathSeq (next :: rest)) = Throw JsTypeError).
  { intros c d Hc Hd Hf. cbn. rewrite Ht, Hcs. cbn. rewrite Hc, Hd. cbn.
    by rewrite Hf. }
  split; [|split].
  - intros Hnone. exists NoChildNamed. split; [|done].
    cbn. rewrite Ht, Hcs. cbn. by rewrite Hnone.
  - intros c m d Hc Hm Hk Hd. apply (Hfalsy c d Hc); [|done].
    rewrite Hm. cbn. by rewrite Hk.
  - intros c m Hc Hm Hk _. apply (Hfalsy c VUndef Hc); [|done].
    rewrite Hm. cbn. by rewrite Hk.
Qed.

Lemma findNode_tree_errors_witness :
  findNode c5_tree_no_data (PathSeq ["foo"; "bar"]) = Throw JsTypeError.
Proof.
  refine (proj2 (proj2 (findNode_tree_errors c5_tree_no_data [c5_foo] "foo"
                          ["bar"] eq_refl eq_refl))
            c5_foo ∅ eq_refl eq_refl eq_refl eq_refl).
Defined.

(** ** Adding items *)

Lemma pretty_N_go_head (x : N) (s : string) :
  (0 < x)%N ->
  exists d rest,
    (d < 10)%N /\ pretty_N_go x s = String (pretty_N_char d) rest
    /\ (rest = s \/ exists d' rest', (d' < 10)%N
                     /\ rest = String (pretty_N_char d') rest').
Proof.
  revert s. induction (N.lt_wf_0 x) as [x _ IH]. intros s Hx.
  rewrite pretty_N_go_step by done.
  assert (Hm : (x `mod` 10 < 10)%N) by (apply N.mod_lt; lia).
  destruct (decide (x `div` 10 = 0)%N) as [Hz|Hnz].
  - rewrite Hz, pretty_N_go_0. exists (x `mod` 10)%N, s. by auto.
  - destruct (IH (x `div` 10)%N) with (s := String (pretty_N_char (x `mod` 10)) s)
      as (d & rest & Hd & -> & Hrest).
    { apply N.div_lt; lia. }
    { by apply N.neq_0_lt_0. }
    exists d, rest. split; [done|]. split; [done|]. right.
    destruct Hrest as [->|Hrest]; [|done].
    by exists (x `mod` 10)%N, s.
Qed.

Lemma N_lt_10_cases (d : N) :
  (d < 10)%N ->
  (d = 0 \/ d = 1 \/ d = 2 \/ d = 3 \/ d = 4 \/ d = 5 \/ d = 6
   \/ d = 7 \/ d = 8 \/ d = 9)%N.
Proof. lia. Qed.

Lemma parseInt_digits (d : N) (rest : string) :
  (d < 10)%N ->
  (rest = "" \/ exists d' rest', (d' < 10)%N
                  /\ rest = String (pretty_N_char d') rest') ->
  parseInt (String (pretty_N_char d) rest)
  = match read_digits 10 (String (pretty_N_char d) rest) None with
    | Some n => VNum (1 * n)
    | None => VNaN
    end.
Proof.
  intros Hd%N_lt_10_cases Hrest.
  destruct Hrest as [->|(d' & rest' & Hd'%N_lt_10_cases & ->)].
  - repeat (destruct Hd as [->|Hd]; [reflexivity|]). by subst.
  - repeat (destruct Hd as [->|Hd];
            [repeat (destruct Hd' as [->|Hd']; [reflexivity|]);
             subst; reflexivity|]).
    subst. repeat (destruct Hd' as [->|Hd']; [reflexivity|]).
    subst; reflexivity.
Qed.

(** An index printed in decimal is parsed back by [parseInt]. *)
Lemma parseInt_pretty (i : nat) :
  parseInt (pretty (Z.of_nat i)) = VNum (Z.of_nat i).
Proof.
  destruct (Z.of_nat i) as [|p|p] eqn:Hi; [reflexivity| |lia].
  change (pretty (Z.pos p)) with (pretty (N.pos p)).
  unfold pretty, pretty_N.
  destruct (decide (N.pos p = 0%N)) as [|_]; [done|].
  destruct (pretty_N_go_head (N.pos p) "") as (d & rest & Hd & Hgo & Hrest);
    [lia|].
  destruct (read_digits_pretty_N_go (N.pos p)) as (k & _ & Hread); [lia|].
  specialize (Hread "" None). rewrite Hgo in *.
  rewrite (parseInt_digits d rest Hd Hrest), Hread.
  cbn [read_digits default id]. f_equal; lia.
Qed.

Lemma omap_length_le {A B} (f : A -> option B) (l : list A) :
  (length (omap f l) <= length l)%nat.
Proof.
  induction l as [|a l IH]; [done|]. cbn. destruct (f a); cbn; lia.
Qed.

Lemma name_taken_spec (fieldName full : string) (items : list value) :
  Forall readable items ->
  name_taken fieldName full items
  = OK (existsb (String.eqb full) (item_names fieldName items)).
Proof.
  induction 1 as [|item items [Hu Hn] _ IH]; [done|].
  cbn. destruct (js_get item fieldName) as [v|e] eqn:Hget.
  - cbn. destruct v; try exact IH.
    cbn. rewrite (String.eqb_sym full s).
    by destruct (String.eqb s full).
  - destruct item; cbn in Hget; try congruence; repeat case_match; congruence.
Qed.

Lemma list_probe_spec (fuel : nat) (fieldName : string) (items : list value)
    (newName : string) (idx : nat) :
  Forall readable items ->
  findNewListItemName_probe fuel fieldName items newName idx
  = OK (findNewNodeName_probe fuel (item_names fieldName items) newName idx).
Proof.
  intros Hitems. revert idx. induction fuel as [|fuel IH]; intros idx; [done|].
  cbn. rewrite name_taken_spec by done. cbn.
  destruct (existsb _ _); [apply IH|done].
Qed.

(** X26: on a list whose data is a sequence of readable items, [addItem]
    appends one item and returns its index, the old length; the item holds,
    under the slug of the first field, the requested name with the first
    counter from 1 on that makes it differ from that value of every item
    already there.  [findNode] with the returned index then finds it. *)
Theorem addItem_list (node : Node) (l : list value) (k requestedName : string) :
  getNodeType node = TYPE_LIST_OBJECT ->
  data node = VArr l ->
  defaultFieldName (model node) = OK k ->
  Forall readable l ->
  exists j node' it proj,
    addItem node requestedName = (node', Returns it)
    /\ first_free (item_names k l) requestedName 1 j
    /\ Item.item it = VObj {[k := VStr (fullName requestedName j)]}
    /\ Item.dataIndex it = VNum (Z.of_nat (length l))
    /\ node' = set_data node (VArr (l ++ [Item.item it])%list)
    /\ findNode node' (PathSeq [js_to_string (Item.dataIndex it)]) = OK proj
    /\ data proj = Item.item it
    /\ dataIndex proj = Item.dataIndex it.
Proof.
  intros Ht Hd Hk Hl.
  destruct (probe_first_free (S (length l)) (item_names k l) (item_names k l)
              requestedName 1) as (j & Hj & Hfree).
  { done. }
  { pose proof (omap_length_le (fun item => match js_get item k with
                                            | OK (VStr s) => Some s
                                            | _ => None
                                            end) l) as Hle.
    unfold item_names. lia. }
  assert (Hname : _findNewListItemName node requestedName 1
                  = OK (fullName requestedName j)).
  { unfold _findNewListItemName, getDataItems. rewrite Hk, Ht, Hd.
    cbn -[findNewListItemName_probe].
    rewrite list_probe_spec by done. by rewrite Hj. }
  set (item := VObj {[k := VStr (fullName requestedName j)]}).
  assert (Hadd : addItem node requestedName
                 = (set_data node (VArr (l ++ [item])%list),
                    Returns (Item.mk (VNum (Z.of_nat (length l))) item))).
  { unfold addItem. rewrite Ht, Hk, Hname, Hd. reflexivity. }
  exists j, (set_data node (VArr (l ++ [item])%list)),
    (Item.mk (VNum (Z.of_nat (length l))) item).
  assert (Hfind : findNode (set_data node (VArr (l ++ [item])%list))
                    (PathSeq [pretty (Z.of_nat (length l))])
                  = OK (mkNode (model node) item
                          (Some (set_data node (VArr (l ++ [item])%list)))
                          (Some (path_prefix (path node)
                                 +:+ pretty (Z.of_nat (length l))))
                          (path node) (VNum (Z.of_nat (length l))) VUndef)).
  { cbn -[pretty]. change (getNodeType (set_data node _)) with (getNodeType node).
    rewrite Ht. cbn -[pretty]. rewrite parseInt_pretty.
    unfold key_of, js_to_string, js_get. rewrite index_of_key_pretty.
    rewrite lookup_app_r, Nat.sub_diag by done. reflexivity. }
  eexists. split; [exact Hadd|]. split; [exact Hfree|].
  split; [done|]. split; [done|]. split; [done|].
  split; [exact Hfind|]. done.
Qed.

Lemma addItem_list_witness :
  exists j node' it proj,
    addItem c2_container "Hello" = (node', Returns it)
    /\ first_free (item_names "title" [VObj {["title" := VStr "Hello"]}])
         "Hello" 1 j
    /\ Item.item it = VObj {["title" := VStr (fullName "Hello" j)]}
    /\ Item.dataIndex it = VNum 1
    /\ node' = set_data c2_container
                 (VArr ([VObj {["title" := VStr "Hello"]}] ++ [Item.item it])%list)
    /\ findNode node' (PathSeq [js_to_string (Item.dataIndex it)]) = OK proj
    /\ data proj = Item.item it
    /\ dataIndex proj = Item.dataIndex it.
Proof.
  apply (addItem_list c2_container [VObj {["title" := VStr "Hello"]}]
           "title" "Hello").
  - reflexivity.
  - reflexivity.
  - reflexivity.
  - repeat constructor; discriminate.
Defined.

Lemma elem_of_taken_keys (m : gmap string value) (k : string) :
  k ∈ taken_keys m <-> is_defined (default VUndef (m !! k)) = true.
Proof.
  unfold taken_keys. rewrite list_elem_of_omap. split.
  - intros ([k' v] & Hin%elem_of_map_to_list & Hf). cbn in Hf.
    destruct (is_defined v) eqn:Hv; [|done]. injection Hf as ->.
    by rewrite Hin.
  - intros Hdef. destruct (m !! k) as [v|] eqn:Hk; [|done].
    exists (k, v). split; [by apply elem_of_map_to_list|].
    cbn in *. by rewrite Hdef.
Qed.

Lemma taken_keys_length (m : gmap string value) :
  (length (taken_keys m) <= size m)%nat.
Proof.
  unfold taken_keys. rewrite <- length_map_to_list. apply omap_length_le.
Qed.

Lemma map_probe_spec (fuel : nat) (m : gmap string value)
    (newName : string) (idx : nat) :
  findNewMapKey_probe fuel (VObj m) newName idx
  = OK (findNewNodeName_probe fuel (taken_keys m) newName idx).
Proof.
  revert idx. induction fuel as [|fuel IH]; intros idx; [done|].
  cbn. destruct (existsb _ _) eqn:Hex.
  - apply existsb_eqb_elem_of, elem_of_taken_keys in Hex.
    destruct (default VUndef (m !! fullName newName idx)); try done; apply IH.
  - destruct (default VUndef (m !! fullName newName idx)) eqn:Hv; [done|..];
      (assert (existsb (String.eqb (fullName newName idx)) (taken_keys m) = true)
         as Hex' by (apply existsb_eqb_elem_of, elem_of_taken_keys;
                     by rewrite Hv); congruence).
Qed.

Lemma list_ascii_of_string_app (a b : string) :
  list_ascii_of_string (a +:+ b)
  = (list_ascii_of_string a ++ list_ascii_of_string b)%list.
Proof.
  induction a as [|c a IH]; [done|].
  change (String c a +:+ b) with (String c (a +:+ b)). cbn. by rewrite IH.
Qed.

Lemma inherited_no_paren (k : string) :
  inherited k = true -> "("%char ∉ list_ascii_of_string k.
Proof.
  unfold inherited, object_prototype_names. cbn [existsb].
  repeat match goal with
         | |- context [String.eqb k ?n] =>
             destruct (String.eqb_spec k n) as [->|_];
             [intros _ H; cbn in H;
              repeat (apply elem_of_cons in H as [H|H]; [discriminate H|]);
              by apply elem_of_nil in H|]
         end.
  done.
Qed.

(** No name with a counter is inherited: the probes read alike in the
    embedding and in the source once the requested name itself does. *)
Lemma inherited_fullName (newName : string) (idx : nat) :
  inherited newName = false -> inherited (fullName newName idx) = false.
Proof.
  intros Hn. unfold fullName. destruct (idx =? 1)%nat; [done|]. clear Hn.
  destruct (inherited (newName +:+ " (" +:+ pretty idx +:+ ")")) eqn:Hi;
    [|done].
  apply inherited_no_paren in Hi. destruct Hi.
  rewrite !list_ascii_of_string_app. cbn. set_solver.
Qed.

(** X27: on a map whose data is an object, with a requested name that is no
    name inherited from [Object.prototype], [addItem] stores the new item -
    an empty object for a map of objects, the string [New value] for a map
    of strings - under the requested name with the first counter from 1 on
    for which the data holds no defined value, and returns that key; the
    data is the old data with that one entry added, no defined entry is
    overwritten, and [findNode] with the returned key then finds the
    item. *)
Theorem addItem_map_fresh (node : Node) (m : gmap string value)
    (requestedName : string) :
  isMapType node = true ->
  data node = VObj m ->
  inherited requestedName = false ->
  exists j node' it proj,
    addItem node requestedName = (node', Returns it)
    /\ first_free (taken_keys m) requestedName 1 j
    /\ (forall i, inherited (fullName requestedName i) = false)
    /\ Item.dataIndex it = VStr (fullName requestedName j)
    /\ Item.item it = (if String.eqb (getNodeType node) TYPE_MAP_OBJECT
                       then VObj ∅ else VStr "New value")
    /\ model node' = model node
    /\ data node'
       = VObj (<[fullName requestedName j := Item.item it]> m)
    /\ (forall k v, m !! k = Some v -> is_defined v = true ->
          js_get (data node') k = OK v)
    /\ findNode node' (PathSeq [fullName requestedName j]) = OK proj
    /\ data proj = Item.item it
    /\ dataIndex proj = Item.dataIndex it.
Proof.
  intros Hmap Hd Hplain.
  destruct (probe_first_free (S (size m)) (taken_keys m) (taken_keys m)
              requestedName 1) as (j & Hj & Hfree).
  { done. }
  { pose proof (taken_keys_length m). lia. }
  remember (fullName requestedName j) as key eqn:Hkeyeq.
  assert (Hkey : _findNewMapKey node requestedName 1 = OK key).
  { unfold _findNewMapKey. rewrite Hd, map_probe_spec. by rewrite Hj. }
  assert (Hadd : forall item,
            addItem_map node requestedName item
            = (set_data node (VObj (<[key := item]> m)),
               Returns (Item.mk (VStr key) item))).
  { intros item. unfold addItem_map. by rewrite Hkey, Hd. }
  assert (Hkeep : forall item k v, m !! k = Some v -> is_defined v = true ->
            js_get (VObj (<[key := item]> m)) k = OK v).
  { intros item k v Hk Hv. cbn.
    destruct (decide (k = key)) as [->|Hne].
    - destruct Hfree as (_ & Hnot & _). destruct Hnot.
      apply elem_of_taken_keys. by rewrite <- Hkeyeq, Hk.
    - by rewrite lookup_insert_ne, Hk. }
  assert (Hfind : forall item, truthy item = true ->
            findNode (set_data node (VObj (<[key := item]> m))) (PathSeq [key])
            = OK (mkNode (model node) item
                    (Some (set_data node (VObj (<[key := item]> m))))
                    (Some (path_prefix (path node) +:+ key))
                    (path node) (VStr key) VUndef)).
  { intros item Hitem. unfold findNode, _findNode.
    change (getNodeType (set_data node ?d)) with (getNodeType node).
    change (data (set_data node ?d)) with d.
    assert (js_get (VObj (<[key := item]> m)) key = OK item) as ->.
    { cbn. by rewrite lookup_insert_eq. }
    unfold isMapType in Hmap.
    apply orb_true_iff in Hmap as [Ht%String.eqb_eq|Ht%String.eqb_eq];
      rewrite Ht; cbn; unfold js_or; by rewrite Hitem. }
  pose proof (fun i => inherited_fullName requestedName i Hplain) as Hprobes.
  subst key. unfold isMapType in Hmap.
  destruct (String.eqb_spec (getNodeType node) TYPE_MAP_OBJECT) as [Ht|Ht].
  - exists j, (set_data node (VObj (<[fullName requestedName j := VObj ∅]> m))),
      (Item.mk (VStr (fullName requestedName j)) (VObj ∅)).
    eexists. split; [unfold addItem; rewrite Ht; apply Hadd|].
    split; [done|]. split; [done|]. split; [done|]. split; [done|].
    split; [done|]. split; [done|].
    split; [apply Hkeep|]. split; [by apply Hfind|]. done.
  - cbn in Hmap. rewrite orb_false_r in Hmap. apply String.eqb_eq in Hmap.
    exists j, (set_data node (VObj (<[fullName requestedName j := VStr "New value"]> m))),
      (Item.mk (VStr (fullName requestedName j)) (VStr "New value")).
    eexists. split; [unfold addItem; rewrite Hmap; apply Hadd|].
    split; [done|]. split; [done|]. split; [done|]. split; [done|].
    split; [done|]. split; [done|].
    split; [apply Hkeep|]. split; [by apply Hfind|]. done.
Qed.

Lemma addItem_map_fresh_witness :
  exists j node' it proj,
    addItem c6_map_string "ok" = (node', Returns it)
    /\ first_free (taken_keys {["ok" := VStr "OK"]}) "ok" 1 j
    /\ Item.dataIndex it = VStr (fullName "ok" j)
    /\ Item.item it = VStr "New value"
    /\ data node'
       = VObj (<[fullName "ok" j := Item.item it]> {["ok" := VStr "OK"]})
    /\ findNode node' (PathSeq [fullName "ok" j]) = OK proj
    /\ data proj = Item.item it
    /\ dataIndex proj = Item.dataIndex it.
Proof.
  destruct (addItem_map_fresh c6_map_string {["ok" := VStr "OK"]} "ok"
              eq_refl eq_refl eq_refl)
    as (j & node' & it & proj & H1 & H2 & _ & H3 & H4 & _ & H5 & _ & H6 & H7 & H8).
  by exists j, node', it, proj.
Defined.

(** The bounded searches obey the recursive equations of the source. *)
Lemma probe_fuel_irrelevant (names : list string) (newName : string)
    (idx fuel1 fuel2 : nat) :
  (length names <= fuel1)%nat -> (length names <= fuel2)%nat ->
  findNewNodeName_probe fuel1 names newName idx
  = findNewNodeName_probe fuel2 names newName idx.
Proof.
  intros H1 H2.
  destruct (probe_first_free fuel1 names names newName idx)
    as (k1 & -> & Hk1); [done|done|].
  destruct (probe_first_free fuel2 names names newName idx)
    as (k2 & -> & Hk2); [done|done|].
  f_equal. by apply (first_free_unique names newName idx).
Qed.

Lemma findNewMapKey_unfold (node : Node) (m : gmap string value)
    (newName : string) (idx : nat) :
  data node = VObj m ->
  _findNewMapKey node newName idx
  = (v ← js_get (data node) (fullName newName idx);
     match v with
     | VUndef => OK (fullName newName idx)
     | _ => _findNewMapKey node newName (S idx)
     end).
Proof.
  intros Hd. unfold _findNewMapKey. rewrite Hd.
  change (findNewMapKey_probe (S (size m)) (VObj m) newName idx)
    with (v ← js_get (VObj m) (fullName newName idx);
          match v with
          | VUndef => OK (fullName newName idx)
          | _ => findNewMapKey_probe (size m) (VObj m) newName (S idx)
          end).
  rewrite !map_probe_spec.
  rewrite (probe_fuel_irrelevant (taken_keys m) newName (S idx)
             (size m) (S (size m)));
    [done|apply taken_keys_length|].
  pose proof (taken_keys_length m). lia.
Qed.

Lemma findNewListItemName_unfold (node : Node) (l : list value)
    (k newName : string) (idx : nat) :
  getNodeType node = TYPE_LIST_OBJECT ->
  data node = VArr l ->
  defaultFieldName (model node) = OK k ->
  Forall readable l ->
  _findNewListItemName node newName idx
  = (taken ← name_taken k (fullName newName idx) l;
     if taken : bool then _findNewListItemName node newName (S idx)
     else OK (fullName newName idx)).
Proof.
  intros Ht Hd Hk Hl.
  assert (Hlen : (length (item_names k l) <= length l)%nat)
    by apply omap_length_le.
  assert (Hrun : forall i, _findNewListItemName node newName i
                 = OK (findNewNodeName_probe (S (length l)) (item_names k l)
                         newName i)).
  { intros i. unfold _findNewListItemName, getDataItems. rewrite Hk, Ht, Hd.
    cbn -[findNewListItemName_probe]. by apply list_probe_spec. }
  rewrite !Hrun, name_taken_spec by done.
  change (findNewNodeName_probe (S (length l)) (item_names k l) newName idx)
    with (if existsb (String.eqb (fullName newName idx)) (item_names k l)
          then findNewNodeName_probe (length l) (item_names k l) newName (S idx)
          else fullName newName idx).
  destruct (existsb (String.eqb (fullName newName idx)) (item_names k l));
    [|done].
  change (OK (findNewNodeName_probe (length l) (item_names k l) newName (S idx))
          = OK (findNewNodeName_probe (S (length l)) (item_names k l) newName
                  (S idx))).
  f_equal. apply probe_fuel_irrelevant; lia.
Qed.

(** ** The selection and the node of the content view *)

Lemma join_nonempty (l : list string) :
  l <> [] -> Forall nonempty l -> join "/" l <> "".
Proof.
  destruct l as [|s l]; [done|]. intros _ Hl.
  apply Forall_cons in Hl as [Hs _].
  destruct s as [|c s]; [done|]. by destruct l.
Qed.

Lemma path_prefix_join (acc : list string) (p : string) :
  Forall nonempty acc ->
  path_prefix (Some (join "/" acc)) +:+ p = join "/" (acc ++ [p]).
Proof.
  intros Hacc. destruct (decide (acc = [])) as [->|Hne]; [done|].
  unfold path_prefix.
  destruct (String.eqb_spec (join "/" acc) "") as [He|_].
  - by destruct (join_nonempty acc).
  - by rewrite join_snoc, string_app_assoc.
Qed.

Lemma tree_schema_children (m c : Model) (cs : list Model) (slug : string) :
  tree_schema m = true ->
  children m = Some cs ->
  child_with_slug cs slug = Some c ->
  model_type m = TYPE_TREE /\ tree_schema c = true.
Proof.
  intros Hm Hcs Hc. destruct m as [n ch t l fs]. cbn in Hcs. subst ch.
  destruct cs as [|c0 cs]; [done|].
  cbn [tree_schema] in Hm. apply andb_true_iff in Hm as [Ht Hall].
  split; [by apply String.eqb_eq|].
  rewrite forallb_forall in Hall. apply Hall.
  unfold child_with_slug in Hc. by apply find_some in Hc as [Hin _].
Qed.

Lemma walkers_agree (segs : list string) :
  forall (node1 node2 : Node) (res r : Path.t (list string)) (proj : Node),
    segs <> [] ->
    model node1 = model node2 ->
    data node1 = data node2 ->
    tree_schema (model node1) = true ->
    Path.dataIndex res = VNum (-1) ->
    _treePathAndIndex node1 segs res = OK r ->
    _findNode node2 segs = OK proj ->
    Path.fullPath r = Path.fullPath res
    /\ dataIndex proj = Path.dataIndex r
    /\ (path node2 = Some (join "/" (Path.treePath res)) ->
        Forall nonempty (Path.treePath res) -> Forall nonempty segs ->
        treePath proj = Some (join "/" (Path.treePath r))).
Proof.
  induction segs as [|p rest IH]; intros node1 node2 res r proj
    Hne Hmodel Hdata Hschema Hidx Hsel Hfind; [done|].
  assert (Htype : getNodeType node2 = getNodeType node1)
    by (unfold getNodeType; by rewrite Hmodel).
  assert (Hmt : model_type (model node1) = getNodeType node1) by done.
  cbn in Hsel, Hfind. rewrite Htype in Hfind.
  unfold has_children, _findChild in Hsel.
  rewrite <- Hmodel, <- Hdata in Hfind.
  destruct (children (model node1)) as [[|c0 cs]|] eqn:Hcs.
  - (* an empty sequence of children: a leaf *)
    destruct (String.eqb_spec (getNodeType node1) TYPE_LIST_OBJECT) as [Hl|Hl].
    { rewrite Hl in Hfind. cbn in Hfind.
      destruct (js_get _ _) as [d|]; [|done]. cbn in Hfind.
      injection Hsel as <-. injection Hfind as <-. cbn. by auto. }
    destruct (String.eqb (getNodeType node1) TYPE_MAP_OBJECT
              || String.eqb (getNodeType node1) TYPE_MAP_STRING) eqn:Hm;
      [|done].
    assert (String.eqb (getNodeType node1) TYPE_TREE = false) as Ht.
    { apply orb_true_iff in Hm as [->%String.eqb_eq| ->%String.eqb_eq]; done. }
    rewrite Ht in Hfind.
    destruct (js_get _ _) as [d|]; [|done]. cbn in Hfind.
    injection Hsel as <-. injection Hfind as <-. cbn. by auto.
  - (* children: both step into the child slugged [p] *)
    destruct (child_with_slug (c0 :: cs) p) as [c|] eqn:Hc; [|done].
    destruct (tree_schema_children _ c _ p Hschema Hcs Hc) as [Ht Hsc].
    rewrite Hmt in Ht. rewrite Ht in Hfind. cbn in Hfind.
    destruct (js_get (data node1) p) as [d|] eqn:Hd; [|done].
    cbn in Hsel, Hfind.
    destruct (truthy d) eqn:Htruthy; [|done]. cbn in Hfind.
    destruct rest as [|q rest].
    + injection Hsel as <-. injection Hfind as <-. cbn.
      split; [done|]. split; [done|]. intros Hpath Hacc _.
      by rewrite Hpath, path_prefix_join.
    + match type of Hsel with
      | _treePathAndIndex ?n1 _ ?res' = _ =>
          match type of Hfind with
          | _findNode ?n2 _ = _ =>
              destruct (IH n1 n2 res' r proj ltac:(done) eq_refl eq_refl
                          Hsc Hidx Hsel Hfind) as (Hfull & Hi & Htp)
          end
      end.
      split; [done|]. split; [done|]. intros Hpath Hacc Hsegs.
      apply Forall_cons in Hsegs as [Hp Hsegs].
      apply Htp; cbn; [|by apply Forall_app; auto|done].
      by rewrite Hpath, path_prefix_join.
  - (* no children at all: a leaf *)
    destruct (String.eqb_spec (getNodeType node1) TYPE_LIST_OBJECT) as [Hl|Hl].
    { rewrite Hl in Hfind. cbn in Hfind.
      destruct (js_get _ _) as [d|]; [|done]. cbn in Hfind.
      injection Hsel as <-. injection Hfind as <-. cbn. by auto. }
    destruct (String.eqb (getNodeType node1) TYPE_MAP_OBJECT
              || String.eqb (getNodeType node1) TYPE_MAP_STRING) eqn:Hm;
      [|done].
    assert (String.eqb (getNodeType node1) TYPE_TREE = false) as Ht.
    { apply orb_true_iff in Hm as [->%String.eqb_eq| ->%String.eqb_eq]; done. }
    rewrite Ht in Hfind.
    destruct (js_get _ _) as [d|]; [|done]. cbn in Hfind.
    injection Hsel as <-. injection Hfind as <-. cbn. by auto.
Qed.

Lemma treePathAndIndex_fullPath (tree : Node) (pth : PathArg)
    (sel : Path.t string) :
  treePathAndIndex tree pth = OK sel -> Path.fullPath sel = pth.
Proof.
  assert (forall segs node (res r : Path.t (list string)),
            _treePathAndIndex node segs res = OK r ->
            Path.fullPath r = Path.fullPath res) as Hkeep.
  { induction segs as [|p rest IH]; intros node res r Hsel.
    - cbn in Hsel. by injection Hsel as <-.
    - cbn in Hsel. destruct (has_children node).
      + destruct (_findChild node p) as [child|]; [|done]. cbn in Hsel.
        by apply IH in Hsel.
      + repeat case_match; try done; by injection Hsel as <-. }
  unfold treePathAndIndex. intros H.
  destruct (_treePathAndIndex _ _ _) as [r|] eqn:Hr; [|done].
  cbn in H. injection H as <-. cbn. by apply Hkeep in Hr.
Qed.

Lemma mapStateToProps_node (tree : Node) (routerPath : string)
    (sel : Path.t string) (proj : Node) :
  mapStateToProps tree routerPath = OK (sel, Some proj) ->
  String.prefix "/node/" routerPath = true
  /\ string_drop 6 routerPath <> ""
  /\ treePathAndIndex tree (PathStr (string_drop 6 routerPath)) = OK sel
  /\ findNode tree (PathStr (string_drop 6 routerPath)) = OK proj.
Proof.
  unfold mapStateToProps. intros H.
  destruct (String.prefix "/node/" routerPath); [|done].
  split; [done|].
  destruct (treePathAndIndex tree (PathStr (string_drop 6 routerPath)))
    as [sel'|] eqn:Hsel; [|done].
  pose proof (treePathAndIndex_fullPath _ _ _ Hsel) as Hfull.
  cbn -[findNode] in H. rewrite Hfull in H.
  destruct (string_drop 6 routerPath) as [|c s] eqn:Hs; [done|].
  split; [done|].
  destruct (findNode tree (PathStr (String c s))) as [n|] eqn:Hn; [|done].
  cbn in H. by injection H as <- <-.
Qed.

(** X28: [mapStateToProps] (content view).  A route outside [/node/], or
    [/node/] itself, selects nothing and resolves no node, whatever the
    tree.  When, over a schema in which every model with children is a
    tree, it computes a selection and a node, the two agree: the selection
    carries the rest of the route as [fullPath], the node's [dataIndex] is
    the selection's, and - the root path being empty and no segment of
    the route empty - so is its [treePath]. *)
Theorem mapStateToProps_agree (tree : Node) (routerPath : string) :
  tree_schema (model tree) = true ->
  ((String.prefix "/node/" routerPath = false \/ routerPath = "/node/") ->
   mapStateToProps tree routerPath = OK (no_selection, None))
  /\ forall sel proj,
       mapStateToProps tree routerPath = OK (sel, Some proj) ->
       String.prefix "/node/" routerPath = true
       /\ Path.fullPath sel = PathStr (string_drop 6 routerPath)
       /\ dataIndex proj = Path.dataIndex sel
       /\ (path tree = Some "" ->
           Forall nonempty (split_slash (string_drop 6 routerPath)) ->
           treePath proj = Some (Path.treePath sel)).
Proof.
  intros Hschema. split.
  { intros [Hp| ->]; [|reflexivity].
    unfold mapStateToProps. by rewrite Hp. }
  intros sel proj (Hp & Hs & Hsel & Hfind)%mapStateToProps_node.
  split; [done|].
  split; [by apply treePathAndIndex_fullPath in Hsel|].
  generalize dependent (string_drop 6 routerPath). intros s Hs Hsel Hfind.
  unfold treePathAndIndex in Hsel. cbn in Hsel, Hfind.
  destruct (String.eqb_spec s "") as [|_]; [done|].
  destruct (_treePathAndIndex tree (split_slash s) _) as [r|] eqn:Hr; [|done].
  cbn in Hsel. injection Hsel as <-. cbn.
  destruct (walkers_agree (split_slash s) tree tree
              (Path.mk (PathStr s) [] (VNum (-1))) r proj
              ltac:(by destruct (split_slash_cons s) as (seg & segs & ->))
              eq_refl eq_refl Hschema eq_refl Hr Hfind) as (_ & Hi & Htp).
  split; [done|]. intros Hpath Hne. by apply Htp.
Qed.

Lemma mapStateToProps_agree_witness :
  mapStateToProps c5_tree "/" = OK (no_selection, None)
  /\ exists sel proj,
       mapStateToProps c5_tree "/node/foo/bar/0" = OK (sel, Some proj)
       /\ Path.fullPath sel = PathStr "foo/bar/0"
       /\ dataIndex proj = Path.dataIndex sel
       /\ treePath proj = Some (Path.treePath sel).
Proof.
  pose proof (mapStateToProps_agree c5_tree "/" eq_refl) as [Hnone _].
  pose proof (mapStateToProps_agree c5_tree "/node/foo/bar/0" eq_refl)
    as [_ Hsome].
  split; [apply Hnone; by left|].
  eexists _, _. split; [reflexivity|].
  edestruct Hsome as (_ & Hfull & Hi & Htp); [reflexivity|].
  split; [exact Hfull|]. split; [exact Hi|].
  apply Htp; [reflexivity|]. repeat constructor; discriminate.
Defined.

(** ** The default field *)

(** X29: the default field of a model is its first field: [defaultFieldName]
    returns a name exactly when [getFieldAt] finds a field at index 0, and
    the name is that field's slug, the one [fieldName] gives its
    declaration.  Without a first field it does not raise the engine's own
    error, as [getFieldAt] does, but the runtime's type error, and so does
    [addItem] on such a list, which then leaves the data as it was. *)
Theorem defaultFieldName_first_field (node : Node) :
  (forall k, defaultFieldName (model node) = OK k
             <-> exists f, getFieldAt node 0 = OK f /\ k = slugify (fname f))
  /\ (forall decl rest, fields (model node) = Some (decl :: rest) ->
        defaultFieldName (model node) = OK (fieldName decl)
        /\ fieldName decl = slugify (fieldDisplayName decl))
  /\ ((fields (model node) = None \/ fields (model node) = Some []) ->
      defaultFieldName (model node) = Throw JsTypeError
      /\ getFieldAt node 0 = Throw NoFieldAtIndex
      /\ (getNodeType node = TYPE_LIST_OBJECT ->
          forall requestedName,
            addItem node requestedName = (node, Throws (Raised JsTypeError)))).
Proof.
  unfold defaultFieldName, getFieldAt. split; [|split].
  - intros k. destruct (fields (model node)) as [[|[s|f] fs]|]; cbn.
    + split; [done|]. by intros (f & Hf & _).
    + split.
      * intros [= <-]. by eexists.
      * by intros (f & [= <-] & ->).
    + split.
      * intros [= <-]. by eexists.
      * by intros (f' & [= <-] & ->).
    + split; [done|]. by intros (f & Hf & _).
  - intros decl rest ->. by destruct decl.
  - intros Hnone.
    assert (Hd : defaultFieldName (model node) = Throw JsTypeError).
    { unfold defaultFieldName. by destruct Hnone as [-> | ->]. }
    split; [exact Hd|]. split; [by destruct Hnone as [-> | ->]|].
    intros Ht requestedName. unfold addItem. rewrite Ht, Hd. reflexivity.
Qed.
